(** * RekaKata: the core pipeline of the prompt generator

    A shallow embedding of the core classes of the repository,
    - [InputValidator]    (src/core/input_validator.py),
    - [TrendingInjector]  (src/core/trending_injector.py),
    - [PromptEngine]      (src/core/prompt_engine.py),
    - [PlatformOptimizer] (src/core/platform_optimizer.py),
    - the two formatters of [GroqClient] (src/core/groq_client.py) and
      the reading of the list of platforms (config/settings.py,
      src/cli/main.py),
    together with the few Python string, dictionary, regular-expression
    and random-sampling primitives they call.

    Python [str] values are lists of characters.  The character classes
    ([str.isspace], [\s], [\w], case mapping) are modelled on the ASCII
    range, where every marker, pattern and key of the source lives; a
    character above 127 is neither white space nor a word character and
    has no case. *)

From Stdlib Require Import Ascii String DecimalString.
From stdpp Require Import base list.

Open Scope list_scope.

(** ** Python strings *)

Abbreviation str := (list ascii).

Module Py.

Definition LF : ascii := ascii_of_nat 10.
Definition CR : ascii := ascii_of_nat 13.
Definition TAB : ascii := ascii_of_nat 9.
Definition DQUOTE : ascii := ascii_of_nat 34.
Definition BACKSLASH : ascii := ascii_of_nat 92.

(** Reader of source literals: [lit "a\nb"] is the Python literal
    ["a\nb"].  Escapes: [\n], [\r], [\t], [\q] for the double quote,
    and a backslash before any other character stands for that
    character. *)
Definition unescape (c : ascii) : ascii :=
  if Ascii.eqb c "n"%char then LF
  else if Ascii.eqb c "r"%char then CR
  else if Ascii.eqb c "t"%char then TAB
  else if Ascii.eqb c "q"%char then DQUOTE
  else c.

Fixpoint lit (s : string) : str :=
  match s with
  | EmptyString => []
  | String c EmptyString => [c]
  | String c (String d r as s') =>
      if Ascii.eqb c BACKSLASH then unescape d :: lit r else c :: lit s'
  end.

Arguments lit s%_string.

(** [str.isspace] on one character: TAB, LF, VT, FF, CR, the four
    separators FS GS RS US, and the space. *)
Definition isspace (c : ascii) : bool :=
  let n := nat_of_ascii c in
  ((9 <=? n) && (n <=? 13)) || ((28 <=? n) && (n <=? 32)).

Definition isupper (c : ascii) : bool :=
  let n := nat_of_ascii c in (65 <=? n) && (n <=? 90).
Definition islower (c : ascii) : bool :=
  let n := nat_of_ascii c in (97 <=? n) && (n <=? 122).
Definition isdigit (c : ascii) : bool :=
  let n := nat_of_ascii c in (48 <=? n) && (n <=? 57).

(** The class [\w]: letters, digits and the underscore. *)
Definition isword (c : ascii) : bool :=
  isupper c || islower c || isdigit c || Ascii.eqb c "_"%char.

Definition lower_char (c : ascii) : ascii :=
  if isupper c then ascii_of_nat (nat_of_ascii c + 32) else c.
Definition upper_char (c : ascii) : ascii :=
  if islower c then ascii_of_nat (nat_of_ascii c - 32) else c.

(** [s.lower()], [s.upper()] *)
Definition lower (s : str) : str := map lower_char s.
Definition upper (s : str) : str := map upper_char s.

(** [s.startswith(p)] *)
Fixpoint startswith (p s : str) : bool :=
  match p, s with
  | [], _ => true
  | _ :: _, [] => false
  | a :: p', b :: s' => Ascii.eqb a b && startswith p' s'
  end.

(** [sub in s] *)
Fixpoint contains (sub s : str) : bool :=
  startswith sub s ||
  match s with
  | [] => false
  | _ :: r => contains sub r
  end.

(** [s == t] *)
Fixpoint eqb (s t : str) : bool :=
  match s, t with
  | [], [] => true
  | a :: s', b :: t' => Ascii.eqb a b && eqb s' t'
  | _, _ => false
  end.

(** [x in l] for a list of strings *)
Definition mem (x : str) (l : list str) : bool := existsb (eqb x) l.

Fixpoint dropwhile (p : ascii -> bool) (s : str) : str :=
  match s with
  | [] => []
  | c :: r => if p c then dropwhile p r else s
  end.

(** [s.strip(chars)] with the set of characters given as a predicate. *)
Definition lstrip_by (p : ascii -> bool) (s : str) : str := dropwhile p s.
Definition rstrip_by (p : ascii -> bool) (s : str) : str :=
  rev (dropwhile p (rev s)).
Definition strip_by (p : ascii -> bool) (s : str) : str :=
  rstrip_by p (lstrip_by p s).

(** [s.strip()] *)
Definition strip (s : str) : str := strip_by isspace s.

(** [s.strip(c)] for a one-character argument *)
Definition strip_char (c : ascii) (s : str) : str := strip_by (Ascii.eqb c) s.

(** [s.split(sep)] for a one-character separator: never empty. *)
Fixpoint split_on (sep : ascii) (s : str) : list str :=
  match s with
  | [] => [[]]
  | c :: r =>
      if Ascii.eqb c sep then [] :: split_on sep r
      else match split_on sep r with
           | l :: ls => (c :: l) :: ls
           | [] => [[c]]
           end
  end.

(** [s.split()]: maximal runs of characters that are not white space.
    [cur] is the run being read, in reverse. *)
Fixpoint split_ws_from (cur : str) (s : str) : list str :=
  match s with
  | [] => match cur with [] => [] | _ => [rev cur] end
  | c :: r =>
      if isspace c then
        match cur with
        | [] => split_ws_from [] r
        | _ => rev cur :: split_ws_from [] r
        end
      else split_ws_from (c :: cur) r
  end.

Definition split (s : str) : list str := split_ws_from [] s.

(** [sep.join(l)] *)
Fixpoint join (sep : str) (l : list str) : str :=
  match l with
  | [] => []
  | [x] => x
  | x :: r => x ++ sep ++ join sep r
  end.

(** [s.replace(old, new)] for a non-empty [old]: occurrences are
    replaced left to right without overlap; [skip] counts the
    characters of the current occurrence still to be dropped. *)
Fixpoint replace_from (old new : str) (skip : nat) (s : str) : str :=
  match s with
  | [] => []
  | c :: r =>
      match skip with
      | S k => replace_from old new k r
      | O =>
          if startswith old s
          then new ++ replace_from old new (length old - 1) r
          else c :: replace_from old new 0 r
      end
  end.

(** With an empty [old], Python puts [new] around every character. *)
Definition replace (old new : str) (s : str) : str :=
  match old with
  | [] => new ++ flat_map (fun c => c :: new) s
  | _ => replace_from old new 0 s
  end.

(** [l[i]] raises [IndexError] out of range: a computation returns a
    value or raises. *)
Inductive exn : Type := IndexError | KeyError.

Inductive result (A : Type) : Type :=
| Ok (a : A)
| Raise (e : exn).
Arguments Ok {A} a.
Arguments Raise {A} e.

Definition bind {A B} (m : result A) (f : A -> result B) : result B :=
  match m with
  | Ok a => f a
  | Raise e => Raise e
  end.

Definition index {A} (l : list A) (i : nat) : result A :=
  match l !! i with
  | Some x => Ok x
  | None => Raise IndexError
  end.

(** [bool(s)]: a string is true when it is not empty. *)
Definition truthy (s : str) : bool :=
  match s with
  | [] => false
  | _ => true
  end.

(** [str(n)] for a non-negative integer *)
Definition str_of_nat (n : nat) : str :=
  list_ascii_of_string (NilEmpty.string_of_uint (Nat.to_uint n)).

(** [s.capitalize()]: the first character in upper case, the others in
    lower case. *)
Definition capitalize (s : str) : str :=
  match s with
  | [] => []
  | c :: r => upper_char c :: lower r
  end.

End Py.

(** ** Regular expressions

    The part of Python's [re] that the source uses: a backtracking
    matcher with Python's priorities (alternatives left to right, greedy
    repetition longest first, lazy repetition shortest first), one
    capture group, positive look-ahead, [^] and [$] without MULTILINE.
    Every repetition of the source's patterns is over a single character
    class, so repetition is defined for classes. *)

Module Re.

Inductive regex : Type :=
| Fail                                 (* matches nothing *)
| Eps                                  (* the empty pattern *)
| Class (p : ascii -> bool)            (* one character of a class *)
| Cat (r1 r2 : regex)                  (* r1 r2 *)
| Alt (r1 r2 : regex)                  (* r1|r2 *)
| Star (p : ascii -> bool)             (* c* , greedy *)
| StarLazy (p : ascii -> bool)         (* c*? , lazy *)
| Bos                                  (* ^ *)
| Eos                                  (* $ *)
| Group (r : regex)                    (* ( r ) , group 1 *)
| Ahead (r : regex).                   (* (?= r ) *)

(** A position of the matcher: whether it is the start of the subject,
    what remains of the subject, the text read since group 1 was
    opened (in reverse, while the group is open), and the content of
    group 1 once it is closed. *)
Record pos : Type := Pos {
  bos : bool;
  rest : str;
  opened : option str;
  group1 : option str
}.

Definition start_at (b : bool) (s : str) : pos :=
  {| bos := b; rest := s; opened := None; group1 := None |}.

(** Reading the character [c], with [t] left after it. *)
Definition read (s : pos) (c : ascii) (t : str) : pos :=
  {| bos := false; rest := t;
     opened := match opened s with Some a => Some (c :: a) | None => None end;
     group1 := group1 s |}.

Definition open_group (s : pos) : pos :=
  {| bos := bos s; rest := rest s; opened := Some []; group1 := group1 s |}.

Definition close_group (s : pos) : pos :=
  {| bos := bos s; rest := rest s; opened := None;
     group1 := match opened s with Some a => Some (rev a) | None => group1 s end |}.

(** [$] without MULTILINE: at the end, or before a final line feed. *)
Definition at_eos (t : str) : bool :=
  match t with
  | [] => true
  | [c] => Ascii.eqb c Py.LF
  | _ => false
  end.

Section Matcher.
Context {R : Type}.

(** [c*]: as many characters as possible first. *)
Fixpoint greedy (p : ascii -> bool) (t : str) (s : pos)
    (k : pos -> option R) : option R :=
  match t with
  | c :: t' =>
      if p c then
        match greedy p t' (read s c t') k with
        | Some x => Some x
        | None => k s
        end
      else k s
  | [] => k s
  end.

(** [c*?]: as few characters as possible first. *)
Fixpoint lazy (p : ascii -> bool) (t : str) (s : pos)
    (k : pos -> option R) : option R :=
  match k s with
  | Some x => Some x
  | None =>
      match t with
      | c :: t' => if p c then lazy p t' (read s c t') k else None
      | [] => None
      end
  end.
End Matcher.

(** [run r s k]: match [r] at [s] and hand the position reached to the
    continuation [k]; when [k] refuses, the next way of matching [r]
    is tried. *)
Fixpoint run (r : regex) (R : Type) (s : pos) (k : pos -> option R) : option R :=
  match r with
  | Fail => None
  | Eps => k s
  | Class p =>
      match rest s with
      | c :: t => if p c then k (read s c t) else None
      | [] => None
      end
  | Cat r1 r2 => run r1 R s (fun s' => run r2 R s' k)
  | Alt r1 r2 =>
      match run r1 R s k with
      | Some x => Some x
      | None => run r2 R s k
      end
  | Star p => greedy p (rest s) s k
  | StarLazy p => lazy p (rest s) s k
  | Bos => if bos s then k s else None
  | Eos => if at_eos (rest s) then k s else None
  | Group r1 => run r1 R (open_group s) (fun s' => k (close_group s'))
  | Ahead r1 =>
      match run r1 unit s (fun _ => Some tt) with
      | Some _ => k s
      | None => None
      end
  end.

(** [pattern.match] at one position *)
Definition match_at (r : regex) (b : bool) (s : str) : option pos :=
  run r pos (start_at b s) Some.

(** [re.search(r, s)]: the match at the leftmost position that has one. *)
Fixpoint search_from (r : regex) (b : bool) (s : str) : option pos :=
  match match_at r b s with
  | Some m => Some m
  | None =>
      match s with
      | [] => None
      | _ :: t => search_from r false t
      end
  end.

Definition search (r : regex) (s : str) : option pos := search_from r true s.

(** [match.group(1)]; the empty string stands for a group that did not
    take part in the match, which no pattern of the source allows. *)
Definition group (m : pos) : str := default [] (group1 m).

(** [re.sub(r, "", s)]: the matches are found left to right, without
    overlap, and dropped.  [skip] counts the characters of the current
    match still to be dropped.  An empty match drops nothing. *)
Fixpoint remove_from (r : regex) (skip : nat) (b : bool) (s : str) : str :=
  match s with
  | [] => []
  | c :: t =>
      match skip with
      | S n => remove_from r n false t
      | O =>
          match match_at r b s with
          | Some m =>
              match length s - length (rest m) with
              | S n => remove_from r n false t
              | O => c :: remove_from r 0 false t
              end
          | None => c :: remove_from r 0 false t
          end
      end
  end.

Definition remove (r : regex) (s : str) : str := remove_from r 0 true s.

(** [re.findall(r, s)] for a pattern without groups: the texts of the
    matches, found left to right without overlap. *)
Fixpoint findall_from (r : regex) (skip : nat) (b : bool) (s : str) : list str :=
  match s with
  | [] =>
      match skip, match_at r b [] with
      | O, Some _ => [[]]
      | _, _ => []
      end
  | c :: t =>
      match skip with
      | S n => findall_from r n false t
      | O =>
          match match_at r b s with
          | Some m =>
              let n := length s - length (rest m) in
              take n s :: findall_from r (n - 1) false t
          | None => findall_from r 0 false t
          end
      end
  end.

Definition findall (r : regex) (s : str) : list str := findall_from r 0 true s.

(** *** Writing patterns *)

Definition seq (l : list regex) : regex := foldr Cat Eps l.
Definition alt (l : list regex) : regex := foldr Alt Fail l.
Definition opt (r : regex) : regex := Alt r Eps.               (* r? *)
Definition plus (p : ascii -> bool) : regex := Cat (Class p) (Star p).  (* c+ *)

(** [.] under DOTALL *)
Definition any (c : ascii) : bool := true.
(** [\s] and [\w] *)
Definition space : ascii -> bool := Py.isspace.
Definition word : ascii -> bool := Py.isword.
(** a literal character, and the same under IGNORECASE *)
Definition chr (c : ascii) : regex := Class (Ascii.eqb c).
Definition chr_i (c : ascii) : regex :=
  Class (fun d => Ascii.eqb (Py.lower_char c) (Py.lower_char d)).
(** a literal string, and the same under IGNORECASE *)
Definition str_ (s : str) : regex := seq (map chr s).
Definition str_i (s : str) : regex := seq (map chr_i s).

End Re.

(** ** Python dictionaries

    A [dict] keeps its keys in insertion order, and the source iterates
    over [items()] and relies on [dict.fromkeys] to keep the first
    occurrence: a dictionary is the list of its items. *)

Module Dict.

Definition dict (V : Type) : Type := list (str * V).

(** [d.get(k)] *)
Fixpoint get {V} (k : str) (d : dict V) : option V :=
  match d with
  | [] => None
  | (k', v) :: r => if Py.eqb k k' then Some v else get k r
  end.

(** [d.get(k, dflt)] *)
Definition get_or {V} (k : str) (dflt : V) (d : dict V) : V :=
  default dflt (get k d).

(** [k in d] *)
Definition has {V} (k : str) (d : dict V) : bool :=
  match get k d with Some _ => true | None => false end.

(** [d[k] = v]: a key already there keeps its place. *)
Fixpoint set {V} (k : str) (v : V) (d : dict V) : dict V :=
  match d with
  | [] => [(k, v)]
  | (k', v') :: r => if Py.eqb k k' then (k', v) :: r else (k', v') :: set k v r
  end.

(** [list(d)], [d.items()] *)
Definition keys {V} (d : dict V) : list str := map fst d.
Definition items {V} (d : dict V) : list (str * V) := d.

(** [dict.fromkeys(l)] *)
Definition fromkeys (l : list str) : dict unit :=
  foldl (fun acc k => set k tt acc) [] l.

(** [d[k]]: a missing key raises [KeyError]. *)
Definition getitem {V} (k : str) (d : dict V) : Py.result V :=
  match get k d with
  | Some v => Py.Ok v
  | None => Py.Raise Py.KeyError
  end.

(** [d.update(new)]: the items of [new] are set one after the other. *)
Definition update {V} (d new : dict V) : dict V :=
  foldl (fun acc item => set (fst item) (snd item) acc) d new.

End Dict.

(** ** The [random] module

    The generator is a sequence of raw draws and the number of draws
    made so far; every function hands the generator on. *)

Module Random.

Record rng : Type := Rng { source : nat -> nat; drawn : nat }.

(** [randbelow(n)], for [0 < n] *)
Definition randbelow (n : nat) (g : rng) : nat * rng :=
  (source g (drawn g) `mod` n, {| source := source g; drawn := S (drawn g) |}).

(** [random.choice(l)], called on non-empty lists only: the index is
    then in range. *)
Definition choice {A} (l : list A) (g : rng) : option A * rng :=
  let (i, g') := randbelow (length l) g in (l !! i, g').

(** The loop of [random.sample] over a copy [pool] of the population,
    with [k] picks still to make among the first [n] cells:
    [j = randbelow(n - i); result[i] = pool[j]; pool[j] = pool[n-i-1]]. *)
Fixpoint sample_loop {A} (k n : nat) (pool : list A) (g : rng) : list A * rng :=
  match k with
  | O => ([], g)
  | S k' =>
      let (j, g1) := randbelow n g in
      match pool !! j, pool !! (n - 1) with
      | Some x, Some y =>
          let (r, g2) := sample_loop k' (n - 1) (<[j := y]> pool) g1 in
          (x :: r, g2)
      | _, _ => ([], g1)
      end
  end.

(** [random.sample(population, k)], for [k <= len(population)] *)
Definition sample {A} (population : list A) (k : nat) (g : rng) : list A * rng :=
  sample_loop k (length population) population g.

End Random.

(** ** src/core/input_validator.py *)

Module InputValidator.
Import Py Re.

(** The dictionaries the validator returns hold values of these kinds. *)
Inductive value : Type :=
| VBool (b : bool)
| VStr (s : str)
| VInt (n : nat)
| VEntities (e : Dict.dict (list str)).

(** [__init__] *)
Record validator : Type := Validator { min_length : nat; max_length : nat }.
Definition init : validator := {| min_length := 5; max_length := 2000 |}.

(** [r"<[^>]+>"] *)
Definition tag_pattern : regex :=
  seq [chr "<"; plus (fun c => negb (Ascii.eqb c ">")); chr ">"].

(** [r"javascript:"], [r"on\w+\s*="], [r"data:text/html"], all used
    with [re.IGNORECASE] *)
Definition dangerous_patterns : list regex :=
  [ str_i (lit "javascript:");
    seq [str_i (lit "on"); plus word; Star space; chr_i "="];
    str_i (lit "data:text/html") ].

(** [_sanitize] *)
Definition _sanitize (text : str) : str :=
  let sanitized := join (lit " ") (split text) in
  let sanitized := Re.remove tag_pattern sanitized in
  let sanitized := foldl (fun acc pattern => Re.remove pattern acc)
                         sanitized dangerous_patterns in
  strip sanitized.

(** [_validate_length] *)
Definition _validate_length (self : validator) (text : str) : bool :=
  (min_length self <=? length text) && (length text <=? max_length self).

(** [re.findall(keyword, text_lower)] for every keyword of a list,
    the matches collected by [extend] *)
Definition find_keywords (keywords : list regex) (text_lower : str) : list str :=
  flat_map (fun keyword => Re.findall keyword text_lower) keywords.

(** [list(set(l))]: the elements of [l] without repetition.  Python
    leaves their order open; the model lists first occurrences. *)
Definition list_set (l : list str) : list str := Dict.keys (Dict.fromkeys l).

(** A keyword [r"a|b|c"] *)
Definition kw (alternatives : list string) : regex :=
  alt (map (fun w => str_ (lit w)) alternatives).

Definition product_keywords : list regex :=
  [ kw ["skincare"]; kw ["makeup"]; kw ["clothing"; "pakaian"; "baju"];
    kw ["food"; "makanan"]; kw ["drink"; "minuman"]; kw ["gadget"];
    kw ["phone"; "handphone"; "hp"]; kw ["shoes"; "sepatu"];
    kw ["bag"; "tas"]; kw ["book"; "buku"] ]%string.

Definition topic_keywords : list regex :=
  [ kw ["review"]; kw ["tutorial"]; kw ["tips"]; kw ["vlog"];
    kw ["challenge"]; kw ["reaction"]; kw ["unboxing"];
    kw ["testimoni"; "testimoni"; "review"];
    kw ["promosi"; "promosi"; "promo"] ]%string.

Definition emotion_keywords : list regex :=
  [ kw ["excited"; "exciting"; "seru"];
    kw ["happy"; "joyful"; "bahagia"; "senang"];
    kw ["sad"; "sadness"; "sedih"];
    kw ["angry"; "furious"; "marah"];
    kw ["funny"; "humorous"; "lucu"];
    kw ["inspiring"; "motivational"; "inspiratif"; "motivasi"];
    kw ["calm"; "peaceful"; "tenang"];
    kw ["energetic"; "energetic"] ]%string.

Definition audience_keywords : list regex :=
  [ kw ["teen"; "teens"; "remaja"];
    kw ["kids"; "children"; "anak-anak"];
    kw ["adult"; "adults"; "dewasa"];
    kw ["student"; "students"; "mahasiswa"; "pelajar"];
    kw ["mom"; "mother"; "moms"; "ibu"];
    kw ["professionals"; "profesional"];
    kw ["gamer"; "gamers"] ]%string.

(** [_extract_products], [_extract_topics], [_extract_emotions],
    [_extract_target_audience] *)
Definition _extract_products (text : str) : list str :=
  list_set (find_keywords product_keywords (lower text)).
Definition _extract_topics (text : str) : list str :=
  list_set (find_keywords topic_keywords (lower text)).
Definition _extract_emotions (text : str) : list str :=
  list_set (find_keywords emotion_keywords (lower text)).
Definition _extract_target_audience (text : str) : list str :=
  list_set (find_keywords audience_keywords (lower text)).

(** [_extract_entities] *)
Definition _extract_entities (text : str) : Dict.dict (list str) :=
  [ (lit "products", _extract_products text);
    (lit "topics", _extract_topics text);
    (lit "emotions", _extract_emotions text);
    (lit "target_audience", _extract_target_audience text) ].

Section Detector.
(** [langdetect.detect], an external library: [None] stands for its
    [LangDetectException]. *)
Variable detect : str -> option str.

(** [_detect_language] *)
Definition _detect_language (text : str) : str :=
  match detect text with
  | Some lang => lang
  | None => lit "en"
  end.

(** [validate] *)
Definition validate (self : validator) (text : str) : Dict.dict value :=
  let sanitized := _sanitize text in
  if negb (_validate_length self sanitized) then
    [ (lit "valid", VBool false);
      (lit "error",
       VStr (lit "Input must be between " ++ str_of_nat (min_length self)
             ++ lit " and " ++ str_of_nat (max_length self)
             ++ lit " characters"));
      (lit "sanitized", VStr sanitized) ]
  else
    let language := _detect_language sanitized in
    let entities := _extract_entities sanitized in
    [ (lit "valid", VBool true);
      (lit "sanitized", VStr sanitized);
      (lit "language", VStr language);
      (lit "entities", VEntities entities);
      (lit "length", VInt (length sanitized)) ].
End Detector.

End InputValidator.

(** ** src/core/trending_injector.py *)

Module TrendingInjector.
Import Py.

(** *** The catalog

    The document of section 6 of the specification, typed: every
    top-level key may be missing (the source reads each of them with
    [self.data.get(key, default)]). *)

Record format_entry : Type := Format {
  name : str;
  platforms : list str;
  keywords : list str
}.

Record style_entry : Type := Style {
  style_name : str;
  style_keywords : option (list str);
  style : str;
  camera : str
}.

Definition sound_entry : Type := Dict.dict str.

Record catalog : Type := Catalog {
  formats : option (list format_entry);
  visual_styles : option (list style_entry);
  hooks : option (list str);
  hashtags : option (Dict.dict (list str));
  cta : option (list str);
  sounds : option (list sound_entry)
}.

(** [_get_fallback_data]; the two calls to action end in a pictograph
    in the source, left out here. *)
Definition _get_fallback_data : catalog :=
  {| formats := Some
       [ Format (lit "POV") [lit "tiktok"; lit "instagram"; lit "youtube"] [lit "pov"];
         Format (lit "Tutorial") [lit "tiktok"; lit "instagram"; lit "youtube"]
                [lit "tutorial"] ];
     visual_styles := Some
       [ Style (lit "Clean") (Some [lit "clean"]) (lit "minimalist") (lit "close-up");
         Style (lit "Cinematic") (Some [lit "cinematic"]) (lit "dramatic")
               (lit "wide shots") ];
     hooks := Some [lit "Ini rahasianya!"; lit "Coba deh ini!"];
     hashtags := Some [(lit "general", [lit "#viral"; lit "#fyp"; lit "#trending"])];
     cta := Some [lit "Follow untuk lebih lanjut"; lit "Save biar nggak lupa!"];
     sounds := None |}.

(** *** Storage

    The file at [data_path]: [content] is the document it holds
    ([None]: no file, or one that is not JSON), [writable] tells whether
    opening it for writing succeeds, and [dumps] whether [json.dump]
    into the file once opened succeeds (it does not when the disk is
    full, for instance).  Opening the file for writing empties it: after
    a dump that fails, the file holds a part of the document at most,
    which is not JSON. *)
Record storage : Type := Storage {
  content : option catalog;
  writable : bool;
  dumps : bool
}.

(** The injector: [self.data] *)
Record injector : Type := Injector { data : catalog }.

(** [_load_data] *)
Definition _load_data (file : storage) : catalog :=
  match content file with
  | Some d => d
  | None => _get_fallback_data
  end.

(** [__init__] *)
Definition init (file : storage) : injector := {| data := _load_data file |}.

(** The entities: [Dict[str, List[str]]] *)
Definition entities : Type := Dict.dict (list str).

(** [any(keyword in format_item["keywords"] for keyword in format_item["keywords"])] *)
Definition format_matches (format_item : format_entry) : bool :=
  existsb (fun keyword => mem keyword (keywords format_item)) (keywords format_item).

(** The two nested loops of [_get_matching_format]: the first format
    at which the test holds for some topic. *)
Fixpoint first_matching_format (formats : list format_entry) (topics : list str)
    : option format_entry :=
  match formats with
  | [] => None
  | format_item :: r =>
      if existsb (fun topic => format_matches format_item) topics
      then Some format_item
      else first_matching_format r topics
  end.

(** [_get_matching_format] *)
Definition _get_matching_format (self : injector) (entities : entities)
    (g : Random.rng) : option format_entry * Random.rng :=
  let formats := default [] (formats (data self)) in
  let topics := Dict.get_or (lit "topics") [] entities in
  match first_matching_format formats topics with
  | Some format_item => (Some format_item, g)
  | None =>
      match formats with
      | [] => (None, g)
      | _ => Random.choice formats g
      end
  end.

(** [_get_visual_style] *)
Definition _get_visual_style (self : injector) (entities : entities)
    (g : Random.rng) : option style_entry * Random.rng :=
  let styles := default [] (visual_styles (data self)) in
  let all_keywords :=
    Dict.get_or (lit "products") [] entities ++ Dict.get_or (lit "topics") [] entities in
  match
    find (fun style =>
            existsb (fun keyword => contains keyword (join (lit " ") all_keywords))
                    (default [] (style_keywords style)))
         styles
  with
  | Some style => (Some style, g)
  | None =>
      match styles with
      | [] => (None, g)
      | _ => Random.choice styles g
      end
  end.

(** [_get_hooks] *)
Definition _get_hooks (self : injector) (entities : entities) (g : Random.rng)
    : list str * Random.rng :=
  let all_hooks := default [] (hooks (data self)) in
  Random.sample all_hooks (min 3 (length all_hooks)) g.

(** [_get_ctas] *)
Definition _get_ctas (self : injector) (g : Random.rng) : list str * Random.rng :=
  let all_ctas := default [] (cta (data self)) in
  Random.sample all_ctas (min 2 (length all_ctas)) g.

(** The loop of [_get_hashtags] over [hashtags_data.items()] *)
Definition category_hashtags (entities : entities) (hashtags_data : Dict.dict (list str))
    : list str :=
  flat_map
    (fun '(category, category_hashtags) =>
       if negb (Py.eqb category (lit "general")) then
         let all_entities :=
           join (lit " ")
                (Dict.get_or (replace (lit "s") [] (replace (lit "_") [] category))
                             [] entities) in
         if contains category (lower all_entities) then category_hashtags else []
       else [])
    (Dict.items hashtags_data).

(** [_get_hashtags] *)
Definition _get_hashtags (self : injector) (entities : entities) : list str :=
  let hashtags_data := default [] (hashtags (data self)) in
  let hashtags := category_hashtags entities hashtags_data in
  let hashtags := hashtags ++ Dict.get_or (lit "general") [] hashtags_data in
  take 15 (Dict.keys (Dict.fromkeys hashtags)).

(** [_get_sound_suggestions] *)
Definition _get_sound_suggestions (self : injector) : list sound_entry :=
  let sounds := default [] (sounds (data self)) in
  match sounds with
  | [] => []
  | _ => take 3 sounds
  end.

(** The dictionary [inject] returns *)
Record bundle : Type := Bundle {
  b_format : option format_entry;
  b_visual_style : option style_entry;
  b_hooks : list str;
  b_ctas : list str;
  b_hashtags : list str;
  b_sound_suggestions : list sound_entry
}.

(** [inject] *)
Definition inject (self : injector) (entities : entities) (language : str)
    (g : Random.rng) : bundle * Random.rng :=
  let (format, g1) := _get_matching_format self entities g in
  let (visual_style, g2) := _get_visual_style self entities g1 in
  let (hooks, g3) := _get_hooks self entities g2 in
  let (ctas, g4) := _get_ctas self g3 in
  ({| b_format := format;
      b_visual_style := visual_style;
      b_hooks := hooks;
      b_ctas := ctas;
      b_hashtags := _get_hashtags self entities;
      b_sound_suggestions := _get_sound_suggestions self |}, g4).

(** [self.data.update(new_data)]: every key of [new_data] takes the
    place of the catalog's. *)
Definition update_key {A} (old new : option A) : option A :=
  match new with
  | Some v => Some v
  | None => old
  end.

Definition dict_update (d new_data : catalog) : catalog :=
  {| formats := update_key (formats d) (formats new_data);
     visual_styles := update_key (visual_styles d) (visual_styles new_data);
     hooks := update_key (hooks d) (hooks new_data);
     hashtags := update_key (hashtags d) (hashtags new_data);
     cta := update_key (cta d) (cta new_data);
     sounds := update_key (sounds d) (sounds new_data) |}.

(** [update_data]: the injector and the file afterwards, and the
    boolean returned.  [self.data] is updated first; an exception of
    [open] or of [json.dump] is caught after that, and [False] is
    returned: when [open] fails the file is as it was, when [json.dump]
    fails the file has been emptied by [open] and holds no document. *)
Definition update_data (self : injector) (file : storage) (new_data : catalog)
    : injector * storage * bool :=
  let self' := {| data := dict_update (data self) new_data |} in
  if writable file then
    if dumps file then
      (self', {| content := Some (data self'); writable := writable file;
                 dumps := dumps file |}, true)
    else
      (self', {| content := None; writable := writable file;
                 dumps := dumps file |}, false)
  else (self', file, false).

End TrendingInjector.

(** ** src/core/prompt_engine.py *)

Module PromptEngine.
Import Py Re.

Notation "x <- m ;; f" := (bind m (fun x => f))
  (at level 100, m at next level, right associativity).

Definition NA : str := lit "N/A".

(** The loop of [_extract_master_prompt]; it returns [prompt_lines]. *)
Fixpoint master_prompt_lines (in_section : bool) (lines : list str) : list str :=
  match lines with
  | [] => []
  | line :: r =>
      if contains (lit "MASTER PROMPT") line then master_prompt_lines true r
      else if in_section then
        if startswith (lit "#") (strip line) || contains (lit "---") line then []
        else if truthy (strip line) then
          let clean_line := strip_char DQUOTE (strip line) in
          clean_line :: master_prompt_lines true r
        else master_prompt_lines true r
      else master_prompt_lines false r
  end.

(** [_extract_master_prompt] *)
Definition _extract_master_prompt (raw_response : str) : result str :=
  if contains (lit "MASTER PROMPT") raw_response then
    let lines := split_on LF raw_response in
    Ok (join (lit " ") (master_prompt_lines false lines))
  else if truthy raw_response then index (split_on LF raw_response) 0
  else Ok NA.

Definition default_specs : Dict.dict str :=
  [ (lit "Style", NA); (lit "Camera", NA); (lit "Lighting", NA);
    (lit "Aspect Ratio", lit "9:16"); (lit "Mood", NA) ].

(** The table row of [_extract_visual_specs]:
    [parts = [p.strip() for p in line.split("|") if p.strip()]] *)
Definition table_row (specs : Dict.dict str) (line : str) : result (Dict.dict str) :=
  let parts :=
    map strip (List.filter (fun p => truthy (strip p)) (split_on "|" line)) in
  if 2 <=? length parts then
    key <- index parts 0 ;;
    value <- index parts 1 ;;
    Ok (if Dict.has key specs then Dict.set key value specs else specs)
  else Ok specs.

(** The loop of [_extract_visual_specs] *)
Fixpoint visual_loop (in_section : bool) (specs : Dict.dict str) (lines : list str)
    : result (Dict.dict str) :=
  match lines with
  | [] => Ok specs
  | line :: r =>
      if contains (lit "VISUAL") line || contains (lit "Visual") line
      then visual_loop true specs r
      else if in_section && contains (lit "---") line
      then visual_loop in_section specs r
      else
        specs' <- (if in_section && contains (lit "|") line
                      && negb (contains (lit "---") line)
                   then table_row specs line
                   else Ok specs) ;;
        if in_section && contains (lit "#") line && negb (contains (lit "VISUAL") line)
        then Ok specs'
        else visual_loop in_section specs' r
  end.

(** [_extract_visual_specs] *)
Definition _extract_visual_specs (raw_response : str) : result (Dict.dict str) :=
  let specs := default_specs in
  if contains (lit "VISUAL SPECIFICATIONS") raw_response
     || contains (lit "Visual Specifications") raw_response
  then visual_loop false specs (split_on LF raw_response)
  else Ok specs.

(** [(?:##|\*\*|###)?] *)
Definition heading_mark : regex :=
  opt (alt [str_i (lit "##"); str_i (lit "**"); str_i (lit "###")]).

(** The three patterns of [_extract_script], compiled with
    [re.DOTALL | re.IGNORECASE]:
    [(?:^|\n)(?:##|\*\*|###)?\s*(?:NAMES).*?(?:\n|$)(.*?)(?=\n(?:##|\*\*|###)?\s*(?:STOPS)|$)] *)
Definition section_pattern (names stops : list string) : regex :=
  seq [ alt [Bos; chr LF]; heading_mark; Star space;
        alt (map (fun w => str_i (lit w)) names);
        StarLazy any; alt [chr LF; Eos];
        Group (StarLazy any);
        Ahead (alt [ seq [ chr LF; heading_mark; Star space;
                           alt (map (fun w => str_i (lit w)) stops) ];
                     Eos ]) ].

Definition patterns : Dict.dict regex :=
  [ (lit "hook", section_pattern ["Hook"; "HOOK"] ["Body"; "BODY"; "CTA"; "Cta"]);
    (lit "body", section_pattern ["Body"; "BODY"] ["CTA"; "Cta"; "Hook"; "HOOK"]);
    (lit "cta", section_pattern ["CTA"; "Cta"; "Call to Action"] ["#"; "---"])
  ]%string.

(** The body of the loop of [_extract_script] over [patterns.items()] *)
Definition extract_section (text : str) (script : Dict.dict str)
    (item : str * regex) : Dict.dict str :=
  let (section, pattern) := item in
  match Re.search pattern text with
  | Some m =>
      let content := strip (Re.group m) in
      let content := strip_char "*" (strip_char "'" (strip_char DQUOTE content)) in
      if truthy content then Dict.set section content script else script
  | None => script
  end.

(** [_extract_script] *)
Definition _extract_script (raw_response : str) : Dict.dict str :=
  let script := [(lit "hook", NA); (lit "body", NA); (lit "cta", NA)] in
  if negb (contains (lit "SCRIPT") (upper raw_response)) then script
  else
    let text := replace (lit "\r\n") (lit "\n") raw_response in
    foldl (extract_section text) script (Dict.items patterns).

(** The first loop of [_extract_hashtags]; it returns [hashtag_lines]. *)
Fixpoint hashtag_lines (in_section : bool) (lines : list str) : list str :=
  match lines with
  | [] => []
  | line :: r =>
      if contains (lit "HASHTAGS") line || contains (lit "Hashtags") line
      then hashtag_lines true r
      else if in_section then
        if startswith (lit "#") (strip line)
           && negb (startswith (lit "# ") (strip line))
           && negb (contains (lit "#") (drop 1 (strip line)))
        then []
        else if contains (lit "---") line then []
        else if truthy (strip line) then strip line :: hashtag_lines true r
        else hashtag_lines true r
      else hashtag_lines false r
  end.

(** The second loop:
    [[w.replace("#", "") for w in words if w.startswith("#")]] per line *)
Definition parse_hashtags (lines : list str) : list str :=
  flat_map
    (fun line =>
       map (replace (lit "#") [])
           (List.filter (fun w => startswith (lit "#") w) (split line)))
    lines.

(** [_extract_hashtags] *)
Definition _extract_hashtags (raw_response : str)
    (trending_elements : TrendingInjector.bundle) : list str :=
  let fallback := take 15 (TrendingInjector.b_hashtags trending_elements) in
  if contains (lit "HASHTAGS") raw_response || contains (lit "Hashtags") raw_response
  then
    match hashtag_lines false (split_on LF raw_response) with
    | [] => fallback
    | lines =>
        match parse_hashtags lines with
        | [] => fallback
        | hashtags => hashtags
        end
    end
  else fallback.

(** The dictionary [_structure_result] returns *)
Record structured : Type := Structured {
  master_prompt : str;
  visual_specifications : Dict.dict str;
  script : Dict.dict str;
  hashtags : list str;
  language : str;
  raw_response : str
}.

(** [_structure_result] *)
Definition _structure_result {P : Type} (ai_result : Dict.dict str)
    (trending_elements : TrendingInjector.bundle) (platform_specifics : P)
    (language : str) : result structured :=
  let raw_response := Dict.get_or (lit "raw_response") [] ai_result in
  master_prompt <- _extract_master_prompt raw_response ;;
  visual_specs <- _extract_visual_specs raw_response ;;
  let script := _extract_script raw_response in
  let hashtags := _extract_hashtags raw_response trending_elements in
  Ok {| master_prompt := master_prompt;
        visual_specifications := visual_specs;
        script := script;
        hashtags := hashtags;
        language := language;
        raw_response := raw_response |}.

End PromptEngine.

(** ** src/core/platform_optimizer.py *)

Module PlatformOptimizer.
Import Py.

Notation "x <- m ;; f" := (bind m (fun x => f))
  (at level 100, m at next level, right associativity).

(** [PLATFORM_SPECS] *)
Definition PLATFORM_SPECS : Dict.dict (Dict.dict str) :=
  [ (lit "tiktok",
     [ (lit "aspect_ratio", lit "9:16");
       (lit "max_duration", lit "60s");
       (lit "resolution", lit "1080x1920");
       (lit "characteristics",
        lit "fast-paced, energetic, trending sounds, hook in first 3 seconds");
       (lit "optimal_length", lit "15-30s") ]);
    (lit "instagram",
     [ (lit "aspect_ratio", lit "9:16");
       (lit "max_duration", lit "90s");
       (lit "resolution", lit "1080x1920");
       (lit "characteristics",
        lit "high production quality, aesthetic, saveable content, carousel ready");
       (lit "optimal_length", lit "15-60s") ]);
    (lit "youtube",
     [ (lit "aspect_ratio", lit "9:16");
       (lit "max_duration", lit "60s");
       (lit "resolution", lit "1080x1920");
       (lit "characteristics",
        lit "engaging, teaser for longer content, subscribe CTA");
       (lit "optimal_length", lit "30-60s") ]) ].

(** The optimizer: [self.platforms] *)
Record optimizer : Type := Optimizer { platforms : list str }.

(** [__init__]: [platforms or list(self.PLATFORM_SPECS.keys())]; an
    empty list is false, as [None] is. *)
Definition init (platforms : option (list str)) : optimizer :=
  match platforms with
  | Some (p :: r) => {| platforms := p :: r |}
  | _ => {| platforms := Dict.keys PLATFORM_SPECS |}
  end.

(** [optimize_for_platform]; [content] is not read. *)
Definition optimize_for_platform {C : Type} (self : optimizer) (platform : str)
    (content : C) : result (Dict.dict str) :=
  let platform :=
    if negb (Dict.has platform PLATFORM_SPECS) then lit "tiktok" else platform in
  specs <- Dict.getitem platform PLATFORM_SPECS ;;
  aspect_ratio <- Dict.getitem (lit "aspect_ratio") specs ;;
  max_duration <- Dict.getitem (lit "max_duration") specs ;;
  resolution <- Dict.getitem (lit "resolution") specs ;;
  characteristics <- Dict.getitem (lit "characteristics") specs ;;
  optimal_length <- Dict.getitem (lit "optimal_length") specs ;;
  let optimized :=
    [ (lit "platform", platform);
      (lit "aspect_ratio", aspect_ratio);
      (lit "max_duration", max_duration);
      (lit "resolution", resolution);
      (lit "characteristics", characteristics);
      (lit "optimal_length", optimal_length) ] in
  Ok (if Py.eqb platform (lit "tiktok") then
        Dict.update optimized
          [ (lit "caption_style", lit "catchy, short, include trending hashtags");
            (lit "music_suggestion", lit "Use trending sounds from TikTok library");
            (lit "editing_tips", lit "Quick cuts, text overlays, green screen effects");
            (lit "posting_time", lit "Peak hours: 7-9 AM, 12-3 PM, 7-11 PM") ]
      else if Py.eqb platform (lit "instagram") then
        Dict.update optimized
          [ (lit "caption_style", lit "engaging, include questions for engagement");
            (lit "music_suggestion", lit "Use trending Instagram Reels audio");
            (lit "editing_tips", lit "High quality, smooth transitions, aesthetic");
            (lit "posting_time", lit "Peak hours: 11 AM, 7 PM, 9 PM") ]
      else if Py.eqb platform (lit "youtube") then
        Dict.update optimized
          [ (lit "caption_style", lit "informative, include subscribe reminder");
            (lit "music_suggestion", lit "Use royalty-free or trending Shorts audio");
            (lit "editing_tips", lit "Engaging hook, subscribe CTA at end");
            (lit "posting_time", lit "Peak hours: 2-4 PM, 7-10 PM") ]
      else optimized).

(** The loop of [optimize_for_all_platforms] over [self.platforms] *)
Fixpoint all_platforms_loop {C : Type} (self : optimizer) (content : C)
    (all_optimized : Dict.dict (Dict.dict str)) (platforms : list str)
    : result (Dict.dict (Dict.dict str)) :=
  match platforms with
  | [] => Ok all_optimized
  | platform :: r =>
      optimized <- optimize_for_platform self platform content ;;
      all_platforms_loop self content (Dict.set platform optimized all_optimized) r
  end.

(** [optimize_for_all_platforms] *)
Definition optimize_for_all_platforms {C : Type} (self : optimizer) (content : C)
    : result (Dict.dict (Dict.dict str)) :=
  all_platforms_loop self content [] (platforms self).

Definition content_preferences : Dict.dict (list str) :=
  [ (lit "tutorial", [lit "instagram"; lit "youtube"]);
    (lit "review", [lit "youtube"; lit "tiktok"]);
    (lit "challenge", [lit "tiktok"]);
    (lit "vlog", [lit "youtube"; lit "instagram"]);
    (lit "transformation", [lit "tiktok"; lit "instagram"]);
    (lit "asmr", [lit "tiktok"; lit "instagram"]) ].

(** [get_best_platform_for_content]; [entities] is not read. *)
Definition get_best_platform_for_content {E : Type} (self : optimizer)
    (content_type : str) (entities : E) : result str :=
  let preferred :=
    Dict.get_or (lower content_type) (platforms self) content_preferences in
  let available := List.filter (fun p => mem p (platforms self)) preferred in
  match available with
  | [] => Ok (lit "tiktok")
  | _ => index available 0
  end.

Definition schedules : Dict.dict (list str) :=
  [ (lit "tiktok", [lit "7:00 AM - 9:00 AM"; lit "12:00 PM - 3:00 PM";
                    lit "7:00 PM - 11:00 PM"]);
    (lit "instagram", [lit "11:00 AM"; lit "7:00 PM"; lit "9:00 PM"]);
    (lit "youtube", [lit "2:00 PM - 4:00 PM"; lit "7:00 PM - 10:00 PM"]) ].

(** [get_posting_schedule]: [schedules.get(platform, schedules["tiktok"])] *)
Definition get_posting_schedule (self : optimizer) (platform : str)
    : result (list str) :=
  tiktok <- Dict.getitem (lit "tiktok") schedules ;;
  Ok (Dict.get_or platform tiktok schedules).

End PlatformOptimizer.

(** ** src/core/groq_client.py

    The two formatters that turn the trending bundle and the platform
    settings into the text of the user prompt. *)

Module GroqClient.
Import Py.

Notation "x <- m ;; f" := (bind m (fun x => f))
  (at level 100, m at next level, right associativity).

(** [_format_trending_elements]: a format or a style that is [None],
    and an empty list, are false. *)
Definition _format_trending_elements (trending_elements : TrendingInjector.bundle)
    : str :=
  let parts := [] in
  let parts :=
    match TrendingInjector.b_format trending_elements with
    | Some format => parts ++ [lit "- Format: " ++ TrendingInjector.name format]
    | None => parts
    end in
  let parts :=
    match TrendingInjector.b_visual_style trending_elements with
    | Some style =>
        parts ++ [lit "- Visual Style: " ++ TrendingInjector.style_name style
                  ++ lit " (" ++ TrendingInjector.style style ++ lit ")"]
    | None => parts
    end in
  let parts :=
    match TrendingInjector.b_hooks trending_elements with
    | [] => parts
    | hooks => parts ++ [lit "- Example Hooks: " ++ join (lit ", ") (take 3 hooks)]
    end in
  let parts :=
    match TrendingInjector.b_hashtags trending_elements with
    | [] => parts
    | hashtags => parts ++ [lit "- Hashtags: " ++ join (lit ", ") (take 10 hashtags)]
    end in
  join (lit "\n") parts.

(** The loop of [_format_platform_specifics] over
    [platform_specifics.items()]; it returns [parts]. *)
Fixpoint platform_parts (items : list (str * Dict.dict str)) : result (list str) :=
  match items with
  | [] => Ok []
  | (platform, specs) :: r =>
      aspect_ratio <- Dict.getitem (lit "aspect_ratio") specs ;;
      characteristics <- Dict.getitem (lit "characteristics") specs ;;
      optimal_length <- Dict.getitem (lit "optimal_length") specs ;;
      parts <- platform_parts r ;;
      Ok ([ lit "\n## " ++ capitalize platform ++ lit ":";
            lit "- Aspect Ratio: " ++ aspect_ratio;
            lit "- Characteristics: " ++ characteristics;
            lit "- Optimal Length: " ++ optimal_length ] ++ parts)
  end.

(** [_format_platform_specifics] *)
Definition _format_platform_specifics (platform_specifics : Dict.dict (Dict.dict str))
    : result str :=
  parts <- platform_parts (Dict.items platform_specifics) ;;
  Ok (join (lit "\n") parts).

End GroqClient.

(** ** The list of platforms: config/settings.py, src/cli/main.py *)

Module Settings.
Import Py.

(** [default_platforms] *)
Definition default_platforms : str := lit "tiktok,instagram,youtube".

(** [platforms_list]:
    [[p.strip() for p in self.default_platforms.split(",")]] *)
Definition platforms_list (default_platforms : str) : list str :=
  map strip (split_on "," default_platforms).

End Settings.

Module Cli.
Import Py.

(** The option [--platforms] of [generate]: [None] when it is not given
    or empty, else [[p.strip() for p in platforms.split(",")]]. *)
Definition platform_list (platforms : option str) : option (list str) :=
  match platforms with
  | Some (c :: s) => Some (map strip (split_on "," (c :: s)))
  | _ => None
  end.

End Cli.

(** * The vocabulary of the statements

    Names for the inputs, the markers and the conditions that the
    statements below speak of, and the selections as the specification
    words them, to set beside what the code computes. *)

Import Py Re PromptEngine.

(** ** Input validation *)

(** The message of [validate] for the bounds of [__init__]. *)
Definition length_error : str := lit "Input must be between 5 and 2000 characters".

(** ** The master prompt *)

Definition MARKER : str := lit "MASTER PROMPT".

(** A line that ends the section of the master prompt: a heading, or a
    line with a horizontal rule. *)
Definition ends_master_prompt (line : str) : Prop :=
  startswith (lit "#") (strip line) = true \/ contains (lit "---") line = true.

(** ** Hashtags of the generated text *)

(** The two spellings of the marker that [_extract_hashtags] looks for. *)
Definition has_hashtags_marker (line : str) : bool :=
  contains (lit "HASHTAGS") line || contains (lit "Hashtags") line.

(** The test that ends the collection before the rule test: the line
    starts with [#], not with [# ], and has no other [#]. *)
Definition lone_hash_word (line : str) : bool :=
  startswith (lit "#") (strip line)
  && negb (startswith (lit "# ") (strip line))
  && negb (contains (lit "#") (drop 1 (strip line))).

(** A line of one [#] only, at its start once stripped: the headings
    [# Title] and the lines of a single tag, [#tag].  The comment of the
    test says that a heading ends the collection; the test as written
    ends it at the lines of a single tag. *)
Definition single_hash_line (line : str) : bool :=
  startswith (lit "#") (strip line)
  && negb (contains (lit "#") (drop 1 (strip line))).

(** The tags of a collected line: its words that start with [#], every
    [#] taken out. *)
Definition tags_of_line (line : str) : list str :=
  map (List.filter (fun c => negb (Ascii.eqb "#" c)))
      (List.filter (fun w => match w with c :: _ => Ascii.eqb "#" c | [] => false end)
                   (split line)).

(** ** Trending elements *)

(** The injector when the catalog file is missing: the built-in
    catalog. *)
Definition fallback_injector : TrendingInjector.injector :=
  TrendingInjector.init {| TrendingInjector.content := None;
                           TrendingInjector.writable := true;
                           TrendingInjector.dumps := true |}.

(** The four keys of an entity set, and an entity set. *)
Definition entity_keys : list str :=
  [lit "products"; lit "topics"; lit "emotions"; lit "target_audience"].

Definition entity_set (products topics emotions target_audience : list str)
    : TrendingInjector.entities :=
  [ (lit "products", products); (lit "topics", topics);
    (lit "emotions", emotions); (lit "target_audience", target_audience) ].

(** The format as the specification words it: the first format whose
    keywords meet the topics. *)
Definition first_format_meeting_topics (formats : list TrendingInjector.format_entry)
    (topics : list str) : option TrendingInjector.format_entry :=
  find (fun f => existsb (fun keyword => mem keyword topics) (TrendingInjector.keywords f))
       formats.

(** The hashtags as the specification words them: those of every
    category other than [general] whose name is one of the entity
    values, whatever the case, then those of [general], without
    repetition, 15 at most. *)
Definition hashtags_by_entity_values (entities : TrendingInjector.entities)
    (hashtags_data : Dict.dict (list str)) : list str :=
  let values := flat_map snd entities in
  let by_category :=
    flat_map
      (fun '(category, category_hashtags) =>
         if negb (Py.eqb category (lit "general"))
            && existsb (fun v => Py.eqb (lower v) (lower category)) values
         then category_hashtags else [])
      hashtags_data in
  take 15 (Dict.keys (Dict.fromkeys
                        (by_category ++ Dict.get_or (lit "general") [] hashtags_data))).

(** A catalog with a category of hashtags named after a product. *)
Definition skincare_catalog : TrendingInjector.injector :=
  {| TrendingInjector.data :=
       {| TrendingInjector.formats := None;
          TrendingInjector.visual_styles := None;
          TrendingInjector.hooks := None;
          TrendingInjector.hashtags :=
            Some [ (lit "skincare", [lit "#glowing"; lit "#skincareroutine"]);
                   (lit "general", [lit "#fyp"; lit "#viral"]) ];
          TrendingInjector.cta := None;
          TrendingInjector.sounds := None |} |}.

(** A catalog that lists a hook and a call to action twice. *)
Definition repeated_hooks : TrendingInjector.injector :=
  {| TrendingInjector.data :=
       {| TrendingInjector.formats := None;
          TrendingInjector.visual_styles := None;
          TrendingInjector.hooks := Some [lit "Coba deh ini!"; lit "Coba deh ini!"];
          TrendingInjector.hashtags := None;
          TrendingInjector.cta := Some [lit "Follow"; lit "Follow"; lit "Save"];
          TrendingInjector.sounds := None |} |}.

(** New data with one key, [hashtags], and one category in it. *)
Definition food_hashtags : TrendingInjector.catalog :=
  {| TrendingInjector.formats := None; TrendingInjector.visual_styles := None;
     TrendingInjector.hooks := None;
     TrendingInjector.hashtags := Some [(lit "food", [lit "#kuliner"])];
     TrendingInjector.cta := None; TrendingInjector.sounds := None |}.

(** ** The script *)

(** The position of the matcher after reading [w], with [t] left. *)
Definition reads (s : pos) (w t : str) : pos :=
  {| bos := match w with [] => bos s | _ => false end;
     rest := t;
     opened := match opened s with Some a => Some (rev w ++ a) | None => None end;
     group1 := group1 s |}.







Definition is_one_of (cs : string) (c : ascii) : bool :=
  existsb (Ascii.eqb c) (list_ascii_of_string cs).






(** ** What a pattern matches

    The texts a pattern can read, whatever comes before and after:
    [^], [$] and a look-ahead read nothing. *)
Fixpoint den (r : regex) (u : str) : Prop :=
  match r with
  | Fail => False
  | Eps => u = []
  | Class p => exists c, u = [c] /\ p c = true
  | Cat r1 r2 => exists u1 u2, u = u1 ++ u2 /\ den r1 u1 /\ den r2 u2
  | Alt r1 r2 => den r1 u \/ den r2 u
  | Star p => Forall (fun c => p c = true) u
  | StarLazy p => Forall (fun c => p c = true) u
  | Bos => u = []
  | Eos => u = []
  | Group r1 => den r1 u
  | Ahead _ => u = []
  end.

(** ** Entities

    The keyword tables of the validator by entity key, each keyword
    ([r"a|b|c"]) with its alternatives in the order of the source. *)
Definition keyword_tables : Dict.dict (list (list string)) :=
  [ (lit "products",
     [ ["skincare"]; ["makeup"]; ["clothing"; "pakaian"; "baju"];
       ["food"; "makanan"]; ["drink"; "minuman"]; ["gadget"];
       ["phone"; "handphone"; "hp"]; ["shoes"; "sepatu"];
       ["bag"; "tas"]; ["book"; "buku"] ]);
    (lit "topics",
     [ ["review"]; ["tutorial"]; ["tips"]; ["vlog"];
       ["challenge"]; ["reaction"]; ["unboxing"];
       ["testimoni"; "testimoni"; "review"];
       ["promosi"; "promosi"; "promo"] ]);
    (lit "emotions",
     [ ["excited"; "exciting"; "seru"];
       ["happy"; "joyful"; "bahagia"; "senang"];
       ["sad"; "sadness"; "sedih"];
       ["angry"; "furious"; "marah"];
       ["funny"; "humorous"; "lucu"];
       ["inspiring"; "motivational"; "inspiratif"; "motivasi"];
       ["calm"; "peaceful"; "tenang"];
       ["energetic"; "energetic"] ]);
    (lit "target_audience",
     [ ["teen"; "teens"; "remaja"];
       ["kids"; "children"; "anak-anak"];
       ["adult"; "adults"; "dewasa"];
       ["student"; "students"; "mahasiswa"; "pelajar"];
       ["mom"; "mother"; "moms"; "ibu"];
       ["professionals"; "profesional"];
       ["gamer"; "gamers"] ]) ]%string.

(** The first word of a keyword that the text starts with: the
    alternative that matches at a position. *)
Definition first_alternative (alternatives : list string) (t : str) : option string :=
  find (fun w => startswith (lit w) t) alternatives.

(** A word of a keyword that comes after a word it starts with. *)
Fixpoint shadowed (alternatives : list string) (w : string) : bool :=
  match alternatives with
  | [] => false
  | v :: r =>
      if String.eqb v w then false
      else startswith (lit v) (lit w) || shadowed r w
  end.

(** ** Sanitizing *)

(** A character that no pattern of [_sanitize] needs: none of [<], [:]
    and [=]. *)
Definition plain_char (c : ascii) : bool := negb (is_one_of "<:=" c).

(** ** Platforms *)

(** The keys of the settings that [optimize_for_platform] returns. *)
Definition optimized_keys : list str :=
  [ lit "platform"; lit "aspect_ratio"; lit "max_duration"; lit "resolution";
    lit "characteristics"; lit "optimal_length"; lit "caption_style";
    lit "music_suggestion"; lit "editing_tips"; lit "posting_time" ].

(** The platform whose settings are used for a platform name. *)
Definition known_platform (platform : str) : str :=
  if mem platform (Dict.keys PlatformOptimizer.PLATFORM_SPECS)
  then platform else lit "tiktok".

(** A text in which no [<] starts a tag [<[^>]+>]: after a [<] comes
    the end of the text, a [>], or no [>] at all. *)
Fixpoint tag_free (s : str) : Prop :=
  match s with
  | [] => True
  | c :: t =>
      (c = "<"%char ->
       match t with
       | [] => True
       | d :: _ => d = ">"%char \/ ~ In ">"%char t
       end)
      /\ tag_free t
  end.

(** [dropping P s s']: [s'] is [s] without some of its characters, all
    of which satisfy [P]. *)
Inductive dropping (P : ascii -> Prop) : str -> str -> Prop :=
| dropping_nil : dropping P [] []
| dropping_keep (c : ascii) (s s' : str) :
    dropping P s s' -> dropping P (c :: s) (c :: s')
| dropping_drop (c : ascii) (s s' : str) :
    P c -> dropping P s s' -> dropping P (c :: s) s'.

(** Every character that the pattern can read satisfies [P]. *)
Fixpoint reads_only (P : ascii -> Prop) (r : regex) : Prop :=
  match r with
  | Class p | Star p | StarLazy p => forall c, p c = true -> P c
  | Cat r1 r2 | Alt r1 r2 => reads_only P r1 /\ reads_only P r2
  | Group r1 => reads_only P r1
  | Fail | Eps | Bos | Eos | Ahead _ => True
  end.

(** * Properties *)

(** ** Strings *)

Lemma ascii_eqb_true (a b : ascii) : Ascii.eqb a b = true <-> a = b.
Proof. apply Ascii.eqb_eq. Qed.

Lemma eqb_spec (s t : str) : Py.eqb s t = true <-> s = t.
Proof.
  revert t; induction s as [|a s IH]; intros [|b t]; simpl; try (split; congruence).
  rewrite andb_true_iff, ascii_eqb_true, IH. split; [intros [-> ->] | intros [= -> ->]]; auto.
Qed.

Lemma eqb_refl (s : str) : Py.eqb s s = true.
Proof. apply eqb_spec; reflexivity. Qed.

Lemma mem_spec (x : str) (l : list str) : mem x l = true <-> In x l.
Proof.
  unfold mem. rewrite existsb_exists. split.
  - intros (y & Hy & E). apply eqb_spec in E. subst; assumption.
  - intros H. exists x. split; [assumption | apply eqb_refl].
Qed.

Lemma startswith_spec (p s : str) : startswith p s = true <-> exists t, s = p ++ t.
Proof.
  revert s; induction p as [|a p IH]; intros s; simpl.
  - split; eauto.
  - destruct s as [|b s].
    + split; [discriminate | intros (t & [=])].
    + rewrite andb_true_iff, ascii_eqb_true, IH. split.
      * intros (-> & t & ->). eauto.
      * intros (t & [= -> ->]). eauto.
Qed.

Lemma contains_spec (sub s : str) :
  contains sub s = true <-> exists a b, s = a ++ sub ++ b.
Proof.
  induction s as [|c s IH]; simpl.
  - rewrite orb_false_r, startswith_spec. split.
    + intros (t & E). exists [], t. exact E.
    + intros (a & b & E). symmetry in E. apply app_eq_nil in E as (-> & E).
      apply app_eq_nil in E as (-> & ->). exists []. reflexivity.
  - rewrite orb_true_iff, startswith_spec, IH. split.
    + intros [(t & E) | (a & b & ->)].
      * exists [], t. exact E.
      * exists (c :: a), b. reflexivity.
    + intros (a & b & E). destruct a as [|d a].
      * left. exists b. exact E.
      * right. injection E as -> ->. eauto.
Qed.

Lemma contains_trans (x y z : str) :
  contains x y = true -> contains y z = true -> contains x z = true.
Proof.
  rewrite !contains_spec. intros (a & b & ->) (c & d & ->).
  exists (c ++ a), (b ++ d). rewrite <- !app_assoc. reflexivity.
Qed.

Lemma split_on_cons (sep : ascii) (s : str) :
  exists l ls, split_on sep s = l :: ls.
Proof.
  induction s as [|c s IH]; simpl.
  - eauto.
  - destruct (Ascii.eqb c sep); [eauto|].
    destruct IH as (l & ls & ->). eauto.
Qed.

(** The lines of a text, joined again, are the text. *)
Lemma join_split_on (sep : ascii) (s : str) : join [sep] (split_on sep s) = s.
Proof.
  induction s as [|c s IH]; simpl; [reflexivity|].
  destruct (Ascii.eqb c sep) eqn:E.
  - apply ascii_eqb_true in E; subst c.
    destruct (split_on_cons sep s) as (l & ls & El). rewrite El in *.
    simpl. simpl in IH. rewrite IH. reflexivity.
  - destruct (split_on_cons sep s) as (l & ls & El). rewrite El in *.
    destruct ls; simpl in *; rewrite <- IH; reflexivity.
Qed.

Lemma in_join_contains (sep : str) (ls : list str) (l : str) :
  In l ls -> contains l (join sep ls) = true.
Proof.
  intros H. apply contains_spec.
  induction ls as [|x ls IH]; [destruct H|].
  destruct H as [-> | H].
  - destruct ls; simpl.
    + exists [], []. rewrite app_nil_r. reflexivity.
    + exists [], (sep ++ join sep (l0 :: ls)). reflexivity.
  - destruct (IH H) as (a & b & E). destruct ls as [|y ls]; [destruct H|].
    change (join sep (x :: y :: ls)) with (x ++ sep ++ join sep (y :: ls)).
    rewrite E. exists (x ++ sep ++ a), b. rewrite <- !app_assoc. reflexivity.
Qed.

(** A line of a text occurs in the text. *)
Lemma line_contains (l raw : str) : In l (split_on LF raw) -> contains l raw = true.
Proof.
  intros H. pose proof (in_join_contains [LF] _ _ H) as E.
  rewrite join_split_on in E. exact E.
Qed.

Lemma dropwhile_suffix (p : ascii -> bool) (s : str) :
  exists a, s = a ++ dropwhile p s /\ Forall (fun c => p c = true) a.
Proof.
  induction s as [|c s (a & E & Ha)]; simpl.
  - exists []. split; [reflexivity | constructor].
  - destruct (p c) eqn:Ec.
    + exists (c :: a). split; [simpl; congruence | constructor; assumption].
    + exists []. split; [reflexivity | constructor].
Qed.

Lemma dropwhile_head (p : ascii -> bool) (s : str) (c : ascii) (t : str) :
  dropwhile p s = c :: t -> p c = false.
Proof.
  induction s as [|d s IH]; simpl; [discriminate|].
  destruct (p d) eqn:E; [exact IH | intros [= -> ->]; exact E].
Qed.

(** What [strip] leaves of a text, and what it takes away. *)
Lemma strip_by_spec (p : ascii -> bool) (s : str) :
  exists a b, s = a ++ strip_by p s ++ b
              /\ Forall (fun c => p c = true) a /\ Forall (fun c => p c = true) b.
Proof.
  unfold strip_by, lstrip_by, rstrip_by.
  destruct (dropwhile_suffix p s) as (a & Ea & Ha).
  destruct (dropwhile_suffix p (rev (dropwhile p s))) as (b & Eb & Hb).
  exists a, (rev b). split; [|split].
  - rewrite Ea at 1. f_equal.
    rewrite <- (rev_involutive (dropwhile p s)) at 1. rewrite Eb at 1.
    apply rev_app_distr.
  - exact Ha.
  - apply List.Forall_rev, Hb.
Qed.

Lemma strip_by_contains (p : ascii -> bool) (s : str) : contains (strip_by p s) s = true.
Proof.
  apply contains_spec. destruct (strip_by_spec p s) as (a & b & E & _). eauto.
Qed.

(** ** Input validation *)

Section Validation.
Import InputValidator.
Variable detect : str -> option str.

Lemma validate_invalid (text : str) :
  _validate_length init (_sanitize text) = false ->
  validate detect init text =
    [ (lit "valid", VBool false); (lit "error", VStr length_error);
      (lit "sanitized", VStr (_sanitize text)) ].
Proof. intros H. unfold validate. rewrite H. reflexivity. Qed.

Lemma validate_valid (text : str) :
  _validate_length init (_sanitize text) = true ->
  validate detect init text =
    [ (lit "valid", VBool true); (lit "sanitized", VStr (_sanitize text));
      (lit "language", VStr (_detect_language detect (_sanitize text)));
      (lit "entities", VEntities (_extract_entities (_sanitize text)));
      (lit "length", VInt (length (_sanitize text))) ].
Proof. intros H. unfold validate. rewrite H. reflexivity. Qed.

Lemma validate_length_spec (s : str) :
  _validate_length init s = true <-> 5 <= length s <= 2000.
Proof.
  unfold _validate_length, init; cbn [min_length max_length].
  rewrite andb_true_iff, !Nat.leb_le. reflexivity.
Qed.
End Validation.

(** C3, the part that fails: the dictionary returned for a text that is
    too short holds the error message and the sanitized text and nothing
    else; it has no length, and the message is the same whatever the
    length was. *)
Lemma validate_error_has_no_length :
  InputValidator.validate (fun _ => None) InputValidator.init (lit "tes")
    = [ (lit "valid", InputValidator.VBool false);
        (lit "error", InputValidator.VStr length_error);
        (lit "sanitized", InputValidator.VStr (lit "tes")) ]
  /\ Dict.get (lit "length")
       (InputValidator.validate (fun _ => None) InputValidator.init (lit "tes")) = None
  /\ Dict.get (lit "error")
       (InputValidator.validate (fun _ => None) InputValidator.init (lit "tes"))
     = Dict.get (lit "error")
       (InputValidator.validate (fun _ => None) InputValidator.init (lit "a")).
Proof. vm_compute. repeat split; reflexivity. Qed.

(** C3, amended: [validate] fails exactly when the length of the
    sanitized text is outside [5, 2000]; the dictionary it then returns
    holds the error message, which names both bounds, and the sanitized
    text itself, and no length; on success the dictionary holds the
    length of the sanitized text. *)
Theorem validate_fails_iff_length_out_of_bounds
    (detect : str -> option str) (text : str) :
  (Dict.get (lit "valid") (InputValidator.validate detect InputValidator.init text)
     = Some (InputValidator.VBool false)
   <-> (length (InputValidator._sanitize text) < 5
        \/ 2000 < length (InputValidator._sanitize text)))
  /\ (Dict.get (lit "valid") (InputValidator.validate detect InputValidator.init text)
        = Some (InputValidator.VBool true)
      <-> 5 <= length (InputValidator._sanitize text) <= 2000)
  /\ (Dict.get (lit "valid") (InputValidator.validate detect InputValidator.init text)
        = Some (InputValidator.VBool false) ->
      InputValidator.validate detect InputValidator.init text
        = [ (lit "valid", InputValidator.VBool false);
            (lit "error",
             InputValidator.VStr
               (lit "Input must be between " ++ str_of_nat 5 ++ lit " and "
                ++ str_of_nat 2000 ++ lit " characters"));
            (lit "sanitized", InputValidator.VStr (InputValidator._sanitize text)) ])
  /\ (Dict.get (lit "valid") (InputValidator.validate detect InputValidator.init text)
        = Some (InputValidator.VBool true) ->
      Dict.get (lit "length") (InputValidator.validate detect InputValidator.init text)
        = Some (InputValidator.VInt (length (InputValidator._sanitize text)))).
Proof.
  pose proof (validate_length_spec (InputValidator._sanitize text)) as Hlen.
  destruct (InputValidator._validate_length InputValidator.init
              (InputValidator._sanitize text)) eqn:E.
  - rewrite (validate_valid detect text E).
    assert (5 <= length (InputValidator._sanitize text) <= 2000) as Hin
      by (apply Hlen; reflexivity).
    generalize (InputValidator._extract_entities (InputValidator._sanitize text)).
    generalize (InputValidator._detect_language detect (InputValidator._sanitize text)).
    generalize dependent (InputValidator._sanitize text).
    intros s _ _ Hin lang ents.
    change (Dict.get (lit "valid") _) with (Some (InputValidator.VBool true)).
    change (Dict.get (lit "length") _) with (Some (InputValidator.VInt (length s))).
    repeat split; try discriminate; try lia; intros; lia.
  - rewrite (validate_invalid detect text E).
    assert (~ 5 <= length (InputValidator._sanitize text) <= 2000) as Hout
      by (intros H; apply Hlen in H; discriminate).
    generalize dependent (InputValidator._sanitize text).
    intros s _ _ Hout.
    change (Dict.get (lit "valid") _) with (Some (InputValidator.VBool false)).
    repeat split; try discriminate; try lia; intros; lia.
Qed.

(** ** Structuring the generated text *)

Lemma index_first_line (s : str) :
  exists l, index (split_on LF s) 0 = Ok l.
Proof. destruct (split_on_cons LF s) as (l & ls & ->). exists l. reflexivity. Qed.

Lemma extract_master_prompt_returns (raw : str) :
  exists p, PromptEngine._extract_master_prompt raw = Ok p.
Proof.
  unfold PromptEngine._extract_master_prompt.
  destruct (contains _ raw); [eauto|].
  destruct (truthy raw); [apply index_first_line | eauto].
Qed.

Lemma table_row_returns (specs : Dict.dict str) (line : str) :
  exists specs', PromptEngine.table_row specs line = Ok specs'.
Proof.
  unfold PromptEngine.table_row.
  destruct (map strip _) as [|key [|value parts]]; simpl; eauto.
Qed.

Lemma visual_loop_returns (lines : list str) :
  forall in_section specs,
    exists specs', PromptEngine.visual_loop in_section specs lines = Ok specs'.
Proof.
  induction lines as [|line r IH]; intros in_section specs; simpl; [eauto|].
  destruct (contains _ line || contains _ line); [apply IH|].
  destruct (in_section && contains _ line); [apply IH|].
  match goal with
  | |- context [bind ?m _] =>
      assert (exists specs1, m = Ok specs1) as (specs1 & ->)
        by (destruct (in_section && _ && _); [apply table_row_returns | eauto])
  end.
  simpl. destruct (in_section && _ && _); [eauto | apply IH].
Qed.

Lemma extract_visual_specs_returns (raw : str) :
  exists specs, PromptEngine._extract_visual_specs raw = Ok specs.
Proof.
  unfold PromptEngine._extract_visual_specs.
  destruct (_ || _); [apply visual_loop_returns | eauto].
Qed.

(** C2, the part that fails: on the empty text the aspect ratio is
    ["9:16"], not ["N/A"]. *)
Lemma structure_empty_aspect_ratio :
  exists r,
    PromptEngine._structure_result [(lit "raw_response", [])]
      (TrendingInjector.Bundle None None [] [] [] []) tt (lit "id") = Ok r
    /\ Dict.get (lit "Aspect Ratio") (PromptEngine.visual_specifications r)
       = Some (lit "9:16")
    /\ Dict.get (lit "Aspect Ratio") (PromptEngine.visual_specifications r)
       <> Some (lit "N/A").
Proof. eexists. split; [reflexivity|]. split; [reflexivity | discriminate]. Qed.

(** C2, amended: [_structure_result] never raises, whatever the
    response; on the empty response the master prompt and the three
    script fields are ["N/A"], the visual specifications are ["N/A"]
    except the aspect ratio, which is ["9:16"], and the hashtags are the
    first 15 of the bundle. *)
Theorem structure_never_raises {P : Type} (trending_elements : TrendingInjector.bundle)
    (platform_specifics : P) (language : str) :
  (forall ai_result : Dict.dict str,
     exists r,
       PromptEngine._structure_result ai_result trending_elements platform_specifics
         language = Ok r)
  /\ PromptEngine._structure_result [(lit "raw_response", [])] trending_elements
       platform_specifics language
     = Ok {| PromptEngine.master_prompt := lit "N/A";
             PromptEngine.visual_specifications :=
               [ (lit "Style", lit "N/A"); (lit "Camera", lit "N/A");
                 (lit "Lighting", lit "N/A"); (lit "Aspect Ratio", lit "9:16");
                 (lit "Mood", lit "N/A") ];
             PromptEngine.script :=
               [ (lit "hook", lit "N/A"); (lit "body", lit "N/A");
                 (lit "cta", lit "N/A") ];
             PromptEngine.hashtags :=
               take 15 (TrendingInjector.b_hashtags trending_elements);
             PromptEngine.language := language;
             PromptEngine.raw_response := [] |}
  /\ PromptEngine._structure_result [] trending_elements platform_specifics language
     = PromptEngine._structure_result [(lit "raw_response", [])] trending_elements
         platform_specifics language.
Proof.
  split; [|split; reflexivity].
  intros ai_result. unfold PromptEngine._structure_result.
  destruct (extract_master_prompt_returns
              (Dict.get_or (lit "raw_response") [] ai_result)) as (p & ->).
  destruct (extract_visual_specs_returns
              (Dict.get_or (lit "raw_response") [] ai_result)) as (v & ->).
  simpl. eauto.
Qed.

(** *** The master prompt *)

Lemma contains_Forall (P : ascii -> Prop) (sub s : str) :
  contains sub s = true -> Forall P s -> Forall P sub.
Proof.
  intros H Hs. apply contains_spec in H as (a & b & ->).
  apply Forall_app in Hs as (_ & Hs). apply Forall_app in Hs as (Hs & _). exact Hs.
Qed.

Lemma blank_line_spaces (line : str) :
  strip line = [] -> Forall (fun c => isspace c = true) line.
Proof.
  intros H. destruct (strip_by_spec isspace line) as (a & b & E & Ha & Hb).
  fold (strip line) in E. rewrite H in E. rewrite E. apply Forall_app; auto.
Qed.

Lemma blank_line_contains (sub line : str) :
  strip line = [] -> existsb (fun c => negb (isspace c)) sub = true ->
  contains sub line = false.
Proof.
  intros H Hsub. destruct (contains sub line) eqn:E; [|reflexivity].
  pose proof (contains_Forall _ _ _ E (blank_line_spaces _ H)) as Hall.
  apply existsb_exists in Hsub as (c & Hc & Hn).
  rewrite List.Forall_forall in Hall. rewrite (Hall c Hc) in Hn. discriminate.
Qed.

Lemma master_prompt_lines_cons (in_section : bool) (line : str) (r : list str) :
  PromptEngine.master_prompt_lines in_section (line :: r)
  = if contains MARKER line then PromptEngine.master_prompt_lines true r
    else if in_section then
      if startswith (lit "#") (strip line) || contains (lit "---") line then []
      else if truthy (strip line)
           then strip_char DQUOTE (strip line) :: PromptEngine.master_prompt_lines true r
           else PromptEngine.master_prompt_lines true r
    else PromptEngine.master_prompt_lines false r.
Proof. reflexivity. Qed.

Lemma master_prompt_lines_before (pre lines : list str) :
  Forall (fun l => contains MARKER l = false) pre ->
  PromptEngine.master_prompt_lines false (pre ++ lines)
  = PromptEngine.master_prompt_lines false lines.
Proof.
  induction 1 as [|l pre Hl _ IH]; [reflexivity|].
  rewrite <- app_comm_cons, master_prompt_lines_cons, Hl. exact IH.
Qed.

Lemma master_prompt_lines_blank (blanks lines : list str) :
  Forall (fun l => strip l = [] \/ contains MARKER l = true) blanks ->
  PromptEngine.master_prompt_lines true (blanks ++ lines)
  = PromptEngine.master_prompt_lines true lines.
Proof.
  induction 1 as [|l blanks Hl _ IH]; [reflexivity|].
  rewrite <- app_comm_cons, master_prompt_lines_cons.
  destruct (contains MARKER l) eqn:Em; [exact IH|].
  destruct Hl as [Hl | Hl]; [|discriminate Hl].
  rewrite (blank_line_contains (lit "---") l Hl) by reflexivity.
  rewrite Hl. exact IH.
Qed.

Lemma master_prompt_lines_in (x : str) (lines : list str) :
  forall in_section,
    In x (PromptEngine.master_prompt_lines in_section lines) ->
    exists line, In line lines /\ x = strip_char DQUOTE (strip line).
Proof.
  induction lines as [|l r IH]; intros b; simpl; [intros []|].
  assert (forall b', In x (PromptEngine.master_prompt_lines b' r) ->
            exists line, (l = line \/ In line r) /\ x = strip_char DQUOTE (strip line))
    as IH' by (intros b' H; destruct (IH b' H) as (line & ? & ?); eauto).
  destruct (contains _ l); [apply IH'|].
  destruct b; [|apply IH'].
  destruct (_ || _); [intros []|].
  destruct (truthy (strip l)); [|apply IH'].
  intros [<- | H]; [eauto | apply (IH' _ H)].
Qed.

Lemma join_without_separator (sep : ascii) (ls : list str) (x : str) :
  join [sep] ls = x -> ~ In sep x -> ls = [x] \/ (ls = [] /\ x = []).
Proof.
  intros E H. destruct ls as [|a [|b r]]; simpl in E; subst x; auto.
  exfalso. apply H. apply in_or_app. right. left. reflexivity.
Qed.

Lemma master_prompt_NA_from_text (raw : str) :
  PromptEngine._extract_master_prompt raw = Ok PromptEngine.NA ->
  raw = [] \/ contains PromptEngine.NA raw = true.
Proof.
  unfold PromptEngine._extract_master_prompt.
  destruct (contains (lit "MASTER PROMPT") raw).
  - intros [= E]. right.
    apply join_without_separator in E as [E | (_ & E)]; [|discriminate|].
    + assert (In PromptEngine.NA
                (PromptEngine.master_prompt_lines false (split_on LF raw))) as Hin
        by (rewrite E; left; reflexivity).
      apply master_prompt_lines_in in Hin as (line & Hline & Ex).
      apply contains_trans with line; [|apply line_contains, Hline].
      rewrite Ex. apply contains_trans with (strip line); apply strip_by_contains.
    + vm_compute. intros H. repeat (destruct H as [H | H]; [discriminate H|]). exact H.
  - destruct raw as [|c raw]; [auto|]. simpl truthy. cbv iota.
    destruct (split_on_cons LF (c :: raw)) as (l & ls & E). rewrite E.
    intros [= ->]. right. apply line_contains. rewrite E. left. reflexivity.
Qed.

(** C10, the part that fails: ["N/A"] also comes out of a text that is
    not empty, when that is what the text says; and a heading that holds
    the marker itself does not end the section, it opens it again: the
    line after it is the master prompt, although only a blank line
    stands between the first marker and that heading. *)
Lemma master_prompt_NA_of_nonempty_text :
  PromptEngine._extract_master_prompt (lit "N/A") = Ok (lit "N/A")
  /\ contains (lit "MASTER PROMPT") (lit "N/A") = false
  /\ lit "N/A" <> []
  /\ PromptEngine._extract_master_prompt (lit "MASTER PROMPT\nN/A") = Ok (lit "N/A")
  /\ PromptEngine._extract_master_prompt
       (lit "# MASTER PROMPT\n\n## MASTER PROMPT (Text-to-Video)\nA cat")
     = Ok (lit "A cat").
Proof. repeat split; try reflexivity. discriminate. Qed.

(** C10, amended: [m] is the first line that holds the marker.  When
    every line after it is blank or holds the marker again, up to the
    end or up to the first heading or horizontal rule that does not hold
    the marker, the master prompt is the empty string and not ["N/A"];
    ["N/A"] is the answer on the empty text, and on any other text only
    when ["N/A"] is written in the text itself. *)
Theorem master_prompt_empty_after_marker (raw : str) (pre : list str) (m : str)
    (blanks rest : list str) :
  split_on LF raw = pre ++ m :: blanks ++ rest ->
  Forall (fun l => contains MARKER l = false) pre ->
  contains MARKER m = true ->
  Forall (fun l => strip l = [] \/ contains MARKER l = true) blanks ->
  (rest = [] \/
   exists h t, rest = h :: t /\ contains MARKER h = false /\ ends_master_prompt h) ->
  PromptEngine._extract_master_prompt raw = Ok []
  /\ PromptEngine._extract_master_prompt raw <> Ok (lit "N/A")
  /\ PromptEngine._extract_master_prompt [] = Ok (lit "N/A")
  /\ (forall text,
        PromptEngine._extract_master_prompt text = Ok (lit "N/A") ->
        text = [] \/ contains (lit "N/A") text = true).
Proof.
  intros Hsplit Hpre Hm Hblanks Hrest.
  assert (PromptEngine._extract_master_prompt raw = Ok []) as Hres.
  { unfold PromptEngine._extract_master_prompt. fold MARKER.
    assert (contains MARKER raw = true) as ->.
    { apply contains_trans with m; [exact Hm|].
      apply line_contains. rewrite Hsplit. apply in_or_app. right. left. reflexivity. }
    rewrite Hsplit, master_prompt_lines_before by exact Hpre.
    rewrite master_prompt_lines_cons, Hm.
    rewrite master_prompt_lines_blank by exact Hblanks.
    destruct Hrest as [-> | (h & t & -> & Hh & Hend)]; [reflexivity|].
    rewrite master_prompt_lines_cons, Hh.
    destruct Hend as [-> | ->]; [reflexivity | rewrite orb_true_r; reflexivity]. }
  split; [exact Hres|]. split; [rewrite Hres; discriminate|].
  split; [reflexivity | exact master_prompt_NA_from_text].
Qed.

Lemma master_prompt_empty_after_marker_witness :
  PromptEngine._extract_master_prompt
    (lit "intro\n# MASTER PROMPT\n  \n## MASTER PROMPT (Text-to-Video)\n\n# VISUAL\nx")
  = Ok [].
Proof.
  apply (master_prompt_empty_after_marker
           (lit "intro\n# MASTER PROMPT\n  \n## MASTER PROMPT (Text-to-Video)\n\n# VISUAL\nx")
           [lit "intro"] (lit "# MASTER PROMPT")
           [lit "  "; lit "## MASTER PROMPT (Text-to-Video)"; []]
           [lit "# VISUAL"; lit "x"]).
  - reflexivity.
  - repeat constructor.
  - reflexivity.
  - apply List.Forall_cons; [left; reflexivity|].
    apply List.Forall_cons; [right; reflexivity|].
    apply List.Forall_cons; [left; reflexivity|]. apply List.Forall_nil.
  - right. exists (lit "# VISUAL"), [lit "x"].
    split; [reflexivity|]. split; [reflexivity|]. left. reflexivity.
Defined.

(** *** Hashtags of the generated text *)

Lemma replace_char_filter (c : ascii) (s : str) :
  replace [c] [] s = List.filter (fun d => negb (Ascii.eqb c d)) s.
Proof.
  unfold replace. induction s as [|d s IH]; [reflexivity|].
  simpl. rewrite andb_true_r. destruct (Ascii.eqb c d); simpl; rewrite IH; reflexivity.
Qed.

Lemma startswith_char (c : ascii) (w : str) :
  startswith [c] w = match w with d :: _ => Ascii.eqb c d | [] => false end.
Proof. destruct w; [reflexivity | apply andb_true_r]. Qed.

Lemma parse_hashtags_spec (lines : list str) :
  PromptEngine.parse_hashtags lines = flat_map tags_of_line lines.
Proof.
  unfold PromptEngine.parse_hashtags, tags_of_line.
  apply flat_map_ext. intros l.
  change (lit "#") with ["#"%char].
  induction (split l) as [|w ws IHw]; [reflexivity|].
  cbn [List.filter]. rewrite startswith_char.
  destruct (match w with [] => false | d :: _ => Ascii.eqb "#" d end);
    [|exact IHw].
  cbn [map]. rewrite IHw, replace_char_filter. reflexivity.
Qed.

Lemma hashtag_lines_cons (in_section : bool) (line : str) (r : list str) :
  PromptEngine.hashtag_lines in_section (line :: r)
  = if has_hashtags_marker line then PromptEngine.hashtag_lines true r
    else if in_section then
      if lone_hash_word line then []
      else if contains (lit "---") line then []
      else if truthy (strip line) then strip line :: PromptEngine.hashtag_lines true r
      else PromptEngine.hashtag_lines true r
    else PromptEngine.hashtag_lines false r.
Proof. reflexivity. Qed.

Lemma hashtag_lines_before (pre lines : list str) :
  Forall (fun l => has_hashtags_marker l = false) pre ->
  PromptEngine.hashtag_lines false (pre ++ lines) = PromptEngine.hashtag_lines false lines.
Proof.
  induction 1 as [|l pre Hl _ IH]; [reflexivity|].
  rewrite <- app_comm_cons, hashtag_lines_cons, Hl. exact IH.
Qed.

Lemma single_hash_line_lone (l : str) :
  single_hash_line l = false -> lone_hash_word l = false.
Proof.
  unfold single_hash_line, lone_hash_word.
  destruct (startswith (lit "#") (strip l)), (startswith (lit "# ") (strip l)),
    (contains (lit "#") (drop 1 (strip l))); simpl; congruence.
Qed.

Lemma hashtag_lines_body (body rest : list str) :
  Forall (fun l => has_hashtags_marker l = false /\ single_hash_line l = false
                   /\ contains (lit "---") l = false) body ->
  PromptEngine.hashtag_lines true (body ++ rest)
  = List.filter truthy (map strip body) ++ PromptEngine.hashtag_lines true rest.
Proof.
  induction 1 as [|l body (H1 & H2 & H3) _ IH]; [reflexivity|].
  rewrite <- app_comm_cons, hashtag_lines_cons, H1, H3, IH.
  rewrite (single_hash_line_lone l H2).
  simpl. destruct (truthy (strip l)); reflexivity.
Qed.

Lemma extract_hashtags_without_marker (raw : str) (b : TrendingInjector.bundle) :
  contains (lit "HASHTAGS") raw = false ->
  contains (lit "Hashtags") raw = false ->
  PromptEngine._extract_hashtags raw b = take 15 (TrendingInjector.b_hashtags b).
Proof.
  intros H1 H2. unfold PromptEngine._extract_hashtags. rewrite H1, H2. reflexivity.
Qed.

(** C6, the parts that fail: a marker in another spelling is not seen,
    and the bundle's hashtags are returned; every [#] of a word is taken
    out, not the leading one only. *)
Lemma extract_hashtags_marker_and_inner_hash :
  PromptEngine._extract_hashtags (lit "# hashtags\n#skincare #fyp")
    (TrendingInjector.Bundle None None [] [] [lit "#viral"] [])
  = [lit "#viral"]
  /\ contains (lit "HASHTAGS") (upper (lit "# hashtags\n#skincare #fyp")) = true
  /\ PromptEngine._extract_hashtags (lit "# HASHTAGS\n#a#b #c")
       (TrendingInjector.Bundle None None [] [] [lit "#viral"] [])
     = [lit "ab"; lit "c"].
Proof. repeat split; vm_compute; reflexivity. Qed.

(** C6, amended: when the marker, spelled [HASHTAGS] or [Hashtags],
    occurs, the non-empty lines after the first line that has it are
    collected up to the first line with a horizontal rule, or to the
    end; every word of them that begins with [#] gives a tag, all its
    [#] taken out; the tags are returned in the order met when there is
    one, else the first 15 hashtags of the bundle are.  Without the
    marker the first 15 hashtags of the bundle are returned.  The text
    ["# HASHTAGS\n#skincare #fyp"] gives [skincare] and [fyp].  The
    statement is about texts where no line between the marker and the
    rule is a line of one [#] only, at its start (a heading [# Title],
    a single tag [#tag]): what the heading test does at such a line is
    neither promised nor denied. *)
Theorem extract_hashtags_collects (raw : str) (b : TrendingInjector.bundle)
    (pre : list str) (m : str) (body rest : list str) :
  split_on LF raw = pre ++ m :: body ++ rest ->
  Forall (fun l => has_hashtags_marker l = false) pre ->
  has_hashtags_marker m = true ->
  Forall (fun l => has_hashtags_marker l = false /\ single_hash_line l = false
                   /\ contains (lit "---") l = false) body ->
  (rest = [] \/
   exists h t, rest = h :: t /\ has_hashtags_marker h = false
               /\ contains (lit "---") h = true) ->
  PromptEngine._extract_hashtags raw b
  = match flat_map tags_of_line (List.filter truthy (map strip body)) with
    | [] => take 15 (TrendingInjector.b_hashtags b)
    | tags => tags
    end
  /\ (forall text,
        contains (lit "HASHTAGS") text = false ->
        contains (lit "Hashtags") text = false ->
        PromptEngine._extract_hashtags text b = take 15 (TrendingInjector.b_hashtags b))
  /\ PromptEngine._extract_hashtags (lit "# HASHTAGS\n#skincare #fyp") b
     = [lit "skincare"; lit "fyp"].
Proof.
  intros Hsplit Hpre Hm Hbody Hrest.
  split; [|split; [intros; apply extract_hashtags_without_marker; assumption
                  | reflexivity]].
  unfold PromptEngine._extract_hashtags.
  assert (contains (lit "HASHTAGS") raw || contains (lit "Hashtags") raw = true) as ->.
  { assert (In m (split_on LF raw)) as Hin
      by (rewrite Hsplit; apply in_or_app; right; left; reflexivity).
    apply line_contains in Hin.
    unfold has_hashtags_marker in Hm. apply orb_true_iff in Hm as [Hm | Hm].
    - rewrite (contains_trans _ _ _ Hm Hin). reflexivity.
    - rewrite (contains_trans _ _ _ Hm Hin). apply orb_true_r. }
  rewrite Hsplit, hashtag_lines_before by exact Hpre.
  rewrite hashtag_lines_cons, Hm, hashtag_lines_body by exact Hbody.
  assert (PromptEngine.hashtag_lines true rest = []) as ->.
  { destruct Hrest as [-> | (h & t & -> & Hh & Hrule)]; [reflexivity|].
    rewrite hashtag_lines_cons, Hh, Hrule. destruct (lone_hash_word h); reflexivity. }
  rewrite app_nil_r, <- parse_hashtags_spec.
  destruct (List.filter truthy (map strip body)); reflexivity.
Qed.

Lemma extract_hashtags_collects_witness :
  PromptEngine._extract_hashtags
    (lit "intro\n# HASHTAGS\n#skincare #fyp\n\n  plain #x#y\n---\n#later")
    (TrendingInjector.Bundle None None [] [] [lit "#viral"] [])
  = [lit "skincare"; lit "fyp"; lit "xy"].
Proof.
  apply (extract_hashtags_collects
           (lit "intro\n# HASHTAGS\n#skincare #fyp\n\n  plain #x#y\n---\n#later")
           (TrendingInjector.Bundle None None [] [] [lit "#viral"] [])
           [lit "intro"] (lit "# HASHTAGS")
           [lit "#skincare #fyp"; []; lit "  plain #x#y"] [lit "---"; lit "#later"]).
  - reflexivity.
  - repeat constructor.
  - reflexivity.
  - repeat constructor.
  - right. exists (lit "---"), [lit "#later"]. repeat split.
Defined.

(** ** Trending elements *)

(** *** The format *)

Lemma format_matches_keywords (f : TrendingInjector.format_entry) :
  TrendingInjector.format_matches f
  = match TrendingInjector.keywords f with [] => false | _ => true end.
Proof.
  unfold TrendingInjector.format_matches.
  destruct (TrendingInjector.keywords f) as [|k ks]; [reflexivity|].
  simpl. rewrite eqb_refl. reflexivity.
Qed.

(** What the loop of [_get_matching_format] finds does not depend on
    the topics, as long as there is one. *)
Lemma first_matching_format_any_topic (formats : list TrendingInjector.format_entry)
    (topic : str) (topics : list str) :
  TrendingInjector.first_matching_format formats (topic :: topics)
  = find (fun f => match TrendingInjector.keywords f with [] => false | _ => true end)
         formats.
Proof.
  induction formats as [|f r IH]; [reflexivity|].
  simpl. rewrite format_matches_keywords, IH.
  destruct (TrendingInjector.keywords f); [|reflexivity].
  assert (existsb (fun _ : str => false) topics = false) as ->
    by (clear; induction topics as [|t ts IHt]; [reflexivity | exact IHt]).
  reflexivity.
Qed.

(** C4, at the failing input: with the topic [tutorial] and the built-in
    catalog, whose second format has the keyword [tutorial],
    [_get_matching_format] returns the first format, [POV], and draws no
    random number; the first format whose keywords meet the topics is
    [Tutorial]. *)
Theorem get_matching_format_ignores_topics (g : Random.rng) :
  TrendingInjector._get_matching_format fallback_injector
    (entity_set [] [lit "tutorial"] [] []) g
  = (Some (TrendingInjector.Format (lit "POV")
             [lit "tiktok"; lit "instagram"; lit "youtube"] [lit "pov"]), g)
  /\ first_format_meeting_topics
       (default [] (TrendingInjector.formats (TrendingInjector.data fallback_injector)))
       [lit "tutorial"]
     = Some (TrendingInjector.Format (lit "Tutorial")
               [lit "tiktok"; lit "instagram"; lit "youtube"] [lit "tutorial"]).
Proof. split; reflexivity. Qed.

(** *** The hashtags of the bundle *)

(** C5, at the failing input: the product [skincare] is among the
    entities and the catalog has a category [skincare], yet
    [_get_hashtags] returns the hashtags of [general] only. *)
Theorem get_hashtags_misses_category :
  TrendingInjector._get_hashtags skincare_catalog
    (entity_set [lit "skincare"] [lit "review"] [] [])
  = [lit "#fyp"; lit "#viral"]
  /\ hashtags_by_entity_values (entity_set [lit "skincare"] [lit "review"] [] [])
       (default [] (TrendingInjector.hashtags (TrendingInjector.data skincare_catalog)))
     = [lit "#glowing"; lit "#skincareroutine"; lit "#fyp"; lit "#viral"].
Proof. split; vm_compute; reflexivity. Qed.

Lemma dict_get_not_key {V} (k : str) (d : Dict.dict V) :
  ~ In k (Dict.keys d) -> Dict.get k d = None.
Proof.
  induction d as [|[k' v] d IH]; [reflexivity|].
  simpl. intros H. destruct (Py.eqb k k') eqn:E.
  - apply eqb_spec in E. subst. exfalso. apply H. left. reflexivity.
  - apply IH. intros Hin. apply H. right. exact Hin.
Qed.

(** The key under which [_get_hashtags] looks a category up has no [s]
    and no underscore: it is none of the four keys of an entity set. *)
Lemma category_key_not_entity_key (category : str) :
  ~ In (replace (lit "s") [] (replace (lit "_") [] category)) entity_keys.
Proof.
  change (lit "s") with ["s"%char]. change (lit "_") with ["_"%char].
  rewrite !replace_char_filter.
  set (key := List.filter _ (List.filter _ category)).
  assert (~ In "s"%char key) as Hs
    by (intros H; apply filter_In in H as (_ & H); discriminate H).
  assert (~ In "_"%char key) as Hu.
  { intros H. apply filter_In in H as (H & _).
    apply filter_In in H as (_ & H). discriminate H. }
  intros [H | [H | [H | [H | []]]]]; rewrite <- H in Hs, Hu.
  - apply Hs. vm_compute. repeat (first [left; reflexivity | right]).
  - apply Hs. vm_compute. repeat (first [left; reflexivity | right]).
  - apply Hs. vm_compute. repeat (first [left; reflexivity | right]).
  - apply Hu. vm_compute. repeat (first [left; reflexivity | right]).
Qed.

(** On an entity set, whose keys are the four of the specification, the
    loop over the categories adds nothing, but for a category whose name
    is empty. *)
Lemma category_hashtags_nil (entities : TrendingInjector.entities)
    (hashtags_data : Dict.dict (list str)) :
  Forall (fun k => In k entity_keys) (Dict.keys entities) ->
  Forall (fun category => category <> []) (Dict.keys hashtags_data) ->
  TrendingInjector.category_hashtags entities hashtags_data = [].
Proof.
  intros Hkeys Hcat. unfold TrendingInjector.category_hashtags, Dict.items.
  induction hashtags_data as [|[category tags] r IH]; [reflexivity|].
  apply Forall_cons in Hcat as (Hc & Hcat).
  cbn [flat_map]. rewrite (IH Hcat), app_nil_r.
  destruct (negb (Py.eqb category (lit "general"))); [|reflexivity].
  unfold Dict.get_or. rewrite dict_get_not_key.
  - destruct category; [contradiction | reflexivity].
  - intros Hin. apply (category_key_not_entity_key category).
    rewrite List.Forall_forall in Hkeys. apply Hkeys, Hin.
Qed.

(** Whatever the entities, [_get_hashtags] returns the hashtags of
    [general] alone. *)
Lemma get_hashtags_general_only (self : TrendingInjector.injector)
    (entities : TrendingInjector.entities) :
  Forall (fun k => In k entity_keys) (Dict.keys entities) ->
  Forall (fun category => category <> [])
         (Dict.keys (default [] (TrendingInjector.hashtags (TrendingInjector.data self)))) ->
  TrendingInjector._get_hashtags self entities
  = take 15 (Dict.keys (Dict.fromkeys
       (Dict.get_or (lit "general") []
          (default [] (TrendingInjector.hashtags (TrendingInjector.data self)))))).
Proof.
  intros Hkeys Hcat. unfold TrendingInjector._get_hashtags.
  rewrite category_hashtags_nil by assumption. reflexivity.
Qed.

(** *** Sampling without replacement *)

Section Sample.
Context {A : Type}.
Implicit Types (pool : list A) (g : Random.rng).

(** One step of the loop picks a cell among the first [n] and leaves
    the others in the first [n - 1] cells. *)
Lemma sample_step_permutation pool (n j : nat) (x y : A) :
  j < n -> pool !! j = Some x -> pool !! (n - 1) = Some y ->
  take n pool ≡ₚ x :: take (n - 1) (<[j := y]> pool).
Proof.
  intros Hj Hx Hy. destruct n as [|n]; [lia|].
  replace (S n - 1) with n in * by lia.
  rewrite (take_S_r _ _ _ Hy).
  destruct (decide (j = n)) as [-> | Hne].
  - rewrite Hx in Hy. injection Hy as ->.
    rewrite list_insert_id by exact Hx.
    symmetry. apply Permutation_cons_append.
  - assert (j < n) as Hlt by lia.
    rewrite take_insert_lt by exact Hlt.
    assert (take n pool !! j = Some x) as Hx' by (rewrite lookup_take_lt; auto).
    assert (j < length (take n pool)) as Hlen
      by (apply lookup_lt_is_Some; eauto).
    rewrite (insert_take_drop _ _ _ Hlen).
    rewrite <- (take_drop_middle _ _ _ Hx') at 1.
    rewrite <- app_assoc. simpl.
    rewrite <- !Permutation_middle. constructor.
    rewrite app_nil_r. reflexivity.
Qed.

(** The sample is made of [k] cells of the population, no cell twice. *)
Lemma sample_loop_submseteq (k : nat) :
  forall n pool g,
    k <= n -> n <= length pool ->
    (Random.sample_loop k n pool g).1 ⊆+ take n pool
    /\ length (Random.sample_loop k n pool g).1 = k.
Proof.
  induction k as [|k IH]; intros n pool g Hk Hn; simpl.
  - split; [apply submseteq_nil_l | reflexivity].
  - assert (0 < n) as Hpos by lia.
    pose proof (Nat.mod_upper_bound (Random.source g (Random.drawn g)) n
                  ltac:(lia)) as Hj.
    set (j := Random.source g (Random.drawn g) `mod` n) in *.
    destruct (lookup_lt_is_Some_2 pool j ltac:(lia)) as (x & Hx).
    destruct (lookup_lt_is_Some_2 pool (n - 1) ltac:(lia)) as (y & Hy).
    rewrite Hx, Hy.
    set (g1 := Random.Rng _ _).
    specialize (IH (n - 1) (<[j := y]> pool) g1 ltac:(lia)
                   ltac:(rewrite length_insert; lia)).
    destruct (Random.sample_loop k (n - 1) (<[j := y]> pool) g1) as (r & g2).
    simpl in *. destruct IH as (IH & Hlen). split; [|lia].
    rewrite (sample_step_permutation pool n j x y Hj Hx Hy).
    apply submseteq_skip, IH.
Qed.

Lemma sample_submseteq (population : list A) (k : nat) g :
  k <= length population ->
  (Random.sample population k g).1 ⊆+ population
  /\ length (Random.sample population k g).1 = k.
Proof.
  intros Hk. unfold Random.sample.
  destruct (sample_loop_submseteq k (length population) population g Hk (le_n _))
    as (H & Hlen).
  rewrite firstn_all in H. auto.
Qed.
End Sample.

Lemma submseteq_NoDup {A} (l k : list A) : l ⊆+ k -> NoDup k -> NoDup l.
Proof.
  intros H Hk. apply submseteq_Permutation in H as (r & H).
  rewrite H in Hk. apply NoDup_app in Hk as (Hl & _). exact Hl.
Qed.

(** *** [dict.fromkeys] *)

Lemma dict_set_keys {V} (k : str) (v : V) (d : Dict.dict V) :
  Dict.keys (Dict.set k v d)
  = if mem k (Dict.keys d) then Dict.keys d else Dict.keys d ++ [k].
Proof.
  induction d as [|[k' v'] d IH]; [reflexivity|].
  unfold Dict.keys in *. simpl. destruct (Py.eqb k k'); [reflexivity|].
  simpl. rewrite IH. destruct (mem k (map fst d)); reflexivity.
Qed.

Lemma dict_set_keys_NoDup {V} (k : str) (v : V) (d : Dict.dict V) :
  NoDup (Dict.keys d) -> NoDup (Dict.keys (Dict.set k v d)).
Proof.
  intros H. rewrite dict_set_keys. destruct (mem k (Dict.keys d)) eqn:E; [exact H|].
  apply NoDup_app. split; [exact H|]. split; [|apply NoDup_singleton].
  intros x Hx Hk. apply list_elem_of_singleton in Hk. subst x.
  apply list_elem_of_In, mem_spec in Hx. congruence.
Qed.

Lemma fromkeys_NoDup (l : list str) : NoDup (Dict.keys (Dict.fromkeys l)).
Proof.
  unfold Dict.fromkeys.
  assert (forall acc : Dict.dict unit,
            NoDup (Dict.keys acc) ->
            NoDup (Dict.keys (foldl (fun acc k => Dict.set k tt acc) acc l))) as H.
  { induction l as [|k l IH]; intros acc Hacc; [exact Hacc|].
    simpl. apply IH, dict_set_keys_NoDup, Hacc. }
  apply H. constructor.
Qed.

(** *** The bundle *)

Lemma get_hashtags_bounds (self : TrendingInjector.injector)
    (entities : TrendingInjector.entities) :
  length (TrendingInjector._get_hashtags self entities) <= 15
  /\ NoDup (TrendingInjector._get_hashtags self entities).
Proof.
  unfold TrendingInjector._get_hashtags. split.
  - rewrite length_take. lia.
  - eapply sublist_NoDup; [apply fromkeys_NoDup | apply sublist_take].
Qed.

Lemma get_sound_suggestions_bound (self : TrendingInjector.injector) :
  length (TrendingInjector._get_sound_suggestions self) <= 3.
Proof.
  unfold TrendingInjector._get_sound_suggestions.
  destruct (default [] _) as [|s r]; [simpl; lia|].
  rewrite length_take. lia.
Qed.

Lemma get_hooks_sample (self : TrendingInjector.injector)
    (entities : TrendingInjector.entities) (g : Random.rng) :
  (TrendingInjector._get_hooks self entities g).1
    ⊆+ default [] (TrendingInjector.hooks (TrendingInjector.data self))
  /\ length (TrendingInjector._get_hooks self entities g).1 <= 3.
Proof.
  unfold TrendingInjector._get_hooks.
  destruct (sample_submseteq
              (default [] (TrendingInjector.hooks (TrendingInjector.data self)))
              (min 3 (length (default []
                                (TrendingInjector.hooks (TrendingInjector.data self)))))
              g ltac:(lia)) as (H & Hlen).
  split; [exact H | lia].
Qed.

Lemma get_ctas_sample (self : TrendingInjector.injector) (g : Random.rng) :
  (TrendingInjector._get_ctas self g).1
    ⊆+ default [] (TrendingInjector.cta (TrendingInjector.data self))
  /\ length (TrendingInjector._get_ctas self g).1 <= 2.
Proof.
  unfold TrendingInjector._get_ctas.
  destruct (sample_submseteq
              (default [] (TrendingInjector.cta (TrendingInjector.data self)))
              (min 2 (length (default []
                                (TrendingInjector.cta (TrendingInjector.data self)))))
              g ltac:(lia)) as (H & Hlen).
  split; [exact H | lia].
Qed.

(** The fields of the bundle that [inject] makes. *)
Lemma inject_fields (self : TrendingInjector.injector)
    (entities : TrendingInjector.entities) (language : str) (g : Random.rng) :
  exists g2 g3,
    TrendingInjector.b_hooks (TrendingInjector.inject self entities language g).1
      = (TrendingInjector._get_hooks self entities g2).1
    /\ TrendingInjector.b_ctas (TrendingInjector.inject self entities language g).1
       = (TrendingInjector._get_ctas self g3).1
    /\ TrendingInjector.b_hashtags (TrendingInjector.inject self entities language g).1
       = TrendingInjector._get_hashtags self entities
    /\ TrendingInjector.b_sound_suggestions
         (TrendingInjector.inject self entities language g).1
       = TrendingInjector._get_sound_suggestions self.
Proof.
  unfold TrendingInjector.inject.
  destruct (TrendingInjector._get_matching_format self entities g) as (f & g1).
  destruct (TrendingInjector._get_visual_style self entities g1) as (s & g2).
  exists g2.
  destruct (TrendingInjector._get_hooks self entities g2) as (h & g3).
  exists g3.
  destruct (TrendingInjector._get_ctas self g3) as (c & g4).
  simpl. auto.
Qed.

(** C7, the part that fails: a catalog may hold the same hook twice, and
    then the bundle does. *)
Lemma inject_repeats_hooks_of_catalog :
  TrendingInjector.b_hooks
    (TrendingInjector.inject repeated_hooks (entity_set [] [] [] []) (lit "id")
       (Random.Rng (fun _ => 0) 0)).1
  = [lit "Coba deh ini!"; lit "Coba deh ini!"]
  /\ ~ NoDup (TrendingInjector.b_hooks
                (TrendingInjector.inject repeated_hooks (entity_set [] [] [] [])
                   (lit "id") (Random.Rng (fun _ => 0) 0)).1).
Proof.
  split; [vm_compute; reflexivity|].
  intros H. vm_compute in H. apply NoDup_cons in H as (H & _).
  apply H. left.
Qed.

(** C7, amended: the bundle has at most 3 hooks and at most 2 calls to
    action, each made of cells of the catalog's list with no cell taken
    twice, so without repeats when the catalog's list has none; it has at
    most 15 hashtags, without duplicates, and at most 3 sounds. *)
Theorem inject_bounds (self : TrendingInjector.injector)
    (entities : TrendingInjector.entities) (language : str) (g : Random.rng) :
  length (TrendingInjector.b_hooks (TrendingInjector.inject self entities language g).1)
    <= 3
  /\ TrendingInjector.b_hooks (TrendingInjector.inject self entities language g).1
       ⊆+ default [] (TrendingInjector.hooks (TrendingInjector.data self))
  /\ (NoDup (default [] (TrendingInjector.hooks (TrendingInjector.data self))) ->
      NoDup (TrendingInjector.b_hooks
               (TrendingInjector.inject self entities language g).1))
  /\ length (TrendingInjector.b_ctas (TrendingInjector.inject self entities language g).1)
       <= 2
  /\ TrendingInjector.b_ctas (TrendingInjector.inject self entities language g).1
       ⊆+ default [] (TrendingInjector.cta (TrendingInjector.data self))
  /\ (NoDup (default [] (TrendingInjector.cta (TrendingInjector.data self))) ->
      NoDup (TrendingInjector.b_ctas
               (TrendingInjector.inject self entities language g).1))
  /\ length (TrendingInjector.b_hashtags
               (TrendingInjector.inject self entities language g).1) <= 15
  /\ NoDup (TrendingInjector.b_hashtags
              (TrendingInjector.inject self entities language g).1)
  /\ length (TrendingInjector.b_sound_suggestions
               (TrendingInjector.inject self entities language g).1) <= 3.
Proof.
  destruct (inject_fields self entities language g) as (g2 & g3 & -> & -> & -> & ->).
  destruct (get_hooks_sample self entities g2) as (Hh & Hhl).
  destruct (get_ctas_sample self g3) as (Hc & Hcl).
  destruct (get_hashtags_bounds self entities) as (Htl & Htn).
  pose proof (get_sound_suggestions_bound self) as Hs.
  repeat split; try assumption.
  - apply submseteq_NoDup, Hh.
  - apply submseteq_NoDup, Hc.
Qed.

Lemma inject_bounds_witness :
  NoDup (TrendingInjector.b_hooks
           (TrendingInjector.inject fallback_injector
              (entity_set [lit "skincare"] [lit "review"] [] []) (lit "id")
              (Random.Rng (fun n => n) 0)).1).
Proof.
  apply (inject_bounds fallback_injector
           (entity_set [lit "skincare"] [lit "review"] [] []) (lit "id")
           (Random.Rng (fun n => n) 0)).
  vm_compute. repeat constructor; intros H; inversion H; subst;
    try discriminate; match goal with H' : _ ∈ _ |- _ => inversion H' end.
Defined.

(** *** Updating the catalog *)

(** C9, the part that fails: new data that names one category of
    hashtags replaces the whole mapping; the category [general] of the
    catalog is lost, in memory and in the file. *)
Lemma update_data_replaces_hashtags :
  TrendingInjector.hashtags
    (TrendingInjector.data
       (TrendingInjector.update_data fallback_injector
          (TrendingInjector.Storage None true true) food_hashtags).1.1)
  = Some [(lit "food", [lit "#kuliner"])]
  /\ Dict.get (lit "general")
       (default []
          (TrendingInjector.hashtags (TrendingInjector.data fallback_injector)))
     = Some [lit "#viral"; lit "#fyp"; lit "#trending"]
  /\ Dict.get (lit "general")
       (default []
          (TrendingInjector.hashtags
             (TrendingInjector.data
                (TrendingInjector.update_data fallback_injector
                   (TrendingInjector.Storage None true true) food_hashtags).1.1)))
     = None
  /\ TrendingInjector.content
       (TrendingInjector.update_data fallback_injector
          (TrendingInjector.Storage None true true) food_hashtags).1.2
     = Some (TrendingInjector.data
               (TrendingInjector.update_data fallback_injector
                  (TrendingInjector.Storage None true true) food_hashtags).1.1).
Proof. repeat split; reflexivity. Qed.

(** C9, amended: [update_data] merges key by key at the top level: a key
    that the new data has takes the new value whole, any other keeps the
    catalog's.  The answer is [True] exactly when the file could be
    opened and the catalog dumped into it: the file then holds the
    merged catalog.  When the file cannot be opened it is as before;
    when the dump fails after the file was opened, the file no longer
    holds a catalog. *)
Theorem update_data_shallow_merge (self : TrendingInjector.injector)
    (file : TrendingInjector.storage) (new_data : TrendingInjector.catalog) :
  let merged := TrendingInjector.data
                  (TrendingInjector.update_data self file new_data).1.1 in
  TrendingInjector.formats merged
    = from_option Some (TrendingInjector.formats (TrendingInjector.data self))
        (TrendingInjector.formats new_data)
  /\ TrendingInjector.visual_styles merged
     = from_option Some (TrendingInjector.visual_styles (TrendingInjector.data self))
         (TrendingInjector.visual_styles new_data)
  /\ TrendingInjector.hooks merged
     = from_option Some (TrendingInjector.hooks (TrendingInjector.data self))
         (TrendingInjector.hooks new_data)
  /\ TrendingInjector.hashtags merged
     = from_option Some (TrendingInjector.hashtags (TrendingInjector.data self))
         (TrendingInjector.hashtags new_data)
  /\ TrendingInjector.cta merged
     = from_option Some (TrendingInjector.cta (TrendingInjector.data self))
         (TrendingInjector.cta new_data)
  /\ TrendingInjector.sounds merged
     = from_option Some (TrendingInjector.sounds (TrendingInjector.data self))
         (TrendingInjector.sounds new_data)
  /\ (TrendingInjector.update_data self file new_data).2
     = TrendingInjector.writable file && TrendingInjector.dumps file
  /\ (TrendingInjector.update_data self file new_data).1.2
     = if TrendingInjector.writable file then
         if TrendingInjector.dumps file
         then TrendingInjector.Storage (Some merged) true true
         else TrendingInjector.Storage None true false
       else file.
Proof.
  unfold TrendingInjector.update_data.
  destruct file as [content [|] [|]], new_data as [[f|] [v|] [h|] [t|] [c|] [s|]];
    simpl; repeat split; reflexivity.
Qed.

(** ** Sanitizing *)

Lemma strip_by_first (p : ascii -> bool) (s : str) (c : ascii) (t : str) :
  strip_by p s = c :: t -> p c = false.
Proof.
  unfold strip_by, lstrip_by, rstrip_by. intros H.
  destruct (dropwhile_suffix p (rev (dropwhile p s))) as (a & E & _).
  apply (f_equal (@rev ascii)) in E. rewrite rev_involutive, rev_app_distr, H in E.
  apply (dropwhile_head p s c (t ++ rev a)). exact E.
Qed.

Lemma strip_by_last (p : ascii -> bool) (s : str) (c : ascii) (t : str) :
  strip_by p s = t ++ [c] -> p c = false.
Proof.
  unfold strip_by, lstrip_by, rstrip_by. intros H.
  apply (f_equal (@rev ascii)) in H. rewrite rev_involutive, rev_app_distr in H.
  apply (dropwhile_head p (rev (dropwhile p s)) c (rev t)). exact H.
Qed.

(** The ends of the sanitized text are not white space. *)
Lemma sanitize_trimmed (text : str) (c : ascii) (t : str) :
  (InputValidator._sanitize text = c :: t -> isspace c = false)
  /\ (InputValidator._sanitize text = t ++ [c] -> isspace c = false).
Proof.
  unfold InputValidator._sanitize. split.
  - apply strip_by_first.
  - apply strip_by_last.
Qed.

(** C8, at the failing input: white space is collapsed before the tags
    are taken out, so the two spaces around a tag stay side by side. *)
Theorem sanitize_leaves_two_spaces :
  InputValidator._sanitize (lit "a <b> c") = lit "a  c"
  /\ contains (lit "  ") (InputValidator._sanitize (lit "a <b> c")) = true.
Proof. split; vm_compute; reflexivity. Qed.

(** ** The script *)

(** *** The matcher on a stretch of text *)


Lemma reads_nil (s : pos) : reads s [] (rest s) = s.
Proof. destruct s as [b r [a|] g]; reflexivity. Qed.

Lemma reads_read (s : pos) (c : ascii) (w t : str) :
  reads (read s c (w ++ t)) w t = reads s (c :: w) t.
Proof.
  destruct s as [b r o g]. unfold reads, read; simpl.
  f_equal; [destruct w; reflexivity|].
  destruct o; [|reflexivity]. rewrite <- app_assoc. reflexivity.
Qed.





Lemma run_seq_cons {R} (a : regex) (l : list regex) (s : pos) (k : pos -> option R) :
  run (seq (a :: l)) R s k = run a R s (fun s' => run (seq l) R s' k).
Proof. reflexivity. Qed.


























Lemma dropwhile_all (p : ascii -> bool) (a s : str) :
  Forall (fun c => p c = true) a -> dropwhile p (a ++ s) = dropwhile p s.
Proof. induction 1 as [|c a Hc _ IH]; [reflexivity|]. simpl. rewrite Hc. exact IH. Qed.

Lemma rev_last (s : str) (d : ascii) :
  s <> [] -> rev s = List.last s d :: rev (removelast s).
Proof.
  intros H. rewrite (app_removelast_last d H) at 1.
  rewrite rev_app_distr. reflexivity.
Qed.

(** [strip] gives back a text whose ends it does not strip, whatever
    strippable text follows it. *)
Lemma strip_by_line (p : ascii -> bool) (c : ascii) (w a : str) :
  p c = false -> p (List.last (c :: w) " "%char) = false ->
  Forall (fun x => p x = true) a ->
  strip_by p ((c :: w) ++ a) = c :: w.
Proof.
  intros Hc Hl Ha. unfold strip_by, lstrip_by, rstrip_by.
  cbn [app dropwhile]. rewrite Hc.
  change (c :: w ++ a) with ((c :: w) ++ a).
  rewrite rev_app_distr, dropwhile_all by (apply List.Forall_rev, Ha).
  rewrite (rev_last (c :: w) " "%char) by discriminate.
  cbn [dropwhile]. rewrite Hl.
  rewrite <- (rev_last (c :: w) " "%char) by discriminate.
  apply rev_involutive.
Qed.









(** ** The tests of the repository, on the model *)

(** tests/test_input_validator.py, [test_sanitize_extra_whitespace] and
    [test_validate_short_input] *)
Example test_sanitize_extra_whitespace :
  InputValidator._sanitize (lit "Test    with    extra    spaces")
  = lit "Test with extra spaces".
Proof. vm_compute. reflexivity. Qed.

Example test_validate_short_input :
  Dict.get (lit "valid")
    (InputValidator.validate (fun _ => None) InputValidator.init (lit "tes"))
  = Some (InputValidator.VBool false).
Proof. vm_compute. reflexivity. Qed.

(** tests/test_prompt_engine.py, [test_extract_master_prompt],
    [test_extract_visual_specs], [test_extract_script] and
    [test_extract_hashtags] *)
Example test_extract_master_prompt :
  _extract_master_prompt
    (lit "# MASTER PROMPT (Text-to-Video)\nTest prompt content\n\n# VISUAL SPECIFICATIONS")
  = Ok (lit "Test prompt content").
Proof. vm_compute. reflexivity. Qed.

Example test_extract_visual_specs :
  _extract_visual_specs
    (lit "# VISUAL SPECIFICATIONS\n| Element | Value |\n|---------|-------|\n| Style | Cinematic |\n| Camera | Close-up |\n")
  = Ok [ (lit "Style", lit "Cinematic"); (lit "Camera", lit "Close-up");
         (lit "Lighting", lit "N/A"); (lit "Aspect Ratio", lit "9:16");
         (lit "Mood", lit "N/A") ].
Proof. vm_compute. reflexivity. Qed.

Example test_extract_script :
  _extract_script
    (lit "# SCRIPT\n## Hook [0:00-0:03]\nTest hook\n\n## Body [0:03-0:45]\nTest body\n\n## CTA [0:45-0:60]\nTest CTA")
  = [ (lit "hook", lit "Test hook"); (lit "body", lit "Test body");
      (lit "cta", lit "Test CTA") ].
Proof. vm_compute. reflexivity. Qed.

Example test_extract_hashtags :
  _extract_hashtags (lit "# HASHTAGS\n#skincare #skincareroutine #fyp\n")
    (TrendingInjector.Bundle None None [] [] [] [])
  = [lit "skincare"; lit "skincareroutine"; lit "fyp"].
Proof. vm_compute. reflexivity. Qed.

(** * Further properties *)

(** ** The matcher reads what the pattern denotes *)

Lemma greedy_sound {R} (p : ascii -> bool) (k : pos -> option R) (x : R) (t : str) :
  forall s, rest s = t -> greedy p t s k = Some x ->
  exists u s', rest s = u ++ rest s' /\ Forall (fun c => p c = true) u /\ k s' = Some x.
Proof.
  induction t as [|c t IH]; intros s Hs H; simpl in H.
  - exists [], s. auto.
  - destruct (p c) eqn:Ec; [|exists [], s; auto].
    destruct (greedy p t (read s c t) k) eqn:Eg.
    + injection H as ->. apply IH in Eg as (u & s' & Hu & HF & Hk); [|reflexivity].
      exists (c :: u), s'. simpl in Hu. rewrite Hs, Hu. auto.
    + exists [], s. auto.
Qed.

Lemma lazy_sound {R} (p : ascii -> bool) (k : pos -> option R) (x : R) (t : str) :
  forall s, rest s = t -> lazy p t s k = Some x ->
  exists u s', rest s = u ++ rest s' /\ Forall (fun c => p c = true) u /\ k s' = Some x.
Proof.
  induction t as [|c t IH]; intros s Hs H; simpl in H.
  - destruct (k s) eqn:Ek; [|discriminate]. injection H as ->. exists [], s. auto.
  - destruct (k s) eqn:Ek.
    + injection H as ->. exists [], s. auto.
    + destruct (p c) eqn:Ec; [|discriminate].
      apply IH in H as (u & s' & Hu & HF & Hk); [|reflexivity].
      exists (c :: u), s'. simpl in Hu. rewrite Hs, Hu. auto.
Qed.

(** Whenever [run] succeeds, the continuation was handed a position
    that lies behind a text the pattern denotes. *)
Lemma run_sound (r : regex) :
  forall R (s : pos) (k : pos -> option R) (x : R), run r R s k = Some x ->
  exists u s', rest s = u ++ rest s' /\ den r u /\ k s' = Some x.
Proof.
  induction r as [| |p|r1 IH1 r2 IH2|r1 IH1 r2 IH2|p|p| | |r1 IH1|r1 IH1];
    intros R s k x H; simpl in H.
  - discriminate.
  - exists [], s. simpl. auto.
  - destruct (rest s) as [|c t] eqn:Es; [discriminate|].
    destruct (p c) eqn:Ec; [|discriminate].
    exists [c], (read s c t). simpl. eauto.
  - apply IH1 in H as (u1 & s1 & E1 & D1 & H).
    apply IH2 in H as (u2 & s2 & E2 & D2 & H).
    exists (u1 ++ u2), s2. rewrite E1, E2, app_assoc. simpl. eauto 10.
  - destruct (run r1 R s k) eqn:E1.
    + injection H as ->. apply IH1 in E1 as (u & s' & ? & ? & ?).
      exists u, s'. simpl. auto.
    + apply IH2 in H as (u & s' & ? & ? & ?). exists u, s'. simpl. auto.
  - apply greedy_sound in H; [exact H | reflexivity].
  - apply lazy_sound in H; [exact H | reflexivity].
  - destruct (bos s); [|discriminate]. exists [], s. simpl. auto.
  - destruct (at_eos (rest s)); [|discriminate]. exists [], s. simpl. auto.
  - apply IH1 in H as (u & s' & E & D & H).
    exists u, (close_group s'). simpl in *. auto.
  - destruct (run r1 unit s _); [|discriminate]. exists [], s. simpl. auto.
Qed.

Lemma match_at_sound (r : regex) (b : bool) (s : str) (m : pos) :
  match_at r b s = Some m -> exists u, s = u ++ rest m /\ den r u.
Proof.
  intros H. apply run_sound in H as (u & s' & E & D & [= ->]). eauto.
Qed.

Lemma match_at_length (r : regex) (b : bool) (s : str) (m : pos) (u : str) :
  s = u ++ rest m -> take (length s - length (rest m)) s = u.
Proof.
  intros ->. rewrite length_app, Nat.add_sub. apply take_app_length.
Qed.

Lemma contains_cons (sub : str) (c : ascii) (s : str) :
  contains sub s = true -> contains sub (c :: s) = true.
Proof. intros H. simpl. rewrite H. apply orb_true_r. Qed.

Lemma contains_prefix (u t : str) : contains u (u ++ t) = true.
Proof. apply contains_spec. exists [], t. reflexivity. Qed.

Lemma findall_from_here (r : regex) (b : bool) (c : ascii) (t : str) :
  findall_from r 0 b (c :: t)
  = match match_at r b (c :: t) with
    | Some m =>
        take (length (c :: t) - length (rest m)) (c :: t)
        :: findall_from r (length (c :: t) - length (rest m) - 1) false t
    | None => findall_from r 0 false t
    end.
Proof. reflexivity. Qed.

(** ** The entities of a text *)

(** A literal pattern reads the literal, or nothing. *)
Lemma run_str_ {R} (w : str) :
  forall (s : pos) (k : pos -> option R),
  run (str_ w) R s k
  = if startswith w (rest s) then k (reads s w (drop (length w) (rest s))) else None.
Proof.
  induction w as [|c w IH]; intros s k.
  - simpl. rewrite reads_nil. reflexivity.
  - change (str_ (c :: w)) with (Cat (chr c) (str_ w)).
    cbn [run chr]. destruct (rest s) as [|d t] eqn:Es; [reflexivity|].
    cbn [startswith]. destruct (Ascii.eqb c d) eqn:E; [|reflexivity].
    apply ascii_eqb_true in E. subst d. rewrite IH. cbn [rest read andb].
    destruct (startswith w t) eqn:Ew; [|reflexivity].
    apply startswith_spec in Ew as (t' & ->).
    cbn [length drop]. rewrite drop_app_length, reads_read. reflexivity.
Qed.

(** A keyword [r"a|b|c"] matches with its first alternative that the
    text starts with. *)
Lemma match_at_kw (alternatives : list string) (b : bool) (s : str) :
  match_at (InputValidator.kw alternatives) b s
  = match first_alternative alternatives s with
    | Some w => Some (reads (start_at b s) (lit w) (drop (length (lit w)) s))
    | None => None
    end.
Proof.
  unfold match_at, InputValidator.kw, first_alternative.
  induction alternatives as [|w ws IH]; [reflexivity|].
  cbn [map alt foldr run find]. rewrite run_str_. cbn [rest start_at].
  destruct (startswith (lit w) s); [reflexivity | exact IH].
Qed.

Lemma first_alternative_starts (alternatives : list string) (t : str) (w : string) :
  first_alternative alternatives t = Some w ->
  In w alternatives /\ startswith (lit w) t = true.
Proof.
  unfold first_alternative. intros H. apply find_some in H. exact H.
Qed.

(** What [findall] returns for a keyword: at some place of the subject,
    the first alternative that the text starts with there. *)
Lemma findall_from_kw (alternatives : list string) (s : str) :
  forall skip b e, In e (findall_from (InputValidator.kw alternatives) skip b s) ->
  exists t w, first_alternative alternatives t = Some w /\ e = lit w
              /\ contains e s = true.
Proof.
  induction s as [|c t IH]; intros skip b e H.
  - simpl in H. destruct skip; [|destruct H].
    rewrite match_at_kw in H.
    destruct (first_alternative alternatives []) as [w|] eqn:Ew; [|destruct H].
    destruct H as [<- | []]. exists [], w.
    apply first_alternative_starts in Ew as Hw. destruct Hw as (_ & Hw).
    destruct (lit w); [auto | discriminate Hw].
  - destruct skip as [|n].
    + rewrite findall_from_here, match_at_kw in H.
      destruct (first_alternative alternatives (c :: t)) as [w|] eqn:Ew.
      * cbn [rest reads] in H. destruct H as [<- | H].
        -- exists (c :: t), w. split; [exact Ew|].
           apply first_alternative_starts in Ew as (_ & Hw).
           apply startswith_spec in Hw as (t' & E). rewrite E.
           rewrite drop_app_length, length_app, Nat.add_sub, take_app_length.
           auto using contains_prefix.
        -- apply IH in H as (t' & w' & ? & ? & ?). eauto 6 using contains_cons.
      * apply IH in H as (t' & w' & ? & ? & ?). eauto 6 using contains_cons.
    + change (In e (findall_from (InputValidator.kw alternatives) n false t)) in H.
      apply IH in H as (t' & w' & ? & ? & ?). eauto 6 using contains_cons.
Qed.

(** [dict.fromkeys] keeps the elements of the list, and no other. *)
Lemma dict_set_keys_In {V} (x k : str) (v : V) (d : Dict.dict V) :
  In x (Dict.keys (Dict.set k v d)) <-> x = k \/ In x (Dict.keys d).
Proof.
  rewrite dict_set_keys. destruct (mem k (Dict.keys d)) eqn:E.
  - apply mem_spec in E. split; [auto | intros [-> | H]; assumption].
  - rewrite in_app_iff. simpl. split; intros H; decompose [or] H; auto.
    contradiction.
Qed.

Lemma fromkeys_In (x : str) (l : list str) :
  In x (Dict.keys (Dict.fromkeys l)) <-> In x l.
Proof.
  unfold Dict.fromkeys.
  assert (forall acc : Dict.dict unit,
            In x (Dict.keys (foldl (fun acc k => Dict.set k tt acc) acc l))
            <-> In x (Dict.keys acc) \/ In x l) as H.
  { induction l as [|k l IH]; intros acc; simpl.
    - split; [auto | intros [H | []]; exact H].
    - rewrite IH, dict_set_keys_In. split; intros H; decompose [or] H; auto. }
  rewrite H. simpl. split; [intros [[] | G]; exact G | auto].
Qed.

Lemma list_set_In (x : str) (l : list str) :
  In x (InputValidator.list_set l) <-> In x l.
Proof. apply fromkeys_In. Qed.

Lemma find_keywords_In (e : str) (table : list (list string)) (s : str) :
  In e (InputValidator.find_keywords (map InputValidator.kw table) s) ->
  exists alternatives t w,
    In alternatives table /\ first_alternative alternatives t = Some w
    /\ e = lit w /\ contains e s = true.
Proof.
  unfold InputValidator.find_keywords. rewrite in_flat_map.
  intros (r & Hr & He). apply in_map_iff in Hr as (alternatives & <- & Ha).
  apply findall_from_kw in He as (t & w & ? & ? & ?). eauto 8.
Qed.


(** [_extract_entities], table by table. *)
Lemma extract_entities_tables (text : str) :
  InputValidator._extract_entities text
  = map (fun item =>
           (fst item,
            InputValidator.list_set
              (InputValidator.find_keywords (map InputValidator.kw (snd item))
                                            (lower text))))
        keyword_tables.
Proof. reflexivity. Qed.

(** X1: every list of the entities that [_extract_entities] returns is
    free of repetitions, and each of its elements is a word of the
    keyword table of its key that occurs in the text in lower case. *)
Theorem extract_entities_from_tables (text key : str) (l : list str) (e : str) :
  In (key, l) (InputValidator._extract_entities text) ->
  NoDup l
  /\ (In e l ->
      contains e (lower text) = true
      /\ exists table w, Dict.get key keyword_tables = Some table
                         /\ In w (concat table) /\ e = lit w).
Proof.
  rewrite extract_entities_tables. intros H.
  apply in_map_iff in H as ([key' table] & [= <- <-] & Hin). cbn [fst snd].
  split; [apply fromkeys_NoDup|]. intros He.
  apply list_set_In, find_keywords_In in He
    as (alternatives & t & w & Ha & Hw & -> & Hc).
  split; [exact Hc|]. exists table, w.
  apply first_alternative_starts in Hw as (Hw & _).
  split; [|split; [|reflexivity]].
  - simpl in Hin. decompose [or] Hin; try contradiction;
      match goal with E : _ = (_, _) |- _ => injection E as <- <- end; reflexivity.
  - apply in_concat. exists alternatives. split; assumption.
Qed.

Lemma extract_entities_from_tables_witness :
  In (lit "products", [lit "skincare"])
     (InputValidator._extract_entities (lit "Review SKINCARE terbaik"))
  /\ NoDup [lit "skincare"]
  /\ (In (lit "skincare") [lit "skincare"] ->
      contains (lit "skincare") (lower (lit "Review SKINCARE terbaik")) = true
      /\ exists table w, Dict.get (lit "products") keyword_tables = Some table
                         /\ In w (concat table) /\ lit "skincare" = lit w).
Proof.
  split.
  - vm_compute. left. reflexivity.
  - apply (extract_entities_from_tables (lit "Review SKINCARE terbaik")).
    vm_compute. left. reflexivity.
Defined.

(** A word that comes after a word it starts with is never the first
    alternative. *)
Lemma startswith_trans (p q t : str) :
  startswith p q = true -> startswith q t = true -> startswith p t = true.
Proof.
  rewrite !startswith_spec. intros (a & ->) (b & ->).
  exists (a ++ b). rewrite app_assoc. reflexivity.
Qed.

Lemma first_alternative_shadowed (alternatives : list string) (w : string) (t : str) :
  shadowed alternatives w = true -> first_alternative alternatives t <> Some w.
Proof.
  unfold first_alternative.
  induction alternatives as [|v r IH]; simpl; [discriminate|].
  destruct (String.eqb v w) eqn:E; [discriminate|].
  apply String.eqb_neq in E. intros H.
  destruct (startswith (lit v) t) eqn:Ev; [congruence|].
  apply orb_true_iff in H as [H | H]; [|exact (IH H)].
  intros Hf. apply find_some in Hf as (_ & Hw).
  rewrite (startswith_trans _ _ _ H Hw) in Ev. discriminate.
Qed.

Lemma never_found (table : list (list string)) (w : string) (s : str) :
  forallb (fun alternatives =>
             negb (existsb (String.eqb w) alternatives) || shadowed alternatives w)
          table = true ->
  forallb (fun alternatives =>
             forallb (fun v => String.eqb v w || negb (Py.eqb (lit v) (lit w)))
                     alternatives)
          table = true ->
  ~ In (lit w) (InputValidator.find_keywords (map InputValidator.kw table) s).
Proof.
  intros Hs Hl Hin.
  apply find_keywords_In in Hin as (alternatives & t & v & Ha & Hv & E & _).
  rewrite forallb_forall in Hs, Hl. specialize (Hs _ Ha). specialize (Hl _ Ha).
  pose proof (first_alternative_starts _ _ _ Hv) as (Hin & _).
  rewrite forallb_forall in Hl. specialize (Hl _ Hin).
  apply orb_true_iff in Hl as [Hl | Hl].
  - apply String.eqb_eq in Hl. subst v.
    apply orb_true_iff in Hs as [Hs | Hs].
    + apply negb_true_iff in Hs.
      assert (existsb (String.eqb w) alternatives = true) as Hex
        by (apply existsb_exists; exists w; split; [exact Hin | apply String.eqb_refl]).
      congruence.
    + exact (first_alternative_shadowed _ _ _ Hs Hv).
  - apply negb_true_iff in Hl. rewrite E, eqb_refl in Hl. discriminate.
Qed.

(** X2: the alternatives [teens], [adults], [students], [moms] and
    [gamers] of the audience keywords, and [sadness] of the emotion
    keywords, are never extracted: each comes after an alternative it
    starts with ([teen|teens]), which matches first. *)
Theorem shadowed_alternatives_never_extracted (text : str) :
  Forall (fun w => ~ In (lit w) (InputValidator._extract_target_audience text))
         ["teens"; "adults"; "students"; "moms"; "gamers"]%string
  /\ ~ In (lit "sadness") (InputValidator._extract_emotions text).
Proof.
  split.
  - apply List.Forall_forall. intros w Hw H.
    apply (proj1 (list_set_In _ _)) in H. revert H.
    apply (never_found (default [] (Dict.get (lit "target_audience") keyword_tables)));
      simpl in Hw; decompose [or] Hw; try contradiction; subst w;
      vm_compute; reflexivity.
  - intros H. apply (proj1 (list_set_In _ _)) in H. revert H.
    apply (never_found (default [] (Dict.get (lit "emotions") keyword_tables)));
      vm_compute; reflexivity.
Qed.

(** ** Sanitizing: what is kept *)

Lemma sublist_Forall {A} (P : A -> Prop) (l k : list A) :
  l `sublist_of` k -> Forall P k -> Forall P l.
Proof.
  induction 1 as [|x l k _ IH|x l k _ IH]; intros HF.
  - constructor.
  - apply Forall_cons in HF as (Hx & HF). constructor; auto.
  - apply Forall_cons in HF as (_ & HF). auto.
Qed.

(** [re.sub(r, "", s)] only takes characters away. *)
Lemma remove_from_sublist (r : regex) (s : str) :
  forall skip b, remove_from r skip b s `sublist_of` s.
Proof.
  induction s as [|c t IH]; intros skip b; cbn [remove_from]; [constructor|].
  destruct skip as [|n]; [|apply sublist_cons, IH].
  destruct (match_at r b (c :: t)) as [m|].
  - destruct (length (c :: t) - length (rest m));
      [apply sublist_skip, IH | apply sublist_cons, IH].
  - apply sublist_skip, IH.
Qed.

Lemma remove_sublist (r : regex) (s : str) : Re.remove r s `sublist_of` s.
Proof. apply remove_from_sublist. Qed.

Lemma strip_by_sublist (p : ascii -> bool) (s : str) : strip_by p s `sublist_of` s.
Proof.
  destruct (strip_by_spec p s) as (a & b & E & _). rewrite E at 2.
  apply sublist_inserts_l, sublist_inserts_r. reflexivity.
Qed.

(** The words of [s.split()] are not empty and hold no white space;
    they hold characters of [s] only. *)
Lemma split_ws_from_Forall (P : ascii -> Prop) (s : str) :
  forall cur, Forall P cur -> Forall P s -> Forall (Forall P) (split_ws_from cur s).
Proof.
  induction s as [|c r IH]; intros cur Hcur Hs; cbn [split_ws_from].
  - destruct cur; constructor; [|constructor]. apply List.Forall_rev, Hcur.
  - apply Forall_cons in Hs as (Hc & Hs). destruct (isspace c).
    + destruct cur.
      * apply IH; [constructor | exact Hs].
      * constructor; [apply List.Forall_rev, Hcur | apply IH; [constructor | exact Hs]].
    + apply IH; [constructor; assumption | exact Hs].
Qed.

Lemma split_ws_from_words (s : str) :
  forall cur, Forall (fun c => isspace c = false) cur ->
  Forall (fun w => w <> [] /\ Forall (fun c => isspace c = false) w)
         (split_ws_from cur s).
Proof.
  assert (forall (c : ascii) (cur : str), rev (c :: cur) <> []) as Hne.
  { intros c cur H. apply (f_equal (@length ascii)) in H.
    rewrite length_rev in H. discriminate H. }
  induction s as [|c r IH]; intros cur Hcur; cbn [split_ws_from].
  - destruct cur; constructor; [|constructor].
    split; [apply Hne | apply List.Forall_rev, Hcur].
  - destruct (isspace c) eqn:Ec.
    + destruct cur.
      * apply IH. constructor.
      * constructor; [|apply IH; constructor].
        split; [apply Hne | apply List.Forall_rev, Hcur].
    + apply IH. constructor; assumption.
Qed.

Lemma join_cons (sep x : str) (y : str) (r : list str) :
  join sep (x :: y :: r) = x ++ sep ++ join sep (y :: r).
Proof. reflexivity. Qed.

Lemma join_length_cons (sep x : str) (r : list str) :
  length (join sep (x :: r)) <= length x + length sep + length (join sep r).
Proof.
  destruct r as [|y r]; [simpl; lia|].
  rewrite join_cons, !length_app. lia.
Qed.

Lemma join_split_length (s : str) :
  forall cur, length (join (lit " ") (split_ws_from cur s)) <= length cur + length s.
Proof.
  induction s as [|c r IH]; intros cur; cbn [split_ws_from].
  - destruct cur; [simpl; lia|].
    cbn [join]. rewrite length_rev. lia.
  - destruct (isspace c).
    + destruct cur as [|d cur].
      * specialize (IH []). simpl in *. lia.
      * pose proof (join_length_cons (lit " ") (rev (d :: cur)) (split_ws_from [] r)) as H.
        specialize (IH []). rewrite length_rev in H.
        change (length (lit " ")) with 1 in H. simpl in *. lia.
    + specialize (IH (c :: cur)). simpl in *. lia.
Qed.

Lemma join_Forall (P : ascii -> Prop) (sep : str) (ws : list str) :
  Forall P sep -> Forall (Forall P) ws -> Forall P (join sep ws).
Proof.
  intros Hsep. induction ws as [|x r IH]; intros H; [constructor|].
  apply Forall_cons in H as (Hx & Hr). destruct r as [|y r]; [exact Hx|].
  rewrite join_cons. apply Forall_app. split; [exact Hx|].
  apply Forall_app. split; [exact Hsep | exact (IH Hr)].
Qed.

(** The three steps of [_sanitize] after the first. *)
Lemma sanitize_steps (text : str) :
  InputValidator._sanitize text `sublist_of` join (lit " ") (split text).
Proof.
  unfold InputValidator._sanitize, strip.
  etransitivity; [apply strip_by_sublist|].
  cbn [foldl InputValidator.dangerous_patterns].
  repeat (etransitivity; [apply remove_sublist|]). reflexivity.
Qed.

(** X3: [_sanitize] never makes a text longer: an input of at most
    2000 characters is never too long for [_validate_length]. *)
Theorem sanitize_never_longer (text : str) :
  length (InputValidator._sanitize text) <= length text.
Proof.
  etransitivity; [apply sublist_length, sanitize_steps|].
  apply (join_split_length text []).
Qed.

(** X4: the white space that [_sanitize] leaves is made of plain
    spaces only (tabs and line breaks are gone), and the result neither
    starts nor ends with one. *)
Theorem sanitize_white_space (text : str) :
  Forall (fun c => isspace c = true -> c = " "%char) (InputValidator._sanitize text)
  /\ (forall c t, InputValidator._sanitize text = c :: t -> isspace c = false)
  /\ (forall c t, InputValidator._sanitize text = t ++ [c] -> isspace c = false).
Proof.
  split; [|split].
  - apply (sublist_Forall _ _ _ (sanitize_steps text)).
    apply join_Forall; [repeat constructor|].
    pose proof (split_ws_from_words text [] ltac:(constructor)) as H.
    apply (Forall_impl _ _ _ H). intros w (_ & Hw).
    apply (Forall_impl _ _ _ Hw). intros c Hc Hs. congruence.
  - intros c t. apply strip_by_first.
  - intros c t. apply strip_by_last.
Qed.

(** *** A text that no pattern of [_sanitize] can match *)

Lemma den_seq_In (l : list regex) (r : regex) (u : str) :
  den (seq l) u -> In r l -> exists a v b, u = a ++ v ++ b /\ den r v.
Proof.
  revert u. induction l as [|x l IH]; intros u H Hin; [destruct Hin|].
  change (seq (x :: l)) with (Cat x (seq l)) in H. cbn [den] in H.
  destruct H as (u1 & u2 & -> & H1 & H2). destruct Hin as [-> | Hin].
  - exists [], u1, u2. auto.
  - destruct (IH _ H2 Hin) as (a & v & b & -> & Hv).
    exists (u1 ++ a), v, b. rewrite <- app_assoc. auto.
Qed.

Lemma lower_char_plain (c d : ascii) :
  plain_char c = false -> lower_char c = lower_char d -> plain_char d = false.
Proof.
  intros Hc. assert (is_one_of "<:=" c = true) as H
    by (unfold plain_char in Hc; apply negb_false_iff, Hc).
  unfold is_one_of in H. simpl in H.
  repeat (apply orb_true_iff in H as [H | H]; [apply ascii_eqb_true in H; subst c|]);
    try discriminate H;
    destruct d as [[] [] [] [] [] [] [] []]; vm_compute; congruence.
Qed.

(** No text that has a character [c] of [<:=], in either case, at a
    place where the pattern wants it, is made of plain characters. *)
Lemma den_needs (l : list regex) (c : ascii) (u : str) :
  den (seq l) u -> In (chr c) l \/ In (chr_i c) l -> plain_char c = false ->
  ~ Forall (fun d => plain_char d = true) u.
Proof.
  intros H Hin Hc HF.
  assert (exists a d b, u = a ++ [d] ++ b /\ lower_char c = lower_char d)
    as (a & d & b & -> & Hd).
  { destruct Hin as [Hin | Hin];
      destruct (den_seq_In _ _ _ H Hin) as (a & v & b & -> & (d & -> & Hd));
      exists a, d, b; split; try reflexivity.
    - apply ascii_eqb_true in Hd. congruence.
    - apply ascii_eqb_true in Hd. exact Hd. }
  apply Forall_app in HF as (_ & HF). apply Forall_cons in HF as (HF & _).
  rewrite (lower_char_plain c d Hc Hd) in HF. discriminate HF.
Qed.

Lemma den_str_i_needs (w : str) (c : ascii) (u : str) :
  den (str_i w) u -> In c w -> plain_char c = false ->
  ~ Forall (fun d => plain_char d = true) u.
Proof.
  intros H Hin. apply (den_needs _ c u H). right. apply in_map, Hin.
Qed.

(** A pattern that matches no text of plain characters takes nothing
    away from such a text. *)
Lemma remove_from_plain (r : regex) (s : str) :
  (forall u, den r u -> ~ Forall (fun d => plain_char d = true) u) ->
  Forall (fun d => plain_char d = true) s ->
  forall b, remove_from r 0 b s = s.
Proof.
  intros Hr. induction s as [|c t IH]; intros HF b; [reflexivity|].
  cbn [remove_from].
  destruct (match_at r b (c :: t)) as [m|] eqn:Em.
  - exfalso. apply match_at_sound in Em as (u & E & D).
    apply (Hr u D). rewrite E in HF. apply Forall_app in HF as (HF & _). exact HF.
  - f_equal. apply IH. apply Forall_cons in HF as (_ & HF). exact HF.
Qed.

Lemma remove_plain (r : regex) (s : str) :
  (forall u, den r u -> ~ Forall (fun d => plain_char d = true) u) ->
  Forall (fun d => plain_char d = true) s -> Re.remove r s = s.
Proof. intros Hr HF. apply remove_from_plain; assumption. Qed.

Lemma removelast_last (x : str) (d : ascii) :
  x <> [] -> x = removelast x ++ [List.last x d].
Proof. intros H. apply app_removelast_last, H. Qed.

Lemma last_app_cons (x : str) (c : ascii) (y : str) (d : ascii) :
  List.last (x ++ c :: y) d = List.last (c :: y) d.
Proof.
  induction x as [|a x IH]; [reflexivity|].
  change ((a :: x) ++ c :: y) with (a :: (x ++ c :: y)).
  destruct (x ++ c :: y) eqn:E; [destruct x; discriminate E|]. exact IH.
Qed.

(** The first and the last character of words joined by a space are
    those of the first and of the last word. *)
Lemma join_words_edges (ws : list str) :
  ws <> [] ->
  Forall (fun w => w <> [] /\ Forall (fun c => isspace c = false) w) ws ->
  exists c w, join (lit " ") ws = c :: w /\ isspace c = false
              /\ isspace (List.last (c :: w) " "%char) = false.
Proof.
  induction ws as [|x r IH]; intros Hne HF; [contradiction|].
  apply Forall_cons in HF as ((Hx & Hxs) & Hr).
  destruct x as [|c x]; [contradiction|].
  destruct r as [|y r].
  - exists c, x. split; [reflexivity|]. split.
    + apply Forall_cons in Hxs as (Hc & _). exact Hc.
    + rewrite List.Forall_forall in Hxs. apply Hxs.
      rewrite (removelast_last (c :: x) " "%char) at 2 by discriminate.
      apply in_app_iff. right. left. reflexivity.
  - destruct (IH ltac:(discriminate) Hr) as (d & w & E & Hd & Hl).
    rewrite join_cons, E. exists c, (x ++ lit " " ++ d :: w).
    split; [reflexivity|]. split.
    + apply Forall_cons in Hxs as (Hc & _). exact Hc.
    + replace (c :: x ++ lit " " ++ d :: w) with ((c :: x ++ lit " ") ++ d :: w)
        by (simpl; rewrite <- app_assoc; reflexivity).
      rewrite last_app_cons. exact Hl.
Qed.

(** X5: on a text without [<], [:] and [=], [_sanitize] is the
    normalisation of the white space and nothing else: the words of the
    text, joined by single spaces. *)
Theorem sanitize_plain_text (text : str) :
  Forall (fun c => plain_char c = true) text ->
  InputValidator._sanitize text = join (lit " ") (split text).
Proof.
  intros HF. unfold InputValidator._sanitize.
  assert (Forall (fun c => plain_char c = true) (join (lit " ") (split text))) as HJ.
  { apply join_Forall; [repeat constructor|].
    apply split_ws_from_Forall; [constructor | exact HF]. }
  cbv zeta. cbn [foldl InputValidator.dangerous_patterns].
  rewrite (remove_plain InputValidator.tag_pattern).
  2:{ intros u D. apply (den_needs _ "<"%char u D); [|reflexivity].
      left. left. reflexivity. }
  2: exact HJ.
  rewrite (remove_plain (str_i (lit "javascript:"))).
  2:{ intros u D. apply (den_str_i_needs _ ":"%char u D); [|reflexivity].
      vm_compute. repeat (first [left; reflexivity | right]). }
  2: exact HJ.
  rewrite (remove_plain (seq [str_i (lit "on"); plus word; Star space; chr_i "="])).
  2:{ intros u D. apply (den_needs _ "="%char u D); [|reflexivity].
      right. do 3 right. left. reflexivity. }
  2: exact HJ.
  rewrite (remove_plain (str_i (lit "data:text/html"))).
  2:{ intros u D. apply (den_str_i_needs _ ":"%char u D); [|reflexivity].
      vm_compute. repeat (first [left; reflexivity | right]). }
  2: exact HJ.
  destruct (split text) as [|x r] eqn:Es; [reflexivity|].
  pose proof (split_ws_from_words text [] ltac:(constructor)) as Hw.
  fold (split text) in Hw. rewrite Es in Hw.
  destruct (join_words_edges (x :: r) ltac:(discriminate) Hw) as (c & w & E & Hc & Hl).
  rewrite E. unfold strip.
  rewrite <- (app_nil_r (c :: w)) at 1.
  apply strip_by_line; [exact Hc | exact Hl | constructor].
Qed.

Lemma sanitize_plain_text_witness :
  Forall (fun c => plain_char c = true) (lit "  halo \t dunia\n")
  /\ InputValidator._sanitize (lit "  halo \t dunia\n")
     = join (lit " ") (split (lit "  halo \t dunia\n")).
Proof.
  assert (Forall (fun c => plain_char c = true) (lit "  halo \t dunia\n")) as H
    by (repeat constructor).
  split; [exact H | apply (sanitize_plain_text _ H)].
Defined.

(** ** Trending elements: what comes from the catalog *)

Lemma choice_In {A} (l : list A) (g : Random.rng) :
  l <> [] -> exists x, (Random.choice l g).1 = Some x /\ In x l.
Proof.
  intros Hl. unfold Random.choice, Random.randbelow. cbn [fst].
  destruct (lookup_lt_is_Some_2 l (Random.source g (Random.drawn g) `mod` length l))
    as (x & Hx).
  - apply Nat.mod_upper_bound. destruct l; [contradiction | discriminate].
  - exists x. split; [exact Hx|]. apply list_elem_of_In.
    apply (list_elem_of_lookup_2 _ _ _ Hx).
Qed.

Lemma first_matching_format_In (formats : list TrendingInjector.format_entry)
    (topics : list str) (f : TrendingInjector.format_entry) :
  TrendingInjector.first_matching_format formats topics = Some f -> In f formats.
Proof.
  induction formats as [|x r IH]; simpl; [discriminate|].
  destruct (existsb _ topics); [intros [= ->]; auto | auto].
Qed.

(** X6: the format that [_get_matching_format] returns is a format of
    the catalog; it returns [None] only for a catalog without formats. *)
Theorem get_matching_format_from_catalog (self : TrendingInjector.injector)
    (entities : TrendingInjector.entities) (g : Random.rng) :
  match (TrendingInjector._get_matching_format self entities g).1 with
  | Some f =>
      In f (default [] (TrendingInjector.formats (TrendingInjector.data self)))
  | None => default [] (TrendingInjector.formats (TrendingInjector.data self)) = []
  end.
Proof.
  unfold TrendingInjector._get_matching_format. cbv zeta.
  destruct (TrendingInjector.first_matching_format _ _) as [f|] eqn:E.
  - apply first_matching_format_In in E. exact E.
  - destruct (default [] _) as [|x r] eqn:Ef; [reflexivity|].
    destruct (choice_In (x :: r) g ltac:(discriminate)) as (y & -> & Hy). exact Hy.
Qed.

(** X7: the style that [_get_visual_style] returns is a style of the
    catalog, and it returns [None] only for a catalog without styles;
    when a keyword of a style occurs in the products and topics joined
    by spaces, no random number is drawn. *)
Theorem get_visual_style_from_catalog (self : TrendingInjector.injector)
    (entities : TrendingInjector.entities) (g : Random.rng) :
  let styles :=
    default [] (TrendingInjector.visual_styles (TrendingInjector.data self)) in
  let all_keywords :=
    join (lit " ") (Dict.get_or (lit "products") [] entities
                    ++ Dict.get_or (lit "topics") [] entities) in
  match (TrendingInjector._get_visual_style self entities g).1 with
  | Some s => In s styles
  | None => styles = []
  end
  /\ (Exists (fun s => Exists (fun keyword => contains keyword all_keywords = true)
                          (default [] (TrendingInjector.style_keywords s))) styles ->
      (TrendingInjector._get_visual_style self entities g).2 = g).
Proof.
  unfold TrendingInjector._get_visual_style. cbv zeta.
  destruct (find _ _) as [s|] eqn:E.
  - split; [|reflexivity]. apply find_some in E as (E & _). exact E.
  - split.
    + destruct (default [] _) as [|x r] eqn:Ef; [reflexivity|].
      destruct (choice_In (x :: r) g ltac:(discriminate)) as (y & -> & Hy). exact Hy.
    + intros H. exfalso. apply List.Exists_exists in H as (s & Hs & Hk).
      apply (find_none _ _ E) in Hs.
      apply List.Exists_exists in Hk as (keyword & Hin & Hc).
      assert (existsb (fun keyword =>
                         contains keyword
                           (join (lit " ")
                              (Dict.get_or (lit "products") [] entities
                               ++ Dict.get_or (lit "topics") [] entities)))
                      (default [] (TrendingInjector.style_keywords s)) = true) as Hex
        by (apply existsb_exists; eauto).
      congruence.
Qed.

(** *** The hashtags *)

Lemma dict_get_In {V} (k : str) (d : Dict.dict V) (v : V) :
  Dict.get k d = Some v -> In (k, v) d.
Proof.
  induction d as [|[k' v'] d IH]; simpl; [discriminate|].
  destruct (Py.eqb k k') eqn:E.
  - apply eqb_spec in E. intros [= ->]. subst. auto.
  - auto.
Qed.

Lemma In_take {A} (x : A) (n : nat) (l : list A) : In x (take n l) -> In x l.
Proof.
  intros H. rewrite <- (take_drop n l). apply in_or_app. left. exact H.
Qed.

(** X8: [_get_hashtags] invents no hashtag: each one it returns is
    listed under some category of the catalog. *)
Theorem get_hashtags_from_catalog (self : TrendingInjector.injector)
    (entities : TrendingInjector.entities) (t : str) :
  In t (TrendingInjector._get_hashtags self entities) ->
  exists category tags,
    In (category, tags)
       (default [] (TrendingInjector.hashtags (TrendingInjector.data self)))
    /\ In t tags.
Proof.
  unfold TrendingInjector._get_hashtags. cbv zeta. intros H.
  apply In_take, fromkeys_In, in_app_or in H as [H | H].
  - unfold TrendingInjector.category_hashtags, Dict.items in H.
    apply in_flat_map in H as ([category tags] & Hin & H).
    destruct (negb _); [|destruct H].
    destruct (contains _ _); [eauto | destruct H].
  - unfold Dict.get_or in H.
    destruct (Dict.get (lit "general") _) as [tags|] eqn:E; [|destruct H].
    apply dict_get_In in E. eauto.
Qed.

Lemma get_hashtags_from_catalog_witness :
  In (lit "#fyp") (TrendingInjector._get_hashtags fallback_injector (entity_set [] [] [] []))
  /\ exists category tags,
       In (category, tags)
          (default [] (TrendingInjector.hashtags
                         (TrendingInjector.data fallback_injector)))
       /\ In (lit "#fyp") tags.
Proof.
  assert (In (lit "#fyp")
             (TrendingInjector._get_hashtags fallback_injector (entity_set [] [] [] [])))
    as H by (vm_compute; right; left; reflexivity).
  split; [exact H | exact (get_hashtags_from_catalog _ _ _ H)].
Defined.

(** X9: on the entities of a text, the category branch of
    [_get_hashtags] adds nothing: whatever the text, the hashtags are
    the first 15 distinct hashtags of [general] (for a catalog without
    a category of empty name). *)
Theorem get_hashtags_of_text (self : TrendingInjector.injector) (text : str) :
  Forall (fun category => category <> [])
         (Dict.keys (default [] (TrendingInjector.hashtags
                                   (TrendingInjector.data self)))) ->
  TrendingInjector._get_hashtags self (InputValidator._extract_entities text)
  = take 15 (Dict.keys (Dict.fromkeys
       (Dict.get_or (lit "general") []
          (default [] (TrendingInjector.hashtags (TrendingInjector.data self)))))).
Proof.
  intros H. apply get_hashtags_general_only; [|exact H].
  change (Dict.keys (InputValidator._extract_entities text)) with entity_keys.
  apply List.Forall_forall. auto.
Qed.

Lemma get_hashtags_of_text_witness :
  Forall (fun category => category <> [])
         (Dict.keys (default [] (TrendingInjector.hashtags
                                   (TrendingInjector.data skincare_catalog))))
  /\ TrendingInjector._get_hashtags skincare_catalog
       (InputValidator._extract_entities (lit "review skincare"))
     = take 15 (Dict.keys (Dict.fromkeys
         (Dict.get_or (lit "general") []
            (default [] (TrendingInjector.hashtags
                           (TrendingInjector.data skincare_catalog)))))).
Proof.
  assert (Forall (fun category : str => category <> [])
            (Dict.keys (default [] (TrendingInjector.hashtags
                                      (TrendingInjector.data skincare_catalog)))))
    as H by (repeat constructor; discriminate).
  split; [exact H | exact (get_hashtags_of_text skincare_catalog _ H)].
Defined.

(** *** Updating the catalog, again *)

Lemma update_key_assoc {A} (a b c : option A) :
  TrendingInjector.update_key (TrendingInjector.update_key a b) c
  = TrendingInjector.update_key a (TrendingInjector.update_key b c).
Proof. destruct c; reflexivity. Qed.

Lemma dict_update_assoc (d n1 n2 : TrendingInjector.catalog) :
  TrendingInjector.dict_update (TrendingInjector.dict_update d n1) n2
  = TrendingInjector.dict_update d (TrendingInjector.dict_update n1 n2).
Proof.
  unfold TrendingInjector.dict_update. cbn [TrendingInjector.formats
    TrendingInjector.visual_styles TrendingInjector.hooks TrendingInjector.hashtags
    TrendingInjector.cta TrendingInjector.sounds].
  rewrite !update_key_assoc. reflexivity.
Qed.

(** X10: two calls of [update_data] amount to one call with the second
    data merged over the first: the same catalog in memory, the same
    file, the same answer as the second call. *)
Theorem update_data_composes (self : TrendingInjector.injector)
    (file : TrendingInjector.storage) (n1 n2 : TrendingInjector.catalog) :
  let '(self1, file1, _) := TrendingInjector.update_data self file n1 in
  TrendingInjector.update_data self1 file1 n2
  = TrendingInjector.update_data self file (TrendingInjector.dict_update n1 n2).
Proof.
  unfold TrendingInjector.update_data. cbv zeta.
  destruct (TrendingInjector.writable file) eqn:Ew;
    destruct (TrendingInjector.dumps file) eqn:Ed;
    cbn [TrendingInjector.writable TrendingInjector.dumps TrendingInjector.data];
    rewrite ?Ew, ?Ed; rewrite dict_update_assoc; reflexivity.
Qed.

(** X11: after an [update_data] that returns [True], a new injector on
    the file holds the catalog of the updated one.  After one that
    returns [False] the old injector holds the update all the same, and
    a new injector does not see it: either the file could not be opened
    and is as before, or the dump failed after the file was opened and
    emptied, and a new injector loads the built-in catalog. *)
Theorem update_data_then_reload (self : TrendingInjector.injector)
    (file : TrendingInjector.storage) (new_data : TrendingInjector.catalog) :
  let '(self', file', ok) := TrendingInjector.update_data self file new_data in
  TrendingInjector.data self'
  = TrendingInjector.dict_update (TrendingInjector.data self) new_data
  /\ if ok then TrendingInjector.init file' = self'
     else (TrendingInjector.writable file = false /\ file' = file)
          \/ (TrendingInjector.writable file = true
              /\ TrendingInjector.content file' = None
              /\ TrendingInjector.data (TrendingInjector.init file')
                 = TrendingInjector._get_fallback_data).
Proof.
  unfold TrendingInjector.update_data. cbv zeta.
  destruct (TrendingInjector.writable file), (TrendingInjector.dumps file);
    split; try reflexivity; auto.
Qed.

(** *** The bundle and the generated text *)

(** X12: when the generated text has no hashtags marker, the hashtags
    of the structured result are those of the bundle that [inject]
    made, all of them: the limit of 15 of [_extract_hashtags] never
    cuts a bundle of [inject]. *)
Theorem extract_hashtags_of_injected_bundle (self : TrendingInjector.injector)
    (entities : TrendingInjector.entities) (language : str) (g : Random.rng)
    (raw : str) :
  contains (lit "HASHTAGS") raw = false ->
  contains (lit "Hashtags") raw = false ->
  PromptEngine._extract_hashtags raw (TrendingInjector.inject self entities language g).1
  = TrendingInjector._get_hashtags self entities.
Proof.
  intros H1 H2. rewrite (extract_hashtags_without_marker raw _ H1 H2).
  destruct (inject_fields self entities language g) as (g2 & g3 & _ & _ & -> & _).
  apply take_ge. apply get_hashtags_bounds.
Qed.

Lemma extract_hashtags_of_injected_bundle_witness :
  contains (lit "HASHTAGS") (lit "# SCRIPT") = false
  /\ contains (lit "Hashtags") (lit "# SCRIPT") = false
  /\ PromptEngine._extract_hashtags (lit "# SCRIPT")
       (TrendingInjector.inject fallback_injector (entity_set [] [] [] []) (lit "id")
          {| Random.source := fun n => n; Random.drawn := 0 |}).1
     = TrendingInjector._get_hashtags fallback_injector (entity_set [] [] [] []).
Proof.
  split; [reflexivity|]. split; [reflexivity|].
  apply (extract_hashtags_of_injected_bundle fallback_injector); reflexivity.
Defined.

(** ** Structuring the generated text: invariants *)

(** *** The visual specifications *)

Lemma dict_has_mem {V} (k : str) (d : Dict.dict V) :
  Dict.has k d = mem k (Dict.keys d).
Proof.
  unfold Dict.has, mem. induction d as [|[k' v] d IH]; [reflexivity|].
  simpl. destruct (Py.eqb k k'); [reflexivity | exact IH].
Qed.

Lemma dict_set_has_keys {V} (k : str) (v : V) (d : Dict.dict V) :
  Dict.has k d = true -> Dict.keys (Dict.set k v d) = Dict.keys d.
Proof. intros H. rewrite dict_set_keys, <- dict_has_mem, H. reflexivity. Qed.

Lemma table_row_keys (specs specs' : Dict.dict str) (line : str) :
  PromptEngine.table_row specs line = Ok specs' -> Dict.keys specs' = Dict.keys specs.
Proof.
  unfold PromptEngine.table_row.
  destruct (map strip _) as [|key [|value parts]]; simpl; intros [= <-];
    try reflexivity.
  destruct (Dict.has key specs) eqn:E; [apply dict_set_has_keys, E | reflexivity].
Qed.

Lemma visual_loop_keys (lines : list str) :
  forall in_section specs,
    exists specs', PromptEngine.visual_loop in_section specs lines = Ok specs'
                   /\ Dict.keys specs' = Dict.keys specs.
Proof.
  induction lines as [|line r IH]; intros in_section specs; simpl; [eauto|].
  destruct (contains _ line || contains _ line); [apply IH|].
  destruct (in_section && contains _ line); [apply IH|].
  match goal with
  | |- context [bind ?m _] =>
      assert (exists specs1, m = Ok specs1 /\ Dict.keys specs1 = Dict.keys specs)
        as (specs1 & -> & E1)
  end.
  { destruct (in_section && _ && _); [|eauto].
    destruct (table_row_returns specs line) as (specs1 & E).
    exists specs1. split; [exact E | exact (table_row_keys _ _ _ E)]. }
  simpl. destruct (in_section && _ && _); [eauto|].
  destruct (IH in_section specs1) as (specs' & E & Ek).
  exists specs'. split; [exact E | congruence].
Qed.

(** X13: whatever the generated text, [_extract_visual_specs] returns
    a table with the five keys [Style], [Camera], [Lighting],
    [Aspect Ratio], [Mood], in this order: a row of the text with
    another key adds nothing. *)
Theorem extract_visual_specs_keys (raw : str) :
  exists specs,
    PromptEngine._extract_visual_specs raw = Ok specs
    /\ Dict.keys specs
       = [lit "Style"; lit "Camera"; lit "Lighting"; lit "Aspect Ratio"; lit "Mood"].
Proof.
  unfold PromptEngine._extract_visual_specs. cbv zeta.
  destruct (_ || _).
  - destruct (visual_loop_keys (split_on LF raw) false PromptEngine.default_specs)
      as (specs & E & Ek).
    exists specs. split; [exact E | exact Ek].
  - exists PromptEngine.default_specs. split; reflexivity.
Qed.

Lemma split_on_app (sep : ascii) (a b : str) :
  ~ In sep a -> split_on sep (a ++ sep :: b) = a :: split_on sep b.
Proof.
  induction a as [|c a IH]; intros H; simpl.
  - rewrite Ascii.eqb_refl. reflexivity.
  - destruct (Ascii.eqb c sep) eqn:E.
    + apply ascii_eqb_true in E. subst c. exfalso. apply H. left. reflexivity.
    + rewrite IH; [reflexivity|]. intros Hin. apply H. right. exact Hin.
Qed.

Lemma split_on_without (sep : ascii) (a : str) :
  ~ In sep a -> split_on sep a = [a].
Proof.
  induction a as [|c a IH]; intros H; simpl; [reflexivity|].
  destruct (Ascii.eqb c sep) eqn:E.
  - apply ascii_eqb_true in E. subst c. exfalso. apply H. left. reflexivity.
  - rewrite IH; [reflexivity|]. intros Hin. apply H. right. exact Hin.
Qed.

Lemma visual_loop_cons (in_section : bool) (specs : Dict.dict str) (line : str)
    (r : list str) :
  PromptEngine.visual_loop in_section specs (line :: r)
  = if contains (lit "VISUAL") line || contains (lit "Visual") line
    then PromptEngine.visual_loop true specs r
    else if in_section && contains (lit "---") line
    then PromptEngine.visual_loop in_section specs r
    else
      match (if in_section && contains (lit "|") line
                && negb (contains (lit "---") line)
             then PromptEngine.table_row specs line
             else Ok specs) with
      | Ok specs' =>
          if in_section && contains (lit "#") line
             && negb (contains (lit "VISUAL") line)
          then Ok specs'
          else PromptEngine.visual_loop in_section specs' r
      | Raise e => Raise e
      end.
Proof. reflexivity. Qed.

Lemma visual_loop_before (specs : Dict.dict str) (pre lines : list str) :
  Forall (fun l => contains (lit "VISUAL") l = false
                   /\ contains (lit "Visual") l = false) pre ->
  PromptEngine.visual_loop false specs (pre ++ lines)
  = PromptEngine.visual_loop false specs lines.
Proof.
  induction 1 as [|l pre (H1 & H2) _ IH]; [reflexivity|].
  rewrite <- app_comm_cons, visual_loop_cons, H1, H2. exact IH.
Qed.

Lemma visual_loop_skipped (specs : Dict.dict str) (skipped lines : list str) :
  Forall (fun l => contains (lit "VISUAL") l = true
                   \/ contains (lit "Visual") l = true
                   \/ contains (lit "---") l = true) skipped ->
  PromptEngine.visual_loop true specs (skipped ++ lines)
  = PromptEngine.visual_loop true specs lines.
Proof.
  induction 1 as [|l skipped Hl _ IH]; [reflexivity|].
  rewrite <- app_comm_cons, visual_loop_cons.
  destruct (contains (lit "VISUAL") l || contains (lit "Visual") l) eqn:E;
    [exact IH|].
  apply orb_false_iff in E as (E1 & E2).
  destruct Hl as [Hl | [Hl | Hl]]; [congruence | congruence|].
  rewrite Hl. exact IH.
Qed.

Lemma table_row_cells (specs : Dict.dict str) (key value : str) :
  ~ In "|"%char key -> ~ In "|"%char value ->
  strip key <> [] -> strip value <> [] ->
  PromptEngine.table_row specs (lit "|" ++ key ++ lit "|" ++ value ++ lit "|")
  = Ok (if Dict.has (strip key) specs
        then Dict.set (strip key) (strip value) specs else specs).
Proof.
  intros Hk Hv Hsk Hsv. unfold PromptEngine.table_row.
  change (lit "|" ++ key ++ lit "|" ++ value ++ lit "|")
    with ([] ++ "|"%char :: key ++ "|"%char :: value ++ "|"%char :: []).
  rewrite (split_on_app "|" []) by (intros []).
  rewrite (split_on_app "|" key) by exact Hk.
  rewrite (split_on_app "|" value) by exact Hv.
  cbn [split_on List.filter strip strip_by lstrip_by rstrip_by dropwhile rev app truthy].
  fold (strip key). fold (strip value).
  destruct (strip key) eqn:Ek; [contradiction|].
  destruct (strip value) eqn:Ev; [contradiction|].
  cbn [truthy map]. rewrite Ek, Ev. reflexivity.
Qed.

(** X14: in a text whose first line with [VISUAL] or [Visual] is a
    heading of the visual specifications, a table row [|key|value|]
    that follows it, after lines of rules or headings of the table only,
    and is the last line, is read with its cells trimmed: a key of the
    table gets the value, another key changes nothing.  The row itself
    holds no [---], [VISUAL] or [Visual]: such a row is never read. *)
Theorem extract_visual_specs_row (raw : str) (pre : list str) (h : str)
    (skipped : list str) (key value : str) :
  let row := lit "|" ++ key ++ lit "|" ++ value ++ lit "|" in
  split_on LF raw = pre ++ h :: skipped ++ [row] ->
  Forall (fun l => contains (lit "VISUAL") l = false
                   /\ contains (lit "Visual") l = false) pre ->
  contains (lit "VISUAL SPECIFICATIONS") h = true
  \/ contains (lit "Visual Specifications") h = true ->
  Forall (fun l => contains (lit "VISUAL") l = true
                   \/ contains (lit "Visual") l = true
                   \/ contains (lit "---") l = true) skipped ->
  contains (lit "VISUAL") row = false ->
  contains (lit "Visual") row = false ->
  contains (lit "---") row = false ->
  ~ In "|"%char key -> ~ In "|"%char value ->
  strip key <> [] -> strip value <> [] ->
  PromptEngine._extract_visual_specs raw
  = Ok (if Dict.has (strip key) PromptEngine.default_specs
        then Dict.set (strip key) (strip value) PromptEngine.default_specs
        else PromptEngine.default_specs).
Proof.
  intros row Hsplit Hpre Hh Hskip Hr1 Hr2 Hr3 Hk Hv Hsk Hsv.
  unfold PromptEngine._extract_visual_specs. cbv zeta.
  assert (In h (split_on LF raw)) as Hin
    by (rewrite Hsplit; apply in_or_app; right; left; reflexivity).
  apply line_contains in Hin.
  assert (contains (lit "VISUAL SPECIFICATIONS") raw
          || contains (lit "Visual Specifications") raw = true) as ->.
  { destruct Hh as [Hh | Hh]; rewrite (contains_trans _ _ _ Hh Hin);
      [reflexivity | apply orb_true_r]. }
  assert (contains (lit "VISUAL") h || contains (lit "Visual") h = true) as Hm.
  { destruct Hh as [Hh | Hh].
    - assert (contains (lit "VISUAL") (lit "VISUAL SPECIFICATIONS") = true) as Hw
        by reflexivity.
      rewrite (contains_trans _ _ _ Hw Hh). reflexivity.
    - assert (contains (lit "Visual") (lit "Visual Specifications") = true) as Hw
        by reflexivity.
      rewrite (contains_trans _ _ _ Hw Hh). apply orb_true_r. }
  rewrite Hsplit, visual_loop_before by exact Hpre.
  rewrite visual_loop_cons, Hm, visual_loop_skipped by exact Hskip.
  rewrite visual_loop_cons. fold row. rewrite Hr1, Hr2, Hr3.
  assert (contains (lit "|") row = true) as -> by apply contains_prefix.
  cbn [orb andb negb].
  unfold row. rewrite table_row_cells by assumption.
  destruct (contains (lit "#") _); reflexivity.
Qed.

Lemma extract_visual_specs_row_witness :
  PromptEngine._extract_visual_specs
    (lit "intro\n# VISUAL SPECIFICATIONS\n|---|---|\n| Style | Visual storytelling |\n|---|---|\n| Mood | calm, warm |")
  = Ok (Dict.set (lit "Mood") (lit "calm, warm") PromptEngine.default_specs).
Proof.
  apply (extract_visual_specs_row
           (lit "intro\n# VISUAL SPECIFICATIONS\n|---|---|\n| Style | Visual storytelling |\n|---|---|\n| Mood | calm, warm |")
           [lit "intro"] (lit "# VISUAL SPECIFICATIONS")
           [lit "|---|---|"; lit "| Style | Visual storytelling |"; lit "|---|---|"]
           (lit " Mood ") (lit " calm, warm ")).
  - reflexivity.
  - repeat constructor.
  - left. reflexivity.
  - apply List.Forall_cons; [right; right; reflexivity|].
    apply List.Forall_cons; [right; left; reflexivity|].
    apply List.Forall_cons; [right; right; reflexivity|]. apply List.Forall_nil.
  - reflexivity.
  - reflexivity.
  - reflexivity.
  - vm_compute. intros H. decompose [or] H; first [discriminate | contradiction].
  - vm_compute. intros H. decompose [or] H; first [discriminate | contradiction].
  - vm_compute. discriminate.
  - vm_compute. discriminate.
Defined.

(** *** The master prompt *)

Lemma split_on_no_sep (sep : ascii) (s : str) :
  Forall (fun l => Forall (fun c => c <> sep) l) (split_on sep s).
Proof.
  induction s as [|c s IH]; simpl; [repeat constructor|].
  destruct (Ascii.eqb c sep) eqn:E.
  - constructor; [constructor | exact IH].
  - destruct (split_on sep s) as [|l ls]; [repeat constructor|].
    + intros ->. rewrite Ascii.eqb_refl in E. discriminate.
    + apply Forall_cons in IH as (Hl & Hls). constructor; [|exact Hls].
      constructor; [|exact Hl]. intros ->. rewrite Ascii.eqb_refl in E. discriminate.
Qed.

(** X15: the master prompt is a single line, whatever the generated
    text: [_extract_master_prompt] returns a text without a line
    feed. *)
Theorem extract_master_prompt_one_line (raw : str) :
  exists p, PromptEngine._extract_master_prompt raw = Ok p /\ ~ In LF p.
Proof.
  assert (forall p : str, Forall (fun c => c <> LF) p -> ~ In LF p) as Hno.
  { intros p H Hin. rewrite List.Forall_forall in H. exact (H _ Hin eq_refl). }
  pose proof (split_on_no_sep LF raw) as Hlines.
  unfold PromptEngine._extract_master_prompt.
  destruct (contains _ raw).
  - eexists. split; [reflexivity|]. apply Hno.
    apply join_Forall; [repeat constructor; discriminate|].
    apply List.Forall_forall. intros x Hx.
    apply master_prompt_lines_in in Hx as (line & Hline & ->).
    rewrite List.Forall_forall in Hlines.
    apply (sublist_Forall _ _ line); [|exact (Hlines _ Hline)].
    etransitivity; apply strip_by_sublist.
  - destruct (truthy raw).
    + destruct (split_on_cons LF raw) as (l & ls & E). rewrite E in *.
      exists l. split; [reflexivity|]. apply Hno.
      apply Forall_cons in Hlines as (Hl & _). exact Hl.
    + exists PromptEngine.NA. split; [reflexivity|].
      vm_compute. intros H. decompose [or] H; first [discriminate | contradiction].
Qed.

(** X16: without the marker [MASTER PROMPT], the master prompt of a
    text that is not empty is its first line: the text up to its first
    line feed. *)
Theorem master_prompt_first_line (raw : str) :
  contains MARKER raw = false -> raw <> [] ->
  exists first rest,
    PromptEngine._extract_master_prompt raw = Ok first
    /\ ~ In LF first
    /\ (raw = first \/ raw = first ++ LF :: rest).
Proof.
  intros Hm Hne. unfold PromptEngine._extract_master_prompt.
  fold MARKER. rewrite Hm.
  destruct raw as [|c raw]; [contradiction|]. cbn [truthy].
  pose proof (split_on_no_sep LF (c :: raw)) as Hlines.
  pose proof (join_split_on LF (c :: raw)) as Hj.
  destruct (split_on_cons LF (c :: raw)) as (l & ls & E). rewrite E in *.
  exists l, (join [LF] ls). split; [reflexivity|]. split.
  - apply Forall_cons in Hlines as (Hl & _). intros Hin.
    rewrite List.Forall_forall in Hl. exact (Hl _ Hin eq_refl).
  - destruct ls as [|y ls]; [left | right]; rewrite <- Hj; reflexivity.
Qed.

Lemma master_prompt_first_line_witness :
  contains MARKER (lit "A cat on a skateboard\n\nLighting: warm") = false
  /\ lit "A cat on a skateboard\n\nLighting: warm" <> []
  /\ exists first rest,
       PromptEngine._extract_master_prompt (lit "A cat on a skateboard\n\nLighting: warm")
       = Ok first
       /\ ~ In LF first
       /\ (lit "A cat on a skateboard\n\nLighting: warm" = first
           \/ lit "A cat on a skateboard\n\nLighting: warm" = first ++ LF :: rest).
Proof.
  split; [reflexivity|]. split; [discriminate|].
  apply (master_prompt_first_line (lit "A cat on a skateboard\n\nLighting: warm"));
    [reflexivity | discriminate].
Defined.

(** *** The script *)

Lemma dict_set_values {V} (P : V -> Prop) (k : str) (v : V) (d : Dict.dict V) :
  P v -> Forall (fun item => P item.2) d -> Forall (fun item => P item.2) (Dict.set k v d).
Proof.
  intros Hv. induction d as [|[k' v'] d IH]; intros H; simpl.
  - repeat constructor. exact Hv.
  - apply Forall_cons in H as (H1 & H2). destruct (Py.eqb k k').
    + constructor; [exact Hv | exact H2].
    + constructor; [exact H1 | exact (IH H2)].
Qed.

Lemma extract_section_fields (text : str) (script : Dict.dict str) (item : str * regex) :
  Dict.has item.1 script = true ->
  Forall (fun field => field.2 <> []) script ->
  Dict.keys (PromptEngine.extract_section text script item) = Dict.keys script
  /\ Forall (fun field => field.2 <> []) (PromptEngine.extract_section text script item).
Proof.
  destruct item as [section pattern]. intros Hk Hv. unfold PromptEngine.extract_section.
  destruct (Re.search pattern text) as [m|]; [|auto]. cbv zeta.
  destruct (strip_char "*" _) as [|c content] eqn:E; cbn [truthy]; [auto|].
  split; [apply dict_set_has_keys, Hk|].
  apply (dict_set_values (fun v : str => v <> [])); [discriminate | exact Hv].
Qed.

Lemma extract_sections_fields (text : str) (items : list (str * regex)) :
  forall script,
    Forall (fun item => Dict.has item.1 script = true) items ->
    Forall (fun field => field.2 <> []) script ->
    Dict.keys (foldl (PromptEngine.extract_section text) script items) = Dict.keys script
    /\ Forall (fun field => field.2 <> [])
              (foldl (PromptEngine.extract_section text) script items).
Proof.
  induction items as [|item items IH]; intros script Hk Hv; [auto|].
  apply Forall_cons in Hk as (Hk1 & Hk2). cbn [foldl].
  destruct (extract_section_fields text script item Hk1 Hv) as (Ek & Hv').
  destruct (IH (PromptEngine.extract_section text script item)) as (Ek' & Hv'').
  - apply (Forall_impl _ _ _ Hk2). intros it. rewrite !dict_has_mem, Ek. auto.
  - exact Hv'.
  - split; [congruence | exact Hv''].
Qed.

(** X17: whatever the generated text, the script has the three fields
    [hook], [body], [cta], in this order, and none of them is empty:
    a section whose cleaned text is empty keeps ["N/A"]. *)
Theorem extract_script_fields (raw : str) :
  Dict.keys (PromptEngine._extract_script raw) = [lit "hook"; lit "body"; lit "cta"]
  /\ Forall (fun field => field.2 <> []) (PromptEngine._extract_script raw).
Proof.
  unfold PromptEngine._extract_script. cbv zeta.
  destruct (negb _).
  - split; [reflexivity | repeat constructor; discriminate].
  - apply extract_sections_fields.
    + unfold Dict.items, PromptEngine.patterns. repeat constructor.
    + repeat constructor; discriminate.
Qed.

(** *** The hashtags *)

Lemma filter_sublist {A} (f : A -> bool) (l : list A) : List.filter f l `sublist_of` l.
Proof.
  induction l as [|x l IH]; simpl; [constructor|].
  destruct (f x); [apply sublist_skip, IH | apply sublist_cons, IH].
Qed.

Lemma parse_hashtags_tags (lines : list str) (t : str) :
  In t (PromptEngine.parse_hashtags lines) ->
  ~ In "#"%char t /\ Forall (fun c => isspace c = false) t.
Proof.
  unfold PromptEngine.parse_hashtags. intros H.
  apply in_flat_map in H as (line & _ & H).
  apply in_map_iff in H as (w & <- & Hw).
  apply filter_In in Hw as (Hw & _).
  change (lit "#") with ["#"%char]. rewrite replace_char_filter. split.
  - intros Hin. apply filter_In in Hin as (_ & Hin).
    rewrite Ascii.eqb_refl in Hin. discriminate Hin.
  - pose proof (split_ws_from_words line [] ltac:(constructor)) as Hs.
    rewrite List.Forall_forall in Hs. destruct (Hs w Hw) as (_ & Hc).
    exact (sublist_Forall _ _ _ (filter_sublist _ w) Hc).
Qed.

(** X18: the hashtags of the structured result are either the first 15
    of the bundle, or tags read from the text alone: then there is at
    least one, and no tag holds a [#] or white space. *)
Theorem extract_hashtags_shape (raw : str) (b : TrendingInjector.bundle) :
  PromptEngine._extract_hashtags raw b = take 15 (TrendingInjector.b_hashtags b)
  \/ (PromptEngine._extract_hashtags raw b <> []
      /\ Forall (fun t => ~ In "#"%char t /\ Forall (fun c => isspace c = false) t)
                (PromptEngine._extract_hashtags raw b)).
Proof.
  unfold PromptEngine._extract_hashtags. cbv zeta.
  destruct (_ || _); [|auto].
  destruct (PromptEngine.hashtag_lines false _) as [|line lines]; [auto|].
  destruct (PromptEngine.parse_hashtags (line :: lines)) as [|t ts] eqn:E; [auto|].
  right. split; [discriminate|]. rewrite <- E.
  apply List.Forall_forall. intros x. apply parse_hashtags_tags.
Qed.

(** ** Platforms *)

Lemma dict_get_set_same {V} (k : str) (v : V) (d : Dict.dict V) :
  Dict.get k (Dict.set k v d) = Some v.
Proof.
  induction d as [|[k' v'] d IH]; simpl.
  - rewrite eqb_refl. reflexivity.
  - destruct (Py.eqb k k') eqn:E; simpl; rewrite E; [reflexivity | exact IH].
Qed.

Lemma dict_get_set_other {V} (k k' : str) (v : V) (d : Dict.dict V) :
  k <> k' -> Dict.get k' (Dict.set k v d) = Dict.get k' d.
Proof.
  intros Hne. induction d as [|[k0 v0] d IH]; simpl.
  - destruct (Py.eqb k' k) eqn:E; [|reflexivity].
    apply eqb_spec in E. congruence.
  - destruct (Py.eqb k k0) eqn:E; simpl.
    + apply eqb_spec in E. subst k0.
      destruct (Py.eqb k' k) eqn:E'; [|reflexivity].
      apply eqb_spec in E'. congruence.
    + rewrite IH. reflexivity.
Qed.

Lemma optimize_for_platform_returns {C : Type} (self : PlatformOptimizer.optimizer)
    (platform : str) (content : C) :
  exists optimized,
    PlatformOptimizer.optimize_for_platform self platform content = Ok optimized
    /\ Dict.keys optimized = optimized_keys.
Proof.
  destruct (mem platform (Dict.keys PlatformOptimizer.PLATFORM_SPECS)) eqn:E.
  - apply mem_spec in E. simpl in E.
    decompose [or] E; try contradiction; subst platform;
      eexists; split; vm_compute; reflexivity.
  - unfold PlatformOptimizer.optimize_for_platform.
    rewrite dict_has_mem, E. cbn [negb].
    eexists. split; vm_compute; reflexivity.
Qed.

(** X19: [optimize_for_platform] never raises: for every platform
    name it returns settings with the same ten keys, whose [platform]
    is the name itself when it is one of [PLATFORM_SPECS] and [tiktok]
    otherwise, and whose aspect ratio is ["9:16"]. *)
Theorem optimize_for_platform_settings {C : Type} (self : PlatformOptimizer.optimizer)
    (platform : str) (content : C) :
  exists optimized,
    PlatformOptimizer.optimize_for_platform self platform content = Ok optimized
    /\ Dict.keys optimized = optimized_keys
    /\ Dict.get (lit "platform") optimized = Some (known_platform platform)
    /\ Dict.get (lit "aspect_ratio") optimized = Some (lit "9:16").
Proof.
  unfold known_platform.
  destruct (mem platform (Dict.keys PlatformOptimizer.PLATFORM_SPECS)) eqn:E.
  - apply mem_spec in E. simpl in E.
    decompose [or] E; try contradiction; subst platform;
      eexists; (split; [vm_compute; reflexivity|]); vm_compute; auto.
  - unfold PlatformOptimizer.optimize_for_platform.
    rewrite dict_has_mem, E. cbn [negb].
    eexists. split; [vm_compute; reflexivity|]. vm_compute. auto.
Qed.

(** X20: a platform name that [PLATFORM_SPECS] does not have is
    optimized as [tiktok] is, whatever the optimizer and the content. *)
Theorem optimize_for_unknown_platform {C C' : Type}
    (self self' : PlatformOptimizer.optimizer) (platform : str)
    (content : C) (content' : C') :
  ~ In platform (Dict.keys PlatformOptimizer.PLATFORM_SPECS) ->
  PlatformOptimizer.optimize_for_platform self platform content
  = PlatformOptimizer.optimize_for_platform self' (lit "tiktok") content'.
Proof.
  intros H. unfold PlatformOptimizer.optimize_for_platform at 1.
  rewrite dict_has_mem.
  destruct (mem platform _) eqn:E; [apply mem_spec in E; contradiction|].
  reflexivity.
Qed.

Lemma optimize_for_unknown_platform_witness :
  ~ In (lit "facebook") (Dict.keys PlatformOptimizer.PLATFORM_SPECS)
  /\ PlatformOptimizer.optimize_for_platform (PlatformOptimizer.init None)
       (lit "facebook") tt
     = PlatformOptimizer.optimize_for_platform
         (PlatformOptimizer.init (Some [lit "youtube"])) (lit "tiktok") 0.
Proof.
  assert (~ In (lit "facebook") (Dict.keys PlatformOptimizer.PLATFORM_SPECS)) as H
    by (vm_compute; intros H; decompose [or] H; first [discriminate | contradiction]).
  split; [exact H | exact (optimize_for_unknown_platform _ _ _ _ _ H)].
Defined.

(** The loop of [optimize_for_all_platforms], from any dictionary. *)
Lemma all_platforms_loop_spec {C : Type} (self : PlatformOptimizer.optimizer)
    (content : C) (platforms : list str) :
  forall all_optimized (seen : Dict.dict unit),
    Dict.keys all_optimized = Dict.keys seen ->
    exists all,
      PlatformOptimizer.all_platforms_loop self content all_optimized platforms = Ok all
      /\ Dict.keys all = Dict.keys (foldl (fun acc k => Dict.set k tt acc) seen platforms)
      /\ (forall platform, In platform platforms ->
            exists optimized,
              PlatformOptimizer.optimize_for_platform self platform content = Ok optimized
              /\ Dict.get platform all = Some optimized)
      /\ (forall platform, ~ In platform platforms ->
            Dict.get platform all = Dict.get platform all_optimized).
Proof.
  induction platforms as [|p r IH]; intros acc seen Hk.
  - exists acc. cbn. split; [reflexivity|]. split; [exact Hk|].
    split; [intros ? [] | reflexivity].
  - cbn [PlatformOptimizer.all_platforms_loop foldl].
    destruct (optimize_for_platform_returns self p content) as (o & Eo & _).
    rewrite Eo. cbn [bind].
    destruct (IH (Dict.set p o acc) (Dict.set p tt seen)) as (all & E & Ek & Hin & Hout).
    { rewrite !dict_set_keys, Hk. reflexivity. }
    exists all. split; [exact E|]. split; [exact Ek|]. split.
    + intros q Hq. destruct (mem q r) eqn:Em.
      * apply mem_spec in Em. exact (Hin q Em).
      * assert (~ In q r) as Hr by (intros Hr; apply mem_spec in Hr; congruence).
        destruct Hq as [<- | Hq]; [|contradiction].
        exists o. split; [exact Eo|]. rewrite (Hout p Hr). apply dict_get_set_same.
    + intros q Hq. rewrite Hout by (intros Hr; apply Hq; right; exact Hr).
      apply dict_get_set_other. intros ->. apply Hq. left. reflexivity.
Qed.

(** X21: [optimize_for_all_platforms] never raises; its keys are the
    configured platform names, each once, in the order of their first
    occurrence, and under each name are the settings that
    [optimize_for_platform] gives for it (for a name that is not
    known, those of [tiktok], under the unknown name). *)
Theorem optimize_for_all_platforms_entries {C : Type}
    (self : PlatformOptimizer.optimizer) (content : C) :
  exists all,
    PlatformOptimizer.optimize_for_all_platforms self content = Ok all
    /\ Dict.keys all = Dict.keys (Dict.fromkeys (PlatformOptimizer.platforms self))
    /\ (forall platform, In platform (PlatformOptimizer.platforms self) ->
          exists optimized,
            PlatformOptimizer.optimize_for_platform self platform content = Ok optimized
            /\ Dict.get platform all = Some optimized).
Proof.
  destruct (all_platforms_loop_spec self content (PlatformOptimizer.platforms self) [] [])
    as (all & E & Ek & Hin & _); [reflexivity|].
  exists all. auto.
Qed.

Lemma filter_mem_all (l k : list str) :
  (forall p, In p k -> In p l) -> List.filter (fun p => mem p l) k = k.
Proof.
  induction k as [|p k IH]; intros H; [reflexivity|].
  simpl. destruct (mem p l) eqn:E.
  - rewrite IH; [reflexivity|]. intros q Hq. apply H. right. exact Hq.
  - assert (mem p l = true) by (apply mem_spec, H; left; reflexivity). congruence.
Qed.

(** X22: [get_best_platform_for_content] never raises; it recommends a
    configured platform, or [tiktok] when none of the platforms
    preferred for the content type is configured (whether [tiktok] is
    configured or not); for a content type without preferences it
    recommends the first configured platform. *)
Theorem get_best_platform_is_configured {E : Type} (self : PlatformOptimizer.optimizer)
    (content_type : str) (entities : E) :
  exists p,
    PlatformOptimizer.get_best_platform_for_content self content_type entities = Ok p
    /\ (In p (PlatformOptimizer.platforms self)
        \/ (p = lit "tiktok"
            /\ forall q,
                 In q (Dict.get_or (lower content_type) (PlatformOptimizer.platforms self)
                         PlatformOptimizer.content_preferences) ->
                 ~ In q (PlatformOptimizer.platforms self)))
    /\ (Dict.get (lower content_type) PlatformOptimizer.content_preferences = None ->
        forall q r, PlatformOptimizer.platforms self = q :: r -> p = q).
Proof.
  unfold PlatformOptimizer.get_best_platform_for_content. cbv zeta.
  set (preferred := Dict.get_or _ _ _).
  destruct (List.filter _ preferred) as [|p available] eqn:Ef.
  - exists (lit "tiktok"). split; [reflexivity|]. split.
    + right. split; [reflexivity|]. intros q Hq Hin.
      assert (In q (List.filter (fun p => mem p (PlatformOptimizer.platforms self))
                                preferred)) as H
        by (apply filter_In; split; [exact Hq | apply mem_spec, Hin]).
      rewrite Ef in H. destruct H.
    + intros Hnone q r Eq. exfalso.
      unfold preferred, Dict.get_or in Ef. rewrite Hnone in Ef. cbn [default] in Ef.
      rewrite filter_mem_all in Ef by auto. congruence.
  - exists p. split; [reflexivity|]. split.
    + left. assert (In p (List.filter (fun p => mem p (PlatformOptimizer.platforms self))
                                      preferred)) as H by (rewrite Ef; left; reflexivity).
      apply filter_In in H as (_ & H). apply mem_spec, H.
    + intros Hnone q r Eq.
      unfold preferred, Dict.get_or in Ef. rewrite Hnone in Ef. cbn [default] in Ef.
      rewrite filter_mem_all in Ef by auto. congruence.
Qed.

(** X23: [get_posting_schedule] never raises and never returns an empty
    schedule; for a platform name it does not know it returns the
    schedule of [tiktok]. *)
Theorem get_posting_schedule_fallback (self : PlatformOptimizer.optimizer)
    (platform : str) :
  exists times,
    PlatformOptimizer.get_posting_schedule self platform = Ok times
    /\ times <> []
    /\ (~ In platform (Dict.keys PlatformOptimizer.schedules) ->
        PlatformOptimizer.get_posting_schedule self platform
        = PlatformOptimizer.get_posting_schedule self (lit "tiktok")).
Proof.
  unfold PlatformOptimizer.get_posting_schedule.
  change (Dict.getitem (lit "tiktok") PlatformOptimizer.schedules)
    with (Ok [lit "7:00 AM - 9:00 AM"; lit "12:00 PM - 3:00 PM"; lit "7:00 PM - 11:00 PM"]).
  cbn [bind]. eexists. split; [reflexivity|]. split.
  - unfold Dict.get_or.
    destruct (Dict.get platform PlatformOptimizer.schedules) as [times|] eqn:E;
      [|discriminate].
    apply dict_get_In in E. simpl in E.
    decompose [or] E; try contradiction;
      match goal with H : _ = (_, _) |- _ => injection H as _ <- end; discriminate.
  - intros H. unfold Dict.get_or. rewrite (dict_get_not_key _ _ H). reflexivity.
Qed.

(** ** The text of the user prompt *)

Lemma dict_get_key {V} (k : str) (d : Dict.dict V) :
  In k (Dict.keys d) -> exists v, Dict.get k d = Some v.
Proof.
  intros H. destruct (Dict.get k d) as [v|] eqn:E; [eauto|].
  apply mem_spec in H. rewrite <- dict_has_mem in H.
  unfold Dict.has in H. rewrite E in H. discriminate H.
Qed.

Lemma getitem_key {V} (k : str) (d : Dict.dict V) :
  In k (Dict.keys d) -> exists v, Dict.getitem k d = Ok v.
Proof.
  intros H. destruct (dict_get_key k d H) as (v & E).
  exists v. unfold Dict.getitem. rewrite E. reflexivity.
Qed.

(** The settings under every key of the loop's result come from
    [optimize_for_platform]. *)
Lemma all_platforms_loop_values {C : Type} (self : PlatformOptimizer.optimizer)
    (content : C) (platforms : list str) :
  forall all_optimized all,
    Forall (fun item => Dict.keys item.2 = optimized_keys) all_optimized ->
    PlatformOptimizer.all_platforms_loop self content all_optimized platforms = Ok all ->
    Forall (fun item => Dict.keys item.2 = optimized_keys) all.
Proof.
  induction platforms as [|p r IH]; intros acc all Hacc H.
  - injection H as <-. exact Hacc.
  - cbn [PlatformOptimizer.all_platforms_loop] in H.
    destruct (optimize_for_platform_returns self p content) as (o & Eo & Ek).
    rewrite Eo in H. cbn [bind] in H. revert H.
    apply IH.
    apply (dict_set_values (fun v : Dict.dict str => Dict.keys v = optimized_keys));
      assumption.
Qed.

Lemma platform_parts_returns (items : list (str * Dict.dict str)) :
  Forall (fun item => Dict.keys item.2 = optimized_keys) items ->
  exists parts,
    GroqClient.platform_parts items = Ok parts
    /\ forall platform, In platform (map fst items) ->
         In (lit "\n## " ++ capitalize platform ++ lit ":") parts.
Proof.
  induction 1 as [|[platform specs] items Hk _ (parts & E & Hin)].
  - exists []. split; [reflexivity | intros ? []].
  - cbn [GroqClient.platform_parts]. cbn [snd] in Hk.
    destruct (getitem_key (lit "aspect_ratio") specs) as (a & ->);
      [rewrite Hk; vm_compute; auto 12|].
    destruct (getitem_key (lit "characteristics") specs) as (c & ->);
      [rewrite Hk; vm_compute; auto 12|].
    destruct (getitem_key (lit "optimal_length") specs) as (o & ->);
      [rewrite Hk; vm_compute; auto 12|].
    rewrite E. cbn [bind]. eexists. split; [reflexivity|].
    intros p [<- | Hp]; [left; reflexivity|].
    do 4 right. exact (Hin p Hp).
Qed.

(** X24: the settings that [optimize_for_all_platforms] returns can
    always be formatted: [_format_platform_specifics] finds the three
    keys it reads under every platform and raises no [KeyError]; the
    text has a heading for every configured platform. *)
Theorem format_platform_specifics_of_optimized {C : Type}
    (self : PlatformOptimizer.optimizer) (content : C) :
  exists all text,
    PlatformOptimizer.optimize_for_all_platforms self content = Ok all
    /\ GroqClient._format_platform_specifics all = Ok text
    /\ forall platform, In platform (PlatformOptimizer.platforms self) ->
         contains (lit "## " ++ capitalize platform ++ lit ":") text = true.
Proof.
  destruct (all_platforms_loop_spec self content (PlatformOptimizer.platforms self) [] [])
    as (all & E & Ek & _); [reflexivity|].
  fold (Dict.fromkeys (PlatformOptimizer.platforms self)) in Ek.
  change (PlatformOptimizer.optimize_for_all_platforms self content = Ok all) in E.
  pose proof (all_platforms_loop_values self content _ [] all ltac:(constructor) E) as Hv.
  destruct (platform_parts_returns all Hv) as (parts & Ep & Hin).
  exists all, (join (lit "\n") parts). split; [exact E|].
  unfold GroqClient._format_platform_specifics, Dict.items. rewrite Ep.
  split; [reflexivity|]. intros p Hp.
  apply (contains_trans _ (lit "\n## " ++ capitalize p ++ lit ":")).
  - apply contains_spec. exists [LF], []. rewrite app_nil_r. reflexivity.
  - apply in_join_contains, Hin. fold (Dict.keys all). rewrite Ek.
    apply fromkeys_In, Hp.
Qed.

Lemma format_trending_parts (b : TrendingInjector.bundle) :
  exists parts,
    GroqClient._format_trending_elements b = join (lit "\n") parts
    /\ (TrendingInjector.b_hooks b <> [] ->
        In (lit "- Example Hooks: "
            ++ join (lit ", ") (take 3 (TrendingInjector.b_hooks b))) parts)
    /\ (TrendingInjector.b_hashtags b <> [] ->
        In (lit "- Hashtags: "
            ++ join (lit ", ") (take 10 (TrendingInjector.b_hashtags b))) parts).
Proof.
  unfold GroqClient._format_trending_elements. cbv zeta.
  eexists. split; [reflexivity|].
  destruct (TrendingInjector.b_format b), (TrendingInjector.b_visual_style b),
    (TrendingInjector.b_hooks b), (TrendingInjector.b_hashtags b);
    split; intros H; try contradiction; cbn [app In]; auto 6.
Qed.

Lemma contains_suffix (u t : str) : contains u (t ++ u) = true.
Proof. apply contains_spec. exists t, []. rewrite app_nil_r. reflexivity. Qed.

(** X25: the text that [_format_trending_elements] makes of a bundle of
    [inject] names every hook of the bundle, and the first ten of its
    hashtags. *)
Theorem format_trending_elements_of_injected (self : TrendingInjector.injector)
    (entities : TrendingInjector.entities) (language : str) (g : Random.rng) :
  let b := (TrendingInjector.inject self entities language g).1 in
  (forall hook, In hook (TrendingInjector.b_hooks b) ->
     contains hook (GroqClient._format_trending_elements b) = true)
  /\ (forall tag, In tag (take 10 (TrendingInjector.b_hashtags b)) ->
        contains tag (GroqClient._format_trending_elements b) = true).
Proof.
  intros b. destruct (format_trending_parts b) as (parts & -> & Hh & Ht). split.
  - intros hook Hin.
    assert (take 3 (TrendingInjector.b_hooks b) = TrendingInjector.b_hooks b) as E.
    { apply take_ge. unfold b.
      destruct (inject_fields self entities language g) as (g2 & g3 & -> & _).
      apply get_hooks_sample. }
    rewrite E in Hh.
    eapply contains_trans; [apply (in_join_contains (lit ", ") _ _ Hin)|].
    eapply contains_trans; [apply contains_suffix|].
    apply in_join_contains, Hh. intros Hnil. rewrite Hnil in Hin. destruct Hin.
  - intros tag Hin.
    eapply contains_trans; [apply (in_join_contains (lit ", ") _ _ Hin)|].
    eapply contains_trans; [apply contains_suffix|].
    apply in_join_contains, Ht. intros Hnil. rewrite Hnil in Hin.
    rewrite take_nil in Hin. destruct Hin.
Qed.

(** ** The list of platforms *)

Lemma split_on_join (sep : ascii) (names : list str) :
  names <> [] -> Forall (fun n => ~ In sep n) names ->
  split_on sep (join [sep] names) = names.
Proof.
  induction names as [|x r IH]; intros Hne H; [contradiction|].
  apply Forall_cons in H as (Hx & Hr). destruct r as [|y r].
  - apply split_on_without, Hx.
  - rewrite join_cons. cbn [app]. rewrite split_on_app by exact Hx.
    rewrite IH; [reflexivity | discriminate | exact Hr].
Qed.

(** X26: a list of platform names written with commas is read back by
    [platforms_list] as it was, when no name holds a comma or starts
    or ends with white space; the option [--platforms] is read in the
    same way. *)
Theorem platforms_list_round_trip (names : list str) :
  names <> [] ->
  Forall (fun n => ~ In ","%char n /\ strip n = n) names ->
  Settings.platforms_list (join (lit ",") names) = names
  /\ (join (lit ",") names <> [] ->
      Cli.platform_list (Some (join (lit ",") names)) = Some names).
Proof.
  intros Hne H.
  assert (map strip (split_on "," (join (lit ",") names)) = names) as E.
  { change (lit ",") with [","%char]. rewrite split_on_join.
    - induction H as [|n r (_ & Hn) _ IH]; [reflexivity|].
      cbn [map]. rewrite Hn. f_equal.
      destruct r; [reflexivity | apply IH; discriminate].
    - exact Hne.
    - apply (Forall_impl _ _ _ H). intros n (Hn & _). exact Hn. }
  split; [exact E|]. intros Hj. unfold Cli.platform_list.
  destruct (join (lit ",") names) as [|c s]; [contradiction|]. rewrite E. reflexivity.
Qed.

Lemma platforms_list_round_trip_witness :
  [lit "tiktok"; lit "youtube"] <> []
  /\ Forall (fun n => ~ In ","%char n /\ strip n = n) [lit "tiktok"; lit "youtube"]
  /\ Settings.platforms_list (join (lit ",") [lit "tiktok"; lit "youtube"])
     = [lit "tiktok"; lit "youtube"]
  /\ (join (lit ",") [lit "tiktok"; lit "youtube"] <> [] ->
      Cli.platform_list (Some (join (lit ",") [lit "tiktok"; lit "youtube"]))
      = Some [lit "tiktok"; lit "youtube"]).
Proof.
  assert ([lit "tiktok"; lit "youtube"] <> []) as H1 by discriminate.
  assert (Forall (fun n => ~ In ","%char n /\ strip n = n) [lit "tiktok"; lit "youtube"])
    as H2.
  { repeat constructor; try reflexivity;
      vm_compute; intros H; decompose [or] H; first [discriminate | contradiction]. }
  split; [exact H1|]. split; [exact H2|].
  exact (platforms_list_round_trip _ H1 H2).
Defined.

(** ** Sanitizing: no tag is left *)

Lemma sublist_In {A} (x : A) (l k : list A) : l `sublist_of` k -> In x l -> In x k.
Proof.
  induction 1 as [|y l k _ IH|y l k _ IH]; intros H.
  - exact H.
  - destruct H as [-> | H]; [left; reflexivity | right; exact (IH H)].
  - right. exact (IH H).
Qed.

(** *** Where the tag pattern matches *)

Lemma tag_match_inv (b : bool) (s : str) (m : pos) :
  match_at InputValidator.tag_pattern b s = Some m ->
  exists d y, s = "<"%char :: d :: y /\ d <> ">"%char /\ In ">"%char y
              /\ 0 < length s - length (rest m).
Proof.
  intros H. apply match_at_sound in H as (u & E & D).
  unfold InputValidator.tag_pattern, plus, chr in D. cbn [seq foldr den] in D.
  destruct D as (u1 & u2 & -> & (c1 & -> & H1) & u3 & u4 & ->
                 & (u5 & u6 & -> & (d & -> & Hd) & Hw) & u7 & u8 & ->
                 & (c3 & -> & H3) & ->).
  apply ascii_eqb_true in H1, H3. subst c1 c3.
  exists d, (u6 ++ ">"%char :: rest m). split; [|split; [|split]].
  - rewrite E. cbn. rewrite <- !app_assoc. reflexivity.
  - intros ->. discriminate Hd.
  - apply in_or_app. right. left. reflexivity.
  - rewrite E. cbn. rewrite !length_app. cbn. lia.
Qed.

Lemma greedy_here {R} (p : ascii -> bool) (k : pos -> option R) (t : str) (s : pos) :
  k s <> None -> greedy p t s k <> None.
Proof.
  intros H. destruct t as [|c t]; [exact H|]. cbn [greedy].
  destruct (p c); [|exact H].
  destruct (greedy p t (read s c t) k); [discriminate | exact H].
Qed.

Lemma greedy_reaches {R} (p : ascii -> bool) (k : pos -> option R) (t' : str) (w : str) :
  forall s, Forall (fun c => p c = true) w ->
  (forall s', rest s' = t' -> k s' <> None) ->
  rest s = w ++ t' -> greedy p (w ++ t') s k <> None.
Proof.
  induction w as [|c w IH]; intros s Hw Hk Hs.
  - apply greedy_here, Hk, Hs.
  - apply Forall_cons in Hw as (Hc & Hw). cbn [app greedy]. rewrite Hc.
    specialize (IH (read s c (w ++ t')) Hw Hk eq_refl).
    destruct (greedy p (w ++ t') (read s c (w ++ t')) k); [discriminate | contradiction].
Qed.

Lemma in_split_first (c : ascii) (y : str) :
  In c y -> exists w r, y = w ++ c :: r /\ ~ In c w.
Proof.
  induction y as [|d y IH]; [intros []|]. intros H.
  destruct (Ascii.eqb d c) eqn:E.
  - apply ascii_eqb_true in E. subst d. exists [], y. split; [reflexivity | intros []].
  - destruct H as [-> | H]; [rewrite Ascii.eqb_refl in E; discriminate|].
    destruct (IH H) as (w & r & -> & Hw). exists (d :: w), r.
    split; [reflexivity|]. intros [-> | Hin]; [|contradiction].
    rewrite Ascii.eqb_refl in E. discriminate.
Qed.

Lemma tag_match (b : bool) (d : ascii) (y : str) :
  d <> ">"%char -> In ">"%char y ->
  match_at InputValidator.tag_pattern b ("<"%char :: d :: y) <> None.
Proof.
  intros Hd Hy. destruct (in_split_first _ _ Hy) as (w & r & -> & Hw).
  unfold match_at, InputValidator.tag_pattern.
  rewrite run_seq_cons. cbn [run chr rest start_at]. rewrite Ascii.eqb_refl.
  rewrite run_seq_cons. unfold plus. cbn [run rest read].
  assert (negb (Ascii.eqb d ">") = true) as ->.
  { apply negb_true_iff. destruct (Ascii.eqb d ">") eqn:E; [|reflexivity].
    apply ascii_eqb_true in E. contradiction. }
  apply greedy_reaches.
  - apply List.Forall_forall. intros c Hc. apply negb_true_iff.
    destruct (Ascii.eqb c ">") eqn:E; [|reflexivity].
    apply ascii_eqb_true in E. subst c. contradiction.
  - intros s' Hs'. rewrite run_seq_cons. cbn [run chr]. rewrite Hs'.
    rewrite Ascii.eqb_refl. cbn. discriminate.
  - reflexivity.
Qed.

(** A text that is free of tags has no match of the tag pattern. *)
Lemma tag_free_search (s : str) :
  tag_free s -> forall b, search_from InputValidator.tag_pattern b s = None.
Proof.
  induction s as [|c t IH]; intros H b.
  - cbn [search_from].
    destruct (match_at InputValidator.tag_pattern b []) as [m|] eqn:E; [|reflexivity].
    apply tag_match_inv in E as (d & y & [=] & _).
  - destruct H as (Hc & Ht). cbn [search_from].
    destruct (match_at InputValidator.tag_pattern b (c :: t)) as [m|] eqn:E.
    + exfalso. apply tag_match_inv in E as (d & y & [= -> ->] & Hd & Hy & _).
      destruct (Hc eq_refl) as [-> | Hn]; [contradiction|].
      apply Hn. right. exact Hy.
    + apply IH, Ht.
Qed.

(** *** What the removal of the tags leaves *)

Lemma remove_from_tag_free (s : str) :
  forall skip b, tag_free (remove_from InputValidator.tag_pattern skip b s).
Proof.
  induction s as [|c t IH]; intros skip b; cbn [remove_from]; [exact I|].
  destruct skip as [|n]; [|apply IH].
  assert (match_at InputValidator.tag_pattern b (c :: t) = None ->
          tag_free (c :: remove_from InputValidator.tag_pattern 0 false t)) as Hnone.
  { intros E. split; [|apply IH]. intros ->.
    destruct t as [|d y]; [exact I|].
    destruct (Ascii.eqb d ">") eqn:Ed.
    - apply ascii_eqb_true in Ed. subst d. cbn [remove_from].
      destruct (match_at InputValidator.tag_pattern false (">"%char :: y)) as [m|] eqn:E'.
      + apply tag_match_inv in E' as (d & y' & [=] & _).
      + left. reflexivity.
    - assert (d <> ">"%char) as Hd
        by (intros ->; rewrite Ascii.eqb_refl in Ed; discriminate).
      assert (~ In ">"%char (d :: y)) as Hn.
      { intros [-> | Hin]; [contradiction|].
        exact (tag_match b d y Hd Hin E). }
      destruct (remove_from _ 0 false (d :: y)) as [|d' y'] eqn:Er; [exact I|].
      right. rewrite <- Er. intros Hin. apply Hn.
      exact (sublist_In _ _ _
               (remove_from_sublist InputValidator.tag_pattern (d :: y) 0 false) Hin). }
  destruct (match_at InputValidator.tag_pattern b (c :: t)) as [m|] eqn:E;
    [|exact (Hnone eq_refl)].
  destruct (length (c :: t) - length (rest m)) as [|n] eqn:EL; [|apply IH].
  apply tag_match_inv in E as (d & y & _ & _ & _ & Hl). lia.
Qed.

(** *** Taking characters other than [>] away *)

Lemma dropping_sublist (P : ascii -> Prop) (s s' : str) :
  dropping P s s' -> s' `sublist_of` s.
Proof.
  induction 1; [constructor | apply sublist_skip; assumption
               | apply sublist_cons; assumption].
Qed.

Lemma dropping_trans (P : ascii -> Prop) (s1 s2 s3 : str) :
  dropping P s1 s2 -> dropping P s2 s3 -> dropping P s1 s3.
Proof.
  intros H. revert s3. induction H as [|c s s' _ IH|c s s' Hc _ IH]; intros s3 H'.
  - exact H'.
  - inversion H' as [|c' t t' Ht|c' t t' Hc' Ht]; subst.
    + apply dropping_keep, IH, Ht.
    + apply dropping_drop; [exact Hc' | apply IH, Ht].
  - apply dropping_drop; [exact Hc | apply IH, H'].
Qed.

Lemma dropping_prefix (P : ascii -> Prop) (a s s' : str) :
  Forall P a -> dropping P s s' -> dropping P (a ++ s) s'.
Proof.
  induction 1 as [|c a Hc _ IH]; intros H; [exact H|].
  apply dropping_drop; [exact Hc | apply IH, H].
Qed.

Lemma dropping_suffix (P : ascii -> Prop) (s b : str) :
  Forall P b -> dropping P (s ++ b) s.
Proof.
  intros Hb. induction s as [|c s IH]; cbn [app].
  - rewrite <- (app_nil_r b). apply dropping_prefix; [exact Hb | constructor].
  - apply dropping_keep, IH.
Qed.

Lemma dropping_tag_free (s s' : str) :
  dropping (fun c => c <> ">"%char) s s' -> tag_free s -> tag_free s'.
Proof.
  induction 1 as [|c s s' Hd IH|c s s' Hc Hd IH]; intros H.
  - exact I.
  - destruct H as (Hh & Ht). split; [|exact (IH Ht)]. intros Hlt.
    specialize (Hh Hlt). destruct s' as [|d' y']; [exact I|].
    destruct s as [|d y]; [inversion Hd|].
    destruct Hh as [-> | Hn].
    + inversion Hd as [|c' t t' Ht'|c' t t' Hc' Ht']; subst; [left; reflexivity|].
      contradiction.
    + right. intros Hin. apply Hn.
      exact (sublist_In _ _ _ (dropping_sublist _ _ _ Hd) Hin).
  - destruct H as (_ & Ht). exact (IH Ht).
Qed.

Lemma den_reads_only (P : ascii -> Prop) (r : regex) :
  reads_only P r -> forall u, den r u -> Forall P u.
Proof.
  induction r as [| |p|r1 IH1 r2 IH2|r1 IH1 r2 IH2|p|p| | |r1 IH1|r1 IH1];
    cbn [reads_only den]; intros H u D.
  - destruct D.
  - subst u. constructor.
  - destruct D as (c & -> & Hc). repeat constructor. exact (H c Hc).
  - destruct H as (H1 & H2). destruct D as (u1 & u2 & -> & D1 & D2).
    apply Forall_app. split; [exact (IH1 H1 _ D1) | exact (IH2 H2 _ D2)].
  - destruct H as (H1 & H2). destruct D as [D | D]; [exact (IH1 H1 _ D) | exact (IH2 H2 _ D)].
  - apply (Forall_impl _ _ _ D). exact H.
  - apply (Forall_impl _ _ _ D). exact H.
  - subst u. constructor.
  - subst u. constructor.
  - exact (IH1 H _ D).
  - subst u. constructor.
Qed.

(** [re.sub(r, "", s)] takes away characters that [r] can read. *)
Lemma remove_from_dropping (P : ascii -> Prop) (r : regex) (s : str) :
  reads_only P r ->
  forall skip b, Forall P (take skip s) -> dropping P s (remove_from r skip b s).
Proof.
  intros Hr. induction s as [|c t IH]; intros skip b Hs; cbn [remove_from];
    [constructor|].
  destruct skip as [|n].
  - destruct (match_at r b (c :: t)) as [m|] eqn:E.
    + apply match_at_sound in E as (u & E & D).
      pose proof (match_at_length r b _ m u E) as Hu.
      pose proof (den_reads_only P r Hr u D) as HP.
      destruct (length (c :: t) - length (rest m)) as [|n].
      * apply dropping_keep, IH. constructor.
      * cbn [take] in Hu. rewrite <- Hu in HP.
        apply Forall_cons in HP as (Hc & HP).
        apply dropping_drop; [exact Hc | exact (IH n false HP)].
    + apply dropping_keep, IH. constructor.
  - cbn [take] in Hs. apply Forall_cons in Hs as (Hc & Hs).
    apply dropping_drop; [exact Hc | exact (IH n false Hs)].
Qed.

Lemma remove_dropping (P : ascii -> Prop) (r : regex) (s : str) :
  reads_only P r -> dropping P s (Re.remove r s).
Proof. intros Hr. apply remove_from_dropping; [exact Hr | constructor]. Qed.

Lemma strip_by_dropping (P : ascii -> Prop) (p : ascii -> bool) (s : str) :
  (forall c, p c = true -> P c) -> dropping P s (strip_by p s).
Proof.
  intros Hp. destruct (strip_by_spec p s) as (a & b & E & Ha & Hb).
  rewrite E at 1. apply dropping_prefix.
  - apply (Forall_impl _ _ _ Ha). exact Hp.
  - apply dropping_suffix. apply (Forall_impl _ _ _ Hb). exact Hp.
Qed.

Lemma str_i_reads_only (P : ascii -> Prop) (w : str) :
  Forall (fun a => forall c, lower_char a = lower_char c -> P c) w ->
  reads_only P (str_i w).
Proof.
  induction 1 as [|a w Ha _ IH]; [exact I|].
  change (str_i (a :: w)) with (Cat (chr_i a) (str_i w)). split; [|exact IH].
  intros c Hc. apply ascii_eqb_true in Hc. exact (Ha c Hc).
Qed.

Lemma str_i_not_gt (w : str) :
  forallb (fun a => negb (Ascii.eqb (lower_char a) ">")) w = true ->
  reads_only (fun c => c <> ">"%char) (str_i w).
Proof.
  intros H. apply str_i_reads_only. apply List.Forall_forall. intros a Ha c E ->.
  rewrite forallb_forall in H. specialize (H a Ha).
  apply negb_true_iff in H. rewrite E in H. vm_compute in H. discriminate H.
Qed.

(** X27: no tag is left in a sanitized text: [<[^>]+>] matches nowhere
    in what [_sanitize] returns (the later removals and the final
    [strip] cannot bring a [<] and a [>] together). *)
Theorem sanitize_leaves_no_tag (text : str) :
  Re.search InputValidator.tag_pattern (InputValidator._sanitize text) = None.
Proof.
  apply tag_free_search.
  unfold InputValidator._sanitize. cbv zeta.
  cbn [foldl InputValidator.dangerous_patterns].
  set (t1 := Re.remove InputValidator.tag_pattern _).
  assert (tag_free t1) as H1 by apply remove_from_tag_free.
  eapply dropping_tag_free; [|exact H1].
  eapply dropping_trans; [|apply strip_by_dropping].
  2:{ intros c Hc ->. vm_compute in Hc. discriminate Hc. }
  eapply dropping_trans; [|apply remove_dropping, str_i_not_gt; reflexivity].
  eapply dropping_trans; [|apply remove_dropping].
  2:{ change (seq [str_i (lit "on"); plus word; Star space; chr_i "="])
        with (Cat (str_i (lit "on"))
                  (Cat (plus word) (Cat (Star space) (Cat (chr_i "=") Eps)))).
      split; [apply str_i_not_gt; reflexivity|].
      unfold plus. cbn [reads_only chr_i].
      repeat split; intros c Hc ->; vm_compute in Hc; discriminate Hc. }
  apply remove_dropping, str_i_not_gt. reflexivity.
Qed.

(** ** Validation and the length of the input *)

(** X28: [validate] rejects a text of at most 2000 characters only for
    being too short: when it fails on such a text, the sanitized text
    has fewer than 5 characters. *)
Theorem validate_rejects_only_short (detect : str -> option str) (text : str) :
  length text <= 2000 ->
  Dict.get (lit "valid") (InputValidator.validate detect InputValidator.init text)
  = Some (InputValidator.VBool false) ->
  length (InputValidator._sanitize text) < 5.
Proof.
  intros Hlen Hv.
  destruct (InputValidator._validate_length InputValidator.init
              (InputValidator._sanitize text)) eqn:E.
  - rewrite (validate_valid detect text E) in Hv.
    change (Some (InputValidator.VBool true) = Some (InputValidator.VBool false)) in Hv.
    discriminate Hv.
  - pose proof (sublist_length _ _ (sanitize_steps text)) as H1.
    pose proof (join_split_length text []) as H2. cbn [length] in H2.
    unfold split in H1.
    destruct (Nat.lt_ge_cases (length (InputValidator._sanitize text)) 5) as [H | H];
      [exact H|].
    assert (InputValidator._validate_length InputValidator.init
              (InputValidator._sanitize text) = true) as E'
      by (apply validate_length_spec; lia).
    congruence.
Qed.

Lemma validate_rejects_only_short_witness :
  length (lit " hi ") <= 2000
  /\ Dict.get (lit "valid")
       (InputValidator.validate (fun _ => None) InputValidator.init (lit " hi "))
     = Some (InputValidator.VBool false)
  /\ length (InputValidator._sanitize (lit " hi ")) < 5.
Proof.
  assert (length (lit " hi ") <= 2000) as H1 by (vm_compute; lia).
  assert (Dict.get (lit "valid")
            (InputValidator.validate (fun _ => None) InputValidator.init (lit " hi "))
          = Some (InputValidator.VBool false)) as H2 by reflexivity.
  split; [exact H1|]. split; [exact H2|].
  exact (validate_rejects_only_short _ _ H1 H2).
Defined.
